(** * Nano Banana Editor: contract validation, workflow builder and task store

    A shallow embedding of the JavaScript sources

    - [packages/shared/src/index.js]  (contract validators),
    - [packages/engine/src/index.js]  (dual-track workflow and provider request),
    - [packages/server/src/index.js]  (task store, SSE fan-out, POST /api/tasks),

    followed by the properties established about them.

    Conventions of the embedding.

    - A JavaScript value is a [Value]: the JSON values plus [undefined].  An
      object is the list of its own properties in insertion order.
    - A JavaScript number is an IEEE-754 binary64 value, [spec_float] of the
      standard library with precision 53 and maximal exponent 1024.  All
      arithmetic on numbers below is exact on the value [m * 2^e] and rounded
      with the library's [binary_round_aux].
    - A JavaScript string is a [string]; a character stands for the code unit
      of the same number, so the model covers strings over code units 0..255.
    - A [throw] is the [Throw] constructor of [Result].
    - The wall clock, the network and the file system are arguments: [now] is
      the result of [new Date().toISOString()], and [Env] holds the process
      environment and the answers of the outside world. *)

From Stdlib Require Import ZArith Lia Bool List String Ascii.
From Stdlib Require Import SpecFloat.
From stdpp Require Import base option list strings gmap pretty.

Local Open Scope string_scope.
Local Open Scope Z_scope.

(* ===================================================================== *)
(** * Part I: the embedding                                               *)
(* ===================================================================== *)

(* --------------------------------------------------------------------- *)
(** ** Strings of the host language                                       *)
(* --------------------------------------------------------------------- *)

Module JsString.

Definition code (c : ascii) : Z := Z.of_N (N_of_ascii c).

Definition of_code (z : Z) : ascii := ascii_of_N (Z.to_N z).

(** WhiteSpace and LineTerminator code units below 256: TAB, LF, VT, FF, CR,
    SPACE and NO-BREAK SPACE.  [String.prototype.trim], the regular
    expression class [\s] and the numeric-string grammar all use this set. *)
Definition isWhiteSpace (c : ascii) : bool :=
  let n := code c in
  ((9 <=? n) && (n <=? 13)) || (n =? 32) || (n =? 160).

Definition isDigit (c : ascii) : bool :=
  let n := code c in (48 <=? n) && (n <=? 57).

Definition digitValue (c : ascii) : Z := code c - 48.

Fixpoint trimStart (s : string) : string :=
  match s with
  | EmptyString => EmptyString
  | String c r => if isWhiteSpace c then trimStart r else s
  end.

Definition isEmpty (s : string) : bool :=
  match s with EmptyString => true | _ => false end.

Fixpoint trimEnd (s : string) : string :=
  match s with
  | EmptyString => EmptyString
  | String c r =>
      let r' := trimEnd r in
      if isWhiteSpace c && isEmpty r' then EmptyString else String c r'
  end.

(** [String.prototype.trim] *)
Definition trim (s : string) : string := trimEnd (trimStart s).

(** Upper-case mapping of one code unit (Unicode SpecialCasing restricted to
    code units below 256): a-z and the Latin-1 letters E0..FE except the
    division sign F7 move down by 32, sharp s (DF) becomes "SS".  MICRO SIGN
    (B5) and y with diaeresis (FF) have upper-case forms outside this range
    (U+039C and U+0178) and are left as they are: the result differs from
    the host's on these two code units, in a character that occurs in none
    of the constants an upper-cased string is compared with. *)
Definition upperChar (c : ascii) : string :=
  let n := code c in
  if (97 <=? n) && (n <=? 122) then String (of_code (n - 32)) EmptyString
  else if n =? 223 then "SS"
  else if (224 <=? n) && (n <=? 254) && negb (n =? 247)
       then String (of_code (n - 32)) EmptyString
  else String c EmptyString.

(** [String.prototype.toUpperCase] *)
Fixpoint toUpperCase (s : string) : string :=
  match s with
  | EmptyString => EmptyString
  | String c r => upperChar c +:+ toUpperCase r
  end.

(** Case-insensitive comparison of one code unit of the input with one
    pattern character, as a regular expression with the [i] flag and without
    the [u] flag does it: both sides are canonicalised by their simple
    upper-case mapping, and a non-ASCII unit is never folded onto an ASCII
    one.  The patterns of this program are ASCII letters and brackets. *)
Definition canonicalize (c : ascii) : ascii :=
  let n := code c in
  if (97 <=? n) && (n <=? 122) then of_code (n - 32)
  else if (224 <=? n) && (n <=? 254) && negb (n =? 247) then of_code (n - 32)
  else c.

Definition eqChar_i (c p : ascii) : bool :=
  Ascii.eqb (canonicalize c) (canonicalize p).

(** [s] starts with [pat], compared case-insensitively; the rest of [s]. *)
Fixpoint stripPrefix_i (pat s : string) : option string :=
  match pat with
  | EmptyString => Some s
  | String p pat' =>
      match s with
      | String c s' => if eqChar_i c p then stripPrefix_i pat' s' else None
      | EmptyString => None
      end
  end.

(** [s] starts with [pat], compared exactly; the rest of [s]. *)
Fixpoint stripPrefix (pat s : string) : option string :=
  match pat with
  | EmptyString => Some s
  | String p pat' =>
      match s with
      | String c s' => if Ascii.eqb c p then stripPrefix pat' s' else None
      | EmptyString => None
      end
  end.

(** Longest prefix of code units satisfying [f], and the rest. *)
Fixpoint span (f : ascii -> bool) (s : string) : string * string :=
  match s with
  | EmptyString => (EmptyString, EmptyString)
  | String c r =>
      if f c then let '(a, b) := span f r in (String c a, b)
      else (EmptyString, s)
  end.

Fixpoint repeat (c : ascii) (n : nat) : string :=
  match n with
  | O => EmptyString
  | S k => String c (repeat c k)
  end.

Fixpoint take (n : nat) (s : string) : string :=
  match n, s with
  | S k, String c r => String c (take k r)
  | _, _ => EmptyString
  end.

Fixpoint drop (n : nat) (s : string) : string :=
  match n, s with
  | S k, String _ r => drop k r
  | _, _ => s
  end.

(** [Array.prototype.join] on strings *)
Fixpoint join (sep : string) (l : list string) : string :=
  match l with
  | [] => EmptyString
  | [x] => x
  | x :: r => x +:+ sep +:+ join sep r
  end.

(** Decimal numeral of a non-negative integer, as a template literal prints
    an array index or an integral count. *)
Definition ofNat (n : nat) : string := pretty n.

Definition ofZ (z : Z) : string := pretty z.

(** Value of a string of decimal digits. *)
Definition digitsValue (s : string) : Z :=
  fold_left (fun acc c => 10 * acc + digitValue c) (list_ascii_of_string s) 0.

Definition hexValueOf (c : ascii) : option Z :=
  let n := code c in
  if (48 <=? n) && (n <=? 57) then Some (n - 48)
  else if (97 <=? n) && (n <=? 102) then Some (n - 87)
  else if (65 <=? n) && (n <=? 70) then Some (n - 55)
  else None.

(** Value of a non-empty numeral in base [radix] (2, 8 or 16); [None] when a
    code unit is not a digit of that base. *)
Fixpoint radixValue (radix : Z) (acc : Z) (s : string) : option Z :=
  match s with
  | EmptyString => Some acc
  | String c r =>
      match hexValueOf c with
      | Some d => if d <? radix then radixValue radix (radix * acc + d) r else None
      | None => None
      end
  end.

End JsString.

(* --------------------------------------------------------------------- *)
(** ** Numbers of the host language (IEEE-754 binary64)                   *)
(* --------------------------------------------------------------------- *)

Module JsNumber.

Definition number : Type := spec_float.

Definition prec : Z := 53.
Definition emax : Z := 1024.

Definition NaN : number := S754_nan.
Definition Infinity : number := S754_infinity false.
Definition zero : number := S754_zero false.

(** *** Rounding exact values to the nearest number, ties to even *)

(** The number nearest to the positive integer [p]. *)
Definition ofPositive (neg : bool) (p : positive) : number :=
  binary_round prec emax neg p 0.

(** The number nearest to the integer [z]. *)
Definition ofZ (z : Z) : number := binary_normalize prec emax z 0 false.

Definition ofNat (n : nat) : number := ofZ (Z.of_nat n).

(** The number nearest to the fraction [p / q]. *)
Definition ofRatio (neg : bool) (p q : positive) : number :=
  let '(mz, ez, lz) := SFdiv_core_binary prec emax (Zpos p) 0 (Zpos q) 0 in
  binary_round_aux prec emax neg mz ez lz.

(** The number nearest to [coeff * 10^exp10], for [coeff >= 0]; a zero
    coefficient keeps the sign. *)
Definition ofDecimal (neg : bool) (coeff exp10 : Z) : number :=
  match coeff with
  | Zpos p =>
      if 0 <=? exp10 then ofPositive neg (p * Z.to_pos (10 ^ exp10))
      else ofRatio neg p (Z.to_pos (10 ^ (- exp10)))
  | _ => S754_zero neg
  end.

(** *** Exact value of a finite number: [num x / den x] *)

Definition num (x : number) : Z :=
  match x with
  | S754_finite s m e => cond_Zopp s (Zpos m * 2 ^ Z.max e 0)
  | _ => 0
  end.

Definition den (x : number) : Z :=
  match x with
  | S754_finite _ _ e => 2 ^ Z.max (- e) 0
  | _ => 1
  end.

Definition isNaN (x : number) : bool :=
  match x with S754_nan => true | _ => false end.

(** [Number.isFinite] *)
Definition isFinite (x : number) : bool :=
  match x with
  | S754_zero _ | S754_finite _ _ _ => true
  | _ => false
  end.

(** [Number.isInteger] *)
Definition isInteger (x : number) : bool :=
  isFinite x && (num x mod den x =? 0).

(** IEEE comparison; [None] when an operand is NaN. *)
Definition compare (x y : number) : option comparison :=
  match x, y with
  | S754_nan, _ | _, S754_nan => None
  | S754_infinity s1, S754_infinity s2 =>
      Some (match s1, s2 with
            | true, false => Lt
            | false, true => Gt
            | _, _ => Eq
            end)
  | S754_infinity s, _ => Some (if s then Lt else Gt)
  | _, S754_infinity s => Some (if s then Gt else Lt)
  | _, _ => Some (Z.compare (num x * den y) (num y * den x))
  end.

(** [x < y] *)
Definition ltb (x y : number) : bool :=
  match compare x y with Some Lt => true | _ => false end.

(** [x <= y] *)
Definition leb (x y : number) : bool :=
  match compare x y with Some Lt | Some Eq => true | _ => false end.

(** [x > y] and [x >= y] *)
Definition gtb (x y : number) : bool := ltb y x.
Definition geb (x y : number) : bool := leb y x.

(** Structural equality: the same number in the same representation
    (+0 and -0 differ, NaN equals itself), as [Object.is]. *)
Definition eqb (x y : number) : bool :=
  match x, y with
  | S754_zero a, S754_zero b => Bool.eqb a b
  | S754_infinity a, S754_infinity b => Bool.eqb a b
  | S754_nan, S754_nan => true
  | S754_finite a m e, S754_finite b m' e' =>
      Bool.eqb a b && Pos.eqb m m' && Z.eqb e e'
  | _, _ => false
  end.

(** SameValueZero, the equality of [Set] and [Array.prototype.includes]:
    +0 and -0 are the same, NaN equals itself. *)
Definition sameValueZero (x y : number) : bool :=
  match x, y with
  | S754_zero _, S754_zero _ => true
  | _, _ => eqb x y
  end.

Definition isNegative (x : number) : bool := ltb x zero.

Definition abs (x : number) : number := SFabs x.

(** *** Number::toString (radix 10) *)

(** [a / b >= 10^n] *)
Definition gePow10 (a b n : Z) : bool :=
  if 0 <=? n then b * 10 ^ n <=? a else b <=? a * 10 ^ (- n).

(** The least [n >= start] with [a / b < 10^n]. *)
Fixpoint magnitudeFrom (fuel : nat) (a b n : Z) : Z :=
  match fuel with
  | O => n
  | S k => if gePow10 a b n then magnitudeFrom k a b (n + 1) else n
  end.

(** The [n] with [10^(n-1) <= a / b < 10^n]. *)
Definition magnitude (a b : Z) : Z :=
  let lo := - (Z.log2 b + 1) in
  magnitudeFrom (Z.to_nat (Z.log2 a + Z.log2 b + 4)) a b lo.

(** [floor ((a / b) / 10^t)] *)
Definition scaledFloor (a b t : Z) : Z :=
  if 0 <=? t then a / (b * 10 ^ t) else (a * 10 ^ (- t)) / b.

(** Comparison of [a / b] with [(2 * lo + 1) * 10^t / 2], the midpoint of
    the two candidates [lo * 10^t] and [(lo + 1) * 10^t]. *)
Definition compareMid (a b lo t : Z) : comparison :=
  if 0 <=? t then Z.compare (2 * a) ((2 * lo + 1) * 10 ^ t * b)
  else Z.compare (2 * a * 10 ^ (- t)) ((2 * lo + 1) * b).

(** A [k]-digit coefficient [s] with [ofDecimal s (n - k) = x], the one
    closest to [x] (the even one on a tie), if there is one. *)
Definition shortestAt (x : number) (a b n k : Z) : option Z :=
  let t := n - k in
  let lo := scaledFloor a b t in
  let hi := lo + 1 in
  let okLo := eqb (ofDecimal false lo t) x in
  let okHi := eqb (ofDecimal false hi t) x in
  match okLo, okHi with
  | true, true =>
      match compareMid a b lo t with
      | Lt => Some lo
      | Gt => Some hi
      | Eq => Some (if Z.even lo then lo else hi)
      end
  | true, false => Some lo
  | false, true => Some hi
  | false, false => None
  end.

(** The shortest coefficient: the least [k >= from] that has one. *)
Fixpoint shortestFrom (fuel : nat) (x : number) (a b n k : Z) : Z * Z :=
  match fuel with
  | O => (scaledFloor a b (n - k), k)
  | S f =>
      match shortestAt x a b n k with
      | Some s => (s, k)
      | None => shortestFrom f x a b n (k + 1)
      end
  end.

(** Layout of the digits [ds] of a number with decimal exponent [n]. *)
Definition layoutDigits (ds : string) (n : Z) : string :=
  let k := Z.of_nat (String.length ds) in
  if (k <=? n) && (n <=? 21) then
    ds +:+ JsString.repeat "0" (Z.to_nat (n - k))
  else if (0 <? n) && (n <=? 21) then
    JsString.take (Z.to_nat n) ds +:+ "." +:+ JsString.drop (Z.to_nat n) ds
  else if (-6 <? n) && (n <=? 0) then
    "0." +:+ JsString.repeat "0" (Z.to_nat (- n)) +:+ ds
  else
    let e := n - 1 in
    let es := (if 0 <=? e then "+" else "-") +:+ JsString.ofZ (Z.abs e) in
    if k =? 1 then ds +:+ "e" +:+ es
    else JsString.take 1 ds +:+ "." +:+ JsString.drop 1 ds +:+ "e" +:+ es.

Definition toStringPositive (x : number) : string :=
  let a := num x in
  let b := den x in
  let n := magnitude a b in
  let '(s, k) := shortestFrom 17 x a b n 1 in
  if s =? 10 ^ k then layoutDigits (JsString.ofZ (s / 10)) (n + 1)
  else layoutDigits (JsString.ofZ s) n.

(** [Number::toString(x)] with radix 10 *)
Definition toString (x : number) : string :=
  match x with
  | S754_nan => "NaN"
  | S754_zero _ => "0"
  | S754_infinity s => if s then "-Infinity" else "Infinity"
  | S754_finite s _ _ =>
      if s then "-" +:+ toStringPositive (abs x) else toStringPositive x
  end.

(** *** Number.prototype.toFixed *)

(** The integer [n] for which [n / 10^f - |x|] is closest to zero, the larger
    one when there are two: [floor (|x| * 10^f + 1/2)]. *)
Definition roundScaled (x : number) (f : nat) : Z :=
  (2 * Z.abs (num x) * 10 ^ Z.of_nat f + den x) / (2 * den x).

(** The digits of [n] with a decimal point before the last [f] of them. *)
Definition layoutFixed (n : Z) (f : nat) : string :=
  let m := JsString.ofZ n in
  match f with
  | O => m
  | _ =>
      let k := String.length m in
      let m' := if (k <=? f)%nat then JsString.repeat "0" (f + 1 - k) +:+ m else m in
      let k' := String.length m' in
      JsString.take (k' - f) m' +:+ "." +:+ JsString.drop (k' - f) m'
  end.

(** [x.toFixed(f)], for [0 <= f <= 100] *)
Definition toFixed (x : number) (f : nat) : string :=
  if negb (isFinite x) then toString x
  else
    let neg := isNegative x in
    let ax := abs x in
    let body :=
      if geb ax (ofZ (10 ^ 21)) then toString ax
      else layoutFixed (roundScaled ax f) f in
    if neg then "-" +:+ body else body.

(** *** StringToNumber *)

(** The characters after the exponent indicator: an optional sign and at
    least one digit, and nothing else. *)
Definition parseExponent (s : string) : option Z :=
  let '(neg, r) :=
    match s with
    | String "+" r => (false, r)
    | String "-" r => (true, r)
    | _ => (false, s)
    end in
  let '(ds, rest) := JsString.span JsString.isDigit r in
  if JsString.isEmpty ds || negb (JsString.isEmpty rest) then None
  else Some (if neg then - JsString.digitsValue ds else JsString.digitsValue ds).

(** StrUnsignedDecimalLiteral *)
Definition parseUnsignedDecimal (neg : bool) (s : string) : number :=
  if String.eqb s "Infinity" then S754_infinity neg
  else
    let '(ip, r1) := JsString.span JsString.isDigit s in
    let '(fp, r2) :=
      match r1 with
      | String "." r => JsString.span JsString.isDigit r
      | _ => (EmptyString, r1)
      end in
    if JsString.isEmpty ip && JsString.isEmpty fp then NaN
    else
      let ex :=
        match r2 with
        | EmptyString => Some 0
        | String c r =>
            if Ascii.eqb c "e" || Ascii.eqb c "E" then parseExponent r else None
        end in
      match ex with
      | None => NaN
      | Some e =>
          ofDecimal neg (JsString.digitsValue (ip +:+ fp))
                    (e - Z.of_nat (String.length fp))
      end.

(** NonDecimalIntegerLiteral: the digits after [0x], [0o] or [0b] *)
Definition parseRadix (radix : Z) (s : string) : number :=
  if JsString.isEmpty s then NaN
  else match JsString.radixValue radix 0 s with
       | Some v => ofZ v
       | None => NaN
       end.

(** A prefix [0x], [0o] or [0b], in either case: the base and the digits
    that follow. *)
Definition radixPrefix (t : string) : option (Z * string) :=
  match t with
  | String z (String c r) =>
      if Ascii.eqb z "0" then
        if Ascii.eqb c "x" || Ascii.eqb c "X" then Some (16, r)
        else if Ascii.eqb c "o" || Ascii.eqb c "O" then Some (8, r)
        else if Ascii.eqb c "b" || Ascii.eqb c "B" then Some (2, r)
        else None
      else None
  | _ => None
  end.

(** [StringToNumber(s)]: what [Number(s)] returns for a string *)
Definition ofString (s : string) : number :=
  let t := JsString.trim s in
  match t with
  | EmptyString => zero
  | String c r =>
      match radixPrefix t with
      | Some (radix, digits) => parseRadix radix digits
      | None =>
          if Ascii.eqb c "+" then parseUnsignedDecimal false r
          else if Ascii.eqb c "-" then parseUnsignedDecimal true r
          else parseUnsignedDecimal false t
      end
  end.

End JsNumber.

(* --------------------------------------------------------------------- *)
(** ** Values, exceptions and coercions of the host language              *)
(* --------------------------------------------------------------------- *)

Abbreviation number := JsNumber.number.

(** The values a parsed JSON body can hold, and [undefined], which reading
    an absent property yields.  An object lists its own properties in
    insertion order, each key once. *)
#[warnings="-register-all"]
Inductive Value : Type :=
  | VUndefined
  | VNull
  | VBool (b : bool)
  | VNumber (x : number)
  | VString (s : string)
  | VArray (items : list Value)
  | VObject (props : list (string * Value)).

(** What a [throw] carries.  [ContractValidationError] and [HttpError] are
    the two classes of the program; [Error] is a plain [Error] (or the
    [TypeError] of the runtime) with its [name], [message] and, where the
    program sets one, its [code] property. *)
Inductive JsError : Type :=
  | ContractValidationError (code message : string) (details : Value)
  | HttpError (statusCode : Z) (message code : string)
  | Error (name message : string) (code : Value).

Inductive Result (A : Type) : Type :=
  | Ok (a : A)
  | Throw (e : JsError).

Arguments Ok {A} a.
Arguments Throw {A} e.

Definition bind {A B : Type} (r : Result A) (k : A -> Result B) : Result B :=
  match r with
  | Ok a => k a
  | Throw e => Throw e
  end.

Notation "'let*' x ':=' r 'in' k" := (bind r (fun x => k))
  (at level 10, x name, r at level 200, k at level 200).

Definition isOk {A : Type} (r : Result A) : bool :=
  match r with Ok _ => true | Throw _ => false end.

(** Sequential map over an array with the index, stopping at the first
    callback that throws. *)
Fixpoint mapIndexed {A B : Type} (f : A -> nat -> Result B) (i : nat) (l : list A)
  : Result (list B) :=
  match l with
  | [] => Ok []
  | x :: r =>
      let* y := f x i in
      let* ys := mapIndexed f (S i) r in
      Ok (y :: ys)
  end.

(** Map with the index for callbacks that cannot throw. *)
Fixpoint imapFrom {A B : Type} (f : A -> nat -> B) (i : nat) (l : list A) : list B :=
  match l with
  | [] => []
  | x :: r => f x i :: imapFrom f (S i) r
  end.

Module JsValue.

(** Own property [key] of a property list. *)
Fixpoint lookup (key : string) (props : list (string * Value)) : option Value :=
  match props with
  | [] => None
  | (k, v) :: r => if String.eqb k key then Some v else lookup key r
  end.

(** [value.key]: the property if [value] is an object that has it, and
    [undefined] otherwise.  None of the property names read by the program
    is defined on [Object.prototype]. *)
Definition get (key : string) (value : Value) : Value :=
  match value with
  | VObject props =>
      match lookup key props with
      | Some v => v
      | None => VUndefined
      end
  | _ => VUndefined
  end.

(** [obj[key] = v] on a property list: in place when the key exists, at the
    end when it is new. *)
Fixpoint assign (key : string) (v : Value) (props : list (string * Value))
  : list (string * Value) :=
  match props with
  | [] => [(key, v)]
  | (k, w) :: r =>
      if String.eqb k key then (k, v) :: r else (k, w) :: assign key v r
  end.

(** [{...base, ...extra}] on property lists. *)
Definition spread (base extra : list (string * Value)) : list (string * Value) :=
  fold_left (fun acc kv => assign (fst kv) (snd kv) acc) extra base.

(** The own properties an object spread copies: those of an object, none of
    [undefined], [null], a boolean or a number. *)
Definition ownProps (v : Value) : list (string * Value) :=
  match v with
  | VObject props => props
  | _ => []
  end.

(** [typeof value] *)
Definition typeof (value : Value) : string :=
  match value with
  | VUndefined => "undefined"
  | VNull => "object"
  | VBool _ => "boolean"
  | VNumber _ => "number"
  | VString _ => "string"
  | VArray _ => "object"
  | VObject _ => "object"
  end.

(** [Array.isArray(value)] *)
Definition isArray (value : Value) : bool :=
  match value with VArray _ => true | _ => false end.

(** Truthiness, as [||], [?:] and [filter(Boolean)] test it. *)
Definition truthy (value : Value) : bool :=
  match value with
  | VUndefined | VNull => false
  | VBool b => b
  | VNumber x => negb (JsNumber.isNaN x) && negb (JsNumber.eqb (JsNumber.abs x) JsNumber.zero)
  | VString s => negb (JsString.isEmpty s)
  | VArray _ | VObject _ => true
  end.

(** [a || b] *)
Definition orElse (a b : Value) : Value := if truthy a then a else b.

(** [a ?? b] *)
Definition coalesce (a b : Value) : Value :=
  match a with
  | VUndefined | VNull => b
  | _ => a
  end.

Definition typeError : JsError :=
  Error "TypeError" "Cannot convert object to primitive value" VUndefined.

(** [ToString(value)].  An array is joined with commas, [undefined] and
    [null] elements giving the empty string.  An object parsed from JSON
    converts through [Object.prototype.toString], unless it has an own
    property [toString]: that property holds a JSON value, which is not
    callable, and OrdinaryToPrimitive then finds no method that returns a
    primitive and throws a [TypeError]. *)
Fixpoint toString (value : Value) : Result string :=
  match value with
  | VUndefined => Ok "undefined"
  | VNull => Ok "null"
  | VBool b => Ok (if b then "true" else "false")
  | VNumber x => Ok (JsNumber.toString x)
  | VString s => Ok s
  | VArray items =>
      let element (v : Value) : Result string :=
        match v with
        | VUndefined | VNull => Ok EmptyString
        | _ => toString v
        end in
      (fix joinFrom (l : list Value) : Result string :=
         match l with
         | [] => Ok EmptyString
         | [v] => element v
         | v :: r =>
             let* s := element v in
             let* t := joinFrom r in
             Ok (s +:+ "," +:+ t)
         end) items
  | VObject props =>
      match lookup "toString" props with
      | Some _ => Throw typeError
      | None => Ok "[object Object]"
      end
  end.

(** [Number(value)], that is [ToNumber(value)] *)
Definition toNumber (value : Value) : Result number :=
  match value with
  | VUndefined => Ok JsNumber.NaN
  | VNull => Ok JsNumber.zero
  | VBool b => Ok (if b then JsNumber.ofZ 1 else JsNumber.zero)
  | VNumber x => Ok x
  | VString s => Ok (JsNumber.ofString s)
  | VArray _ | VObject _ =>
      let* s := toString value in
      Ok (JsNumber.ofString s)
  end.

End JsValue.

(* --------------------------------------------------------------------- *)
(** ** packages/shared/src/index.js                                       *)
(* --------------------------------------------------------------------- *)

Module Shared.

Import JsValue.

Definition FEATURE_TYPES : list string := ["FACE"; "STYLE"; "MATERIAL"; "COMPONENT"].

Definition TASK_STATUSES : list string := ["QUEUED"; "PROCESSING"; "SUCCESS"; "FAILED"].

(** [list.includes(s)] for a list of strings *)
Definition includes (l : list string) (s : string) : bool :=
  existsb (String.eqb s) l.

Definition isRecord (value : Value) : bool :=
  match value with
  | VObject _ => true
  | _ => false
  end.

Definition ensureString (value : Value) (field : string) (allowEmpty : bool)
  : Result string :=
  match value with
  | VString s =>
      let trimmed := JsString.trim s in
      if negb allowEmpty && JsString.isEmpty trimmed then
        Throw (ContractValidationError "EMPTY_STRING"
                 (field +:+ " must not be empty")
                 (VObject [("field", VString field)]))
      else Ok trimmed
  | _ =>
      Throw (ContractValidationError "INVALID_STRING"
               (field +:+ " must be a string")
               (VObject [("field", VString field);
                         ("receivedType", VString (typeof value))]))
  end.

Definition ensureWeight (value : Value) (field : string) : Result number :=
  let* parsed :=
    match value with
    | VNumber x => Ok x
    | _ => toNumber value
    end in
  if negb (JsNumber.isFinite parsed) then
    Throw (ContractValidationError "INVALID_WEIGHT"
             (field +:+ " must be a valid number")
             (VObject [("field", VString field); ("received", value)]))
  else if JsNumber.ltb parsed JsNumber.zero || JsNumber.gtb parsed (JsNumber.ofZ 1) then
    Throw (ContractValidationError "WEIGHT_OUT_OF_RANGE"
             (field +:+ " must be in range [0, 1]")
             (VObject [("field", VString field); ("received", VNumber parsed)]))
  else Ok (JsNumber.ofString (JsNumber.toFixed parsed 4)).

Definition validateReference (value : Value) : Result Value :=
  if negb (isRecord value) then
    Throw (ContractValidationError "INVALID_REFERENCE"
             "reference must be an object"
             (VObject [("receivedType", VString (typeof value))]))
  else
    let* imageRef := ensureString (get "imageRef" value) "reference.imageRef" false in
    let* weight := ensureWeight (get "weight" value) "reference.weight" in
    Ok (VObject [("imageRef", VString imageRef); ("weight", VNumber weight)]).

Definition validateSource (value : Value) (index : nat) : Result Value :=
  let at_ := "sources[" +:+ JsString.ofNat index +:+ "]" in
  if negb (isRecord value) then
    Throw (ContractValidationError "INVALID_SOURCE"
             (at_ +:+ " must be an object")
             (VObject [("index", VNumber (JsNumber.ofNat index));
                       ("receivedType", VString (typeof value))]))
  else
    let* trimmed := ensureString (get "featureType" value) (at_ +:+ ".featureType") false in
    let featureType := JsString.toUpperCase trimmed in
    if negb (includes FEATURE_TYPES featureType) then
      Throw (ContractValidationError "INVALID_FEATURE_TYPE"
               (at_ +:+ ".featureType must be one of " +:+ JsString.join ", " FEATURE_TYPES)
               (VObject [("index", VNumber (JsNumber.ofNat index));
                         ("received", VString featureType)]))
    else
      let* imageRef := ensureString (get "imageRef" value) (at_ +:+ ".imageRef") false in
      let* weight := ensureWeight (get "weight" value) (at_ +:+ ".weight") in
      Ok (VObject [("imageRef", VString imageRef);
                   ("featureType", VString featureType);
                   ("weight", VNumber weight)]).

Definition validateGenerationContract (input : Value) : Result Value :=
  if negb (isRecord input) then
    Throw (ContractValidationError "INVALID_CONTRACT"
             "Generation Contract must be an object" (VObject []))
  else
    let* taskId := ensureString (get "taskId" input) "taskId" false in
    let* prompt := ensureString (get "prompt" input) "prompt" false in
    let* negativePrompt :=
      match get "negativePrompt" input with
      | VUndefined => Ok EmptyString
      | v => ensureString v "negativePrompt" true
      end in
    let* reference := validateReference (get "reference" input) in
    match get "sources" input with
    | VArray (s :: rest) =>
        let* sources := mapIndexed validateSource 0 (s :: rest) in
        Ok (VObject [("taskId", VString taskId);
                     ("prompt", VString prompt);
                     ("negativePrompt", VString negativePrompt);
                     ("reference", reference);
                     ("sources", VArray sources)])
    | _ =>
        Throw (ContractValidationError "INVALID_SOURCES"
                 "sources must be a non-empty array" (VObject []))
    end.

(** [typeof v === "string" && v.trim().length > 0 ? v.trim() : null] *)
Definition trimmedOrNull (v : Value) : Value :=
  match v with
  | VString s =>
      if negb (JsString.isEmpty (JsString.trim s)) then VString (JsString.trim s)
      else VNull
  | _ => VNull
  end.

(** [(item) => typeof item === "string" && item.trim().length > 0] *)
Definition isNonBlankString (item : Value) : bool :=
  match item with
  | VString s => negb (JsString.isEmpty (JsString.trim s))
  | _ => false
  end.

(** [now] stands for [new Date().toISOString()]. *)
Definition createStatusResponse (input : Value) (now : string) : Result Value :=
  if negb (isRecord input) then
    Throw (ContractValidationError "INVALID_STATUS"
             "Status Response must be an object" (VObject []))
  else
    let* taskId := ensureString (get "taskId" input) "taskId" false in
    let* trimmed := ensureString (get "status" input) "status" false in
    let status := JsString.toUpperCase trimmed in
    if negb (includes TASK_STATUSES status) then
      Throw (ContractValidationError "INVALID_STATUS_VALUE"
               ("status must be one of " +:+ JsString.join ", " TASK_STATUSES)
               (VObject [("received", VString status)]))
    else
      let outputUrl := trimmedOrNull (get "outputUrl" input) in
      let errorCode := trimmedOrNull (get "errorCode" input) in
      let message := trimmedOrNull (get "message" input) in
      let warnings :=
        match get "warnings" input with
        | VArray items => List.filter isNonBlankString items
        | _ => []
        end in
      Ok (VObject [("taskId", VString taskId);
                   ("status", VString status);
                   ("outputUrl", outputUrl);
                   ("errorCode", errorCode);
                   ("message", message);
                   ("warnings", VArray warnings);
                   ("updatedAt",
                    match get "updatedAt" input with
                    | VString s => if negb (JsString.isEmpty s) then VString s else VString now
                    | _ => VString now
                    end)]).

(** One attempt of [/\[Source\s+(\d+)\]/i] at the start of [s]: the digits
    captured and what follows the match.  White space, digits and the closing
    bracket are disjoint, so the greedy match is the only one. *)
Definition matchSourceAt (s : string) : option (string * string) :=
  match JsString.stripPrefix_i "[Source" s with
  | None => None
  | Some r =>
      let '(ws, r1) := JsString.span JsString.isWhiteSpace r in
      if JsString.isEmpty ws then None
      else
        let '(ds, r2) := JsString.span JsString.isDigit r1 in
        if JsString.isEmpty ds then None
        else match r2 with
             | String "]" r3 => Some (ds, r3)
             | _ => None
             end
  end.

(** [matchAll] with the [g] flag: the captures of the successive
    non-overlapping matches, left to right.  [skip] counts the code units of
    the current match that are still to be passed over. *)
Fixpoint scanSource (s : string) (skip : nat) : list string :=
  match s with
  | EmptyString => []
  | String _ r =>
      match skip with
      | S k => scanSource r k
      | O =>
          match matchSourceAt s with
          | Some (ds, rest) =>
              ds :: scanSource r (String.length s - String.length rest - 1)
          | None => scanSource r 0
          end
      end
  end.

(** [/\[Reference\]/i.test(s)] *)
Fixpoint testReference (s : string) : bool :=
  match s with
  | EmptyString => false
  | String _ r =>
      match JsString.stripPrefix_i "[Reference]" s with
      | Some _ => true
      | None => testReference r
      end
  end.

(** [[...new Set(l)]]: first occurrences, in order, under SameValueZero. *)
Definition unique (l : list number) : list number :=
  fold_left
    (fun acc x => if existsb (JsNumber.sameValueZero x) acc then acc else (acc ++ [x])%list)
    l [].

(** The filter of [outOfRange]. *)
Definition isOutOfRange (sourceCount : nat) (index : number) : bool :=
  negb (JsNumber.isInteger index)
  || JsNumber.ltb index JsNumber.zero
  || JsNumber.geb index (JsNumber.ofNat sourceCount).

(** [sourceCount] is a count of sources: its callers pass
    [contract.sources.length]. *)
Definition extractPromptIndexing (prompt : Value) (sourceCount : nat) : Result Value :=
  let* normalizedPrompt := ensureString prompt "prompt" true in
  let sourceMatches := scanSource normalizedPrompt 0 in
  let sourceIndexes := map JsNumber.ofString sourceMatches in
  let outOfRange := List.filter (isOutOfRange sourceCount) sourceIndexes in
  Ok (VObject [("usesReference", VBool (testReference normalizedPrompt));
               ("sourceIndexes", VArray (map VNumber (unique sourceIndexes)));
               ("outOfRange", VArray (map VNumber (unique outOfRange)))]).

(** [String(error)] of a thrown value is not needed: everything thrown in
    this program is an [Error] object. *)
Definition serializeError (error : JsError) : Value :=
  match error with
  | ContractValidationError code message details =>
      VObject [("code", VString code); ("message", VString message); ("details", details)]
  | HttpError _ message _ =>
      VObject [("code", VString "UNEXPECTED_ERROR"); ("message", VString message)]
  | Error _ message _ =>
      VObject [("code", VString "UNEXPECTED_ERROR"); ("message", VString message)]
  end.

End Shared.

(* --------------------------------------------------------------------- *)
(** ** The process environment and the outside world                      *)
(* --------------------------------------------------------------------- *)

(** What [fetch(imageRef)] resolves to: [response.ok], [response.status],
    the [content-type] header ([None] for [null]) and the body in base64. *)
Record FetchResponse : Type := {
  fetch_ok : bool;
  fetch_status : Z;
  fetch_contentType : option string;
  fetch_body : string
}.

(** What the provider call resolves to: [response.ok], [response.status],
    [response.statusText], the request id header
    ([x-request-id || x-goog-request-id || null]), the body text, and
    [JSON.parse] of that text ([null] when the text is empty or not JSON). *)
Record ProviderResponse : Type := {
  provider_ok : bool;
  provider_status : Z;
  provider_statusText : string;
  provider_requestId : Value;
  provider_text : string;
  provider_json : Value
}.

(** [process.env] and the answers of the network, of [Buffer.from] and of
    the file system.  A rejected promise is a [Throw]. *)
Record Env : Type := {
  GEMINI_API_KEY : Value;
  GEMINI_MODEL : Value;
  GEMINI_API_BASE_URL : Value;
  fetchImage : string -> Result FetchResponse;
  callProvider : string -> Value -> Result ProviderResponse;
  bufferFrom : Value -> Result Value;
  writeFile : string -> Value -> Result unit
}.

(* --------------------------------------------------------------------- *)
(** ** packages/engine/src/index.js                                       *)
(* --------------------------------------------------------------------- *)

Module Engine.

Import JsValue.

(** The contract object as the engine reads it: the properties written by
    [validateGenerationContract], and [model], which the engine reads as
    well ([undefined] when the object has none). *)
Record Reference : Type := {
  ref_imageRef : string;
  ref_weight : number
}.

Record Source : Type := {
  src_imageRef : string;
  src_featureType : string;
  src_weight : number
}.

Record Contract : Type := {
  taskId : string;
  prompt : string;
  negativePrompt : string;
  model : Value;
  reference : Reference;
  sources : list Source
}.

Definition decodeReference (v : Value) : option Reference :=
  match get "imageRef" v, get "weight" v with
  | VString r, VNumber w => Some {| ref_imageRef := r; ref_weight := w |}
  | _, _ => None
  end.

Definition decodeSource (v : Value) : option Source :=
  match get "imageRef" v, get "featureType" v, get "weight" v with
  | VString r, VString f, VNumber w =>
      Some {| src_imageRef := r; src_featureType := f; src_weight := w |}
  | _, _, _ => None
  end.

Fixpoint decodeSources (l : list Value) : option (list Source) :=
  match l with
  | [] => Some []
  | v :: r =>
      match decodeSource v, decodeSources r with
      | Some s, Some ss => Some (s :: ss)
      | _, _ => None
      end
  end.

(** The engine's reading of a contract object of the validated shape. *)
Definition decodeContract (v : Value) : option Contract :=
  match get "taskId" v, get "prompt" v, get "negativePrompt" v,
        decodeReference (get "reference" v), get "sources" v with
  | VString t, VString p, VString n, Some r, VArray items =>
      match decodeSources items with
      | Some ss =>
          Some {| taskId := t; prompt := p; negativePrompt := n;
                  model := get "model" v; reference := r; sources := ss |}
      | None => None
      end
  | _, _, _, _, _ => None
  end.

Definition withModel (contract : Contract) (m : Value) : Contract :=
  {| taskId := taskId contract; prompt := prompt contract;
     negativePrompt := negativePrompt contract; model := m;
     reference := reference contract; sources := sources contract |}.

Definition newline : string := String (ascii_of_nat 10) EmptyString.

Definition DEFAULT_MODEL (env : Env) : Value :=
  orElse (GEMINI_MODEL env) (VString "gemini-3-pro-image-preview").

Definition DEFAULT_BASE_URL (env : Env) : Value :=
  orElse (GEMINI_API_BASE_URL env)
         (VString "https://generativelanguage.googleapis.com/v1beta").

(** [FEATURE_HINTS[featureType]], printed in a template literal.  The
    feature type of a validated source is one of the four keys; any other
    string is looked up as [undefined], which is what the host does for
    every string that is not the name of a property of [Object.prototype]
    (such a name never passes validation). *)
Definition featureHint (featureType : string) : string :=
  if String.eqb featureType "FACE" then "Preserve identity and facial consistency."
  else if String.eqb featureType "STYLE" then
    "Transfer visual style, color language, and rendering tone."
  else if String.eqb featureType "MATERIAL" then "Transfer material and texture fidelity."
  else if String.eqb featureType "COMPONENT" then
    "Transfer specific components or accessories."
  else "undefined".

Definition inlineData (mimeType data : string) : Value :=
  VObject [("mimeType", VString mimeType); ("data", VString data)].

Definition isLineTerminator (c : ascii) : bool :=
  let n := JsString.code c in (n =? 10) || (n =? 13).

Fixpoint hasLineTerminator (s : string) : bool :=
  match s with
  | EmptyString => false
  | String c r => isLineTerminator c || hasLineTerminator r
  end.

(** [dataUrl.match(/^data:([^;,]+);base64,(.+)$/)] *)
Definition parseDataUrl (dataUrl : string) : Result Value :=
  let invalid :=
    Error "Error" "Invalid data URL imageRef. Expected data:<mime>;base64,<data>."
          VUndefined in
  match JsString.stripPrefix "data:" dataUrl with
  | None => Throw invalid
  | Some r =>
      let '(mime, r1) :=
        JsString.span (fun c => negb (Ascii.eqb c ";" || Ascii.eqb c ",")) r in
      match JsString.stripPrefix ";base64," r1 with
      | Some data =>
          if JsString.isEmpty mime || JsString.isEmpty data || hasLineTerminator data
          then Throw invalid
          else Ok (inlineData mime data)
      | None => Throw invalid
      end
  end.

(** [/^https?:\/\//i.test(imageRef)] *)
Definition isHttpUrl (imageRef : string) : bool :=
  match JsString.stripPrefix_i "http://" imageRef,
        JsString.stripPrefix_i "https://" imageRef with
  | None, None => false
  | _, _ => true
  end.

(** [mimeType.split(";")[0]] *)
Definition beforeSemicolon (s : string) : string :=
  fst (JsString.span (fun c => negb (Ascii.eqb c ";")) s).

Definition imageRefToInlineData (env : Env) (imageRef : string) : Result Value :=
  match JsString.stripPrefix "data:" imageRef with
  | Some _ => parseDataUrl imageRef
  | None =>
      if isHttpUrl imageRef then
        let* response := fetchImage env imageRef in
        if negb (fetch_ok response) then
          Throw (Error "Error"
                   ("Failed to download imageRef: " +:+ imageRef +:+ " ("
                    +:+ JsString.ofZ (fetch_status response) +:+ ")")
                   VUndefined)
        else
          let mimeType :=
            match fetch_contentType response with
            | Some (String c t) => String c t
            | _ => "image/png"
            end in
          Ok (inlineData (beforeSemicolon mimeType) (fetch_body response))
      else
        Throw (Error "Error" "Unsupported imageRef format. Use data URL or http(s) URL."
                 VUndefined)
  end.

Definition createSystemPrompt (contract : Contract) : string :=
  let sourceHints :=
    JsString.join newline
      (imapFrom
         (fun source index =>
            "Source " +:+ JsString.ofNat index +:+ ": type=" +:+ src_featureType source
            +:+ ", weight=" +:+ JsNumber.toFixed (src_weight source) 2 +:+ ". "
            +:+ featureHint (src_featureType source))
         0%nat (sources contract)) in
  JsString.join newline
    ["You are a multi-reference image editing and generation engine.";
     "Apply strong composition constraints from Reference image.";
     "Apply weighted multi-source feature fusion from Source images.";
     "Keep scene physically coherent with minimal artifacts.";
     "If conflicts happen, prioritize higher weight source features.";
     "";
     "Feature plan:";
     sourceHints].

(** [mimeType.includes(needle)] for a string *)
Fixpoint containsText (needle s : string) : bool :=
  match JsString.stripPrefix needle s with
  | Some _ => true
  | None =>
      match s with
      | EmptyString => false
      | String _ r => containsText needle r
      end
  end.

(** [mimeType.includes(needle)], [mimeType] being whatever the response
    holds: a string, an array (membership of the string), or a value without
    an [includes] method. *)
Definition includesText (mimeType : Value) (needle : string) : Result bool :=
  match mimeType with
  | VString s => Ok (containsText needle s)
  | VArray items =>
      Ok (existsb (fun v => match v with VString t => String.eqb t needle | _ => false end)
                  items)
  | _ => Throw (Error "TypeError" "mimeType.includes is not a function" VUndefined)
  end.

(** [value?.[0]] *)
Definition first (value : Value) : Value :=
  match value with
  | VArray (v :: _) => v
  | VString (String c _) => VString (String c EmptyString)
  | VObject props => get "0" value
  | _ => VUndefined
  end.

(** [part.key], which throws on [null] and [undefined]; the message is the
    one Node writes. *)
Definition member (key : string) (part : Value) : Result Value :=
  match part with
  | VUndefined =>
      Throw (Error "TypeError"
                   ("Cannot read properties of undefined (reading '" +:+ key +:+ "')")
                   VUndefined)
  | VNull =>
      Throw (Error "TypeError"
                   ("Cannot read properties of null (reading '" +:+ key +:+ "')")
                   VUndefined)
  | _ => Ok (get key part)
  end.

(** [parts.find((part) => part.inlineData?.data || part.inline_data?.data)] *)
Fixpoint findImagePart (parts : list Value) : Result Value :=
  match parts with
  | [] => Ok VUndefined
  | part :: r =>
      let* a := member "inlineData" part in
      let* found :=
        if truthy (get "data" a) then Ok true
        else let* b := member "inline_data" part in Ok (truthy (get "data" b)) in
      if found : bool then Ok part else findImagePart r
  end.

(** [parts.find((part) => typeof part.text === "string")] *)
Fixpoint findTextPart (parts : list Value) : Result Value :=
  match parts with
  | [] => Ok VUndefined
  | part :: r =>
      let* t := member "text" part in
      match t with
      | VString _ => Ok part
      | _ => findTextPart r
      end
  end.

Definition extractOutputImage (env : Env) (resultJson : Value) : Result Value :=
  match get "parts" (get "content" (first (get "candidates" resultJson))) with
  | VArray (p :: ps) =>
      let parts := p :: ps in
      let* imagePart := findImagePart parts in
      match imagePart with
      | VUndefined =>
          let* textPart := findTextPart parts in
          match get "text" textPart with
          | VString (String c t) =>
              Throw (Error "Error"
                       ("Gemini returned text only: " +:+ JsString.take 220 (String c t))
                       VUndefined)
          | _ => Throw (Error "Error" "Gemini returned no image part." VUndefined)
          end
      | _ =>
          let inline := orElse (get "inlineData" imagePart) (get "inline_data" imagePart) in
          let mimeType :=
            orElse (orElse (get "mimeType" inline) (get "mime_type" inline))
                   (VString "image/png") in
          let base64Data := get "data" inline in
          if negb (truthy base64Data) then
            Throw (Error "Error" "Gemini image part missing base64 data." VUndefined)
          else
            let* isJpeg := includesText mimeType "jpeg" in
            let* isJpg := if isJpeg : bool then Ok true else includesText mimeType "jpg" in
            let* outputExtension :=
              if isJpg : bool then Ok "jpg"
              else let* isWebp := includesText mimeType "webp" in
                   Ok (if isWebp : bool then "webp" else "png") in
            let* outputBuffer := bufferFrom env base64Data in
            Ok (VObject [("outputBuffer", outputBuffer);
                         ("outputMimeType", mimeType);
                         ("outputExtension", VString outputExtension)])
      end
  | _ => Throw (Error "Error" "Gemini returned no candidates/content parts." VUndefined)
  end.

Definition buildWorkflowGraph (env : Env) (contract : Contract) : Result Value :=
  let* promptIndexing :=
    Shared.extractPromptIndexing (VString (prompt contract)) (length (sources contract)) in
  Ok (VObject
        [("name", VString "MEIE-DualTrack-Gemini");
         ("version", VString "0.2.0");
         ("model", orElse (model contract) (DEFAULT_MODEL env));
         ("promptIndexing", promptIndexing);
         ("nodes",
          VArray
            [VObject [("id", VString "reference");
                      ("role", VString "REFERENCE");
                      ("engineNode", VString "composition_constraint");
                      ("weight", VNumber (ref_weight (reference contract)))];
             VObject [("id", VString "feature-track");
                      ("role", VString "TRACK_B");
                      ("engineNode", VString "multi_source_feature_fusion");
                      ("sources",
                       VArray
                         (imapFrom
                            (fun source index =>
                               VObject [("id", VString ("source-" +:+ JsString.ofNat index));
                                        ("featureType", VString (src_featureType source));
                                        ("weight", VNumber (src_weight source))])
                            0%nat (sources contract)))];
             VObject [("id", VString "gemini-generate");
                      ("role", VString "MERGE");
                      ("engineNode", VString "generateContent");
                      ("prompt", VString (prompt contract))]])]).

(** [items.join(sep)] *)
Fixpoint joinValues (sep : string) (items : list Value) : Result string :=
  let element (v : Value) : Result string :=
    match v with
    | VUndefined | VNull => Ok EmptyString
    | _ => toString v
    end in
  match items with
  | [] => Ok EmptyString
  | [v] => element v
  | v :: r =>
      let* s := element v in
      let* t := joinValues sep r in
      Ok (s +:+ sep +:+ t)
  end.

Definition hexDigit (n : Z) : ascii :=
  if n <? 10 then JsString.of_code (48 + n) else JsString.of_code (55 + n).

Definition percentByte (n : Z) : string :=
  String "%" (String (hexDigit (n / 16)) (String (hexDigit (n mod 16)) EmptyString)).

Definition isUriUnreserved (c : ascii) : bool :=
  let n := JsString.code c in
  ((65 <=? n) && (n <=? 90)) || ((97 <=? n) && (n <=? 122)) || ((48 <=? n) && (n <=? 57))
  || existsb (Ascii.eqb c) (list_ascii_of_string "-_.!~*'()").

(** [encodeURIComponent(s)]: a code unit from 128 up is written as the two
    bytes of its UTF-8 encoding.  The function is total on the strings of
    the embedding, whose code units are below 256: the [URIError] of the
    host function needs a lone surrogate, a code unit from D800 up, which no
    string here holds. *)
Fixpoint encodeURIComponent (s : string) : string :=
  match s with
  | EmptyString => EmptyString
  | String c r =>
      let n := JsString.code c in
      (if isUriUnreserved c then String c EmptyString
       else if n <? 128 then percentByte n
       else percentByte (192 + n / 64) +:+ percentByte (128 + n mod 64))
      +:+ encodeURIComponent r
  end.

(** The stage objects handed to [options.onStage]. *)
Definition stage (name : string) (progress : number) : Value :=
  VObject [("stage", VString name); ("progress", VNumber progress)].

Definition stageReference : Value :=
  stage "REFERENCE_PREPROCESS" (JsNumber.ofDecimal false 2 (-1)).
Definition stageSources : Value :=
  stage "SOURCE_FEATURE_EXTRACTION" (JsNumber.ofDecimal false 45 (-2)).
Definition stageSampling : Value :=
  stage "DIFFUSION_SAMPLING" (JsNumber.ofDecimal false 75 (-2)).
Definition stageRender : Value := stage "OUTPUT_RENDER" (JsNumber.ofZ 1).

(** The warnings collected from the prompt indexing of the graph. *)
Definition collectWarnings (workflowGraph : Value) : Result (list Value) :=
  match get "outOfRange" (get "promptIndexing" workflowGraph) with
  | VArray (i :: r) =>
      let* joined := joinValues ", " (i :: r) in
      Ok [VString ("Prompt references out-of-range source indexes: " +:+ joined)]
  | _ => Ok []
  end.

(** The source images, resolved one after the other in array order. *)
Fixpoint resolveSources (env : Env) (l : list Source) : Result (list Value) :=
  match l with
  | [] => Ok []
  | source :: r =>
      let* data := imageRefToInlineData env (src_imageRef source) in
      let* rest := resolveSources env r in
      Ok (data :: rest)
  end.

Definition userPrompt (contract : Contract) : string :=
  JsString.join newline
    (List.filter (fun line => negb (JsString.isEmpty line))
       (["Task ID: " +:+ taskId contract;
         "Reference weight: " +:+ JsNumber.toFixed (ref_weight (reference contract)) 2]
        ++ imapFrom
             (fun source index =>
                "Source " +:+ JsString.ofNat index +:+ " -> featureType="
                +:+ src_featureType source +:+ ", weight="
                +:+ JsNumber.toFixed (src_weight source) 2)
             0%nat (sources contract)
        ++ ["";
            "User prompt: " +:+ prompt contract;
            if JsString.isEmpty (negativePrompt contract) then EmptyString
            else "Negative prompt: " +:+ negativePrompt contract])%list).

(** The [parts] of the single user turn. *)
Definition buildParts (contract : Contract) (referenceInlineData : Value)
    (sourceInlineDataList : list Value) : list Value :=
  ([VObject [("text",
              VString (JsString.join newline
                         ["Reference image below is composition anchor.";
                          "Apply source image features with weighted fusion.";
                          "";
                          userPrompt contract]))];
    VObject [("inline_data", referenceInlineData)]]
   ++ imapFrom
        (fun (_ : Value) index =>
           VObject [("text", VString ("Source " +:+ JsString.ofNat index +:+ " image"))])
        0%nat sourceInlineDataList
   ++ map (fun data => VObject [("inline_data", data)]) sourceInlineDataList)%list.

Definition buildRequestBody (contract : Contract) (referenceInlineData : Value)
    (sourceInlineDataList : list Value) : Value :=
  VObject
    [("system_instruction",
      VObject [("parts", VArray [VObject [("text", VString (createSystemPrompt contract))]])]);
     ("contents",
      VArray [VObject [("role", VString "user");
                       ("parts",
                        VArray (buildParts contract referenceInlineData
                                           sourceInlineDataList))]]);
     ("generationConfig",
      VObject [("responseModalities", VArray [VString "IMAGE"; VString "TEXT"])])].

Definition buildEndpoint (env : Env) (targetModel : Value) : Result string :=
  let* base := toString (DEFAULT_BASE_URL env) in
  let* name := toString targetModel in
  Ok (base +:+ "/models/" +:+ encodeURIComponent name +:+ ":generateContent").

Definition providerError (message : string) : JsError :=
  Error "Error" message (VString "GEMINI_API_ERROR").

(** The provider call and the checks on its response, up to the parsed JSON
    of a successful answer.  The [details] attached to the two provider
    errors are not part of [JsError]: nothing in the program reads them. *)
Definition generateContent (env : Env) (targetModel : Value) (requestBody : Value)
  : Result Value :=
  let* endpoint := buildEndpoint env targetModel in
  let* response := callProvider env endpoint requestBody in
  let resultJson :=
    if JsString.isEmpty (provider_text response) then VNull else provider_json response in
  if negb (provider_ok response) then
    let* message :=
      toString
        (orElse (get "message" (get "error" resultJson))
                (VString ("Gemini API request failed with status "
                          +:+ JsString.ofZ (provider_status response) +:+ "."))) in
    Throw (providerError message)
  else if negb (truthy resultJson) then
    Throw (providerError "Gemini returned non-JSON success response.")
  else Ok resultJson.

(** What [runDualTrackGeneration] has computed when it is about to call the
    provider. *)
Record Prepared : Type := {
  targetModel : Value;
  workflowGraph : Value;
  warnings : list Value;
  requestBody : Value
}.

(** [runDualTrackGeneration], from its entry to the assembled request: the
    stages reported to [onStage] so far, in order, and either the exception
    that ended the run or what has been prepared. *)
Definition prepareRequest (env : Env) (contract : Contract)
  : list Value * Result Prepared :=
  if negb (truthy (GEMINI_API_KEY env)) then
    ([], Throw (Error "Error" "Missing GEMINI_API_KEY environment variable." VUndefined))
  else
    let target := orElse (model contract) (DEFAULT_MODEL env) in
    match (let* graph := buildWorkflowGraph env (withModel contract target) in
           let* notes := collectWarnings graph in
           Ok (graph, notes)) with
    | Throw e => ([], Throw e)
    | Ok (graph, notes) =>
        match imageRefToInlineData env (ref_imageRef (reference contract)) with
        | Throw e => ([stageReference], Throw e)
        | Ok referenceInlineData =>
            match resolveSources env (sources contract) with
            | Throw e => ([stageReference; stageSources], Throw e)
            | Ok sourceInlineDataList =>
                ([stageReference; stageSources; stageSampling],
                 Ok {| targetModel := target;
                       workflowGraph := graph;
                       warnings := notes;
                       requestBody :=
                         buildRequestBody contract referenceInlineData
                                          sourceInlineDataList |})
            end
        end
    end.

(** [runDualTrackGeneration(contract, { onStage })]: the stages reported to
    [onStage], in order, and how the returned promise settles. *)
Definition runDualTrackGeneration (env : Env) (contract : Contract)
  : list Value * Result Value :=
  match prepareRequest env contract with
  | (stages, Throw e) => (stages, Throw e)
  | (stages, Ok prepared) =>
      match generateContent env (targetModel prepared) (requestBody prepared) with
      | Throw e => (stages, Throw e)
      | Ok resultJson =>
          ((stages ++ [stageRender])%list,
           let* output := extractOutputImage env resultJson in
           Ok (VObject [("workflowGraph", workflowGraph prepared);
                        ("warnings", VArray (warnings prepared));
                        ("outputBuffer", get "outputBuffer" output);
                        ("outputMimeType", get "outputMimeType" output);
                        ("outputExtension", get "outputExtension" output)]))
      end
  end.

(** The request body that [runDualTrackGeneration] posts to the provider,
    when the run gets as far as posting one. *)
Definition providerRequest (env : Env) (contract : Contract) : Result Value :=
  let* prepared := snd (prepareRequest env contract) in
  Ok (requestBody prepared).

(** [text.replace(/\s+/g, " ")]: every maximal run of white space becomes
    one space.  [inRun] tells that the code unit before was white space. *)
Fixpoint collapseWhiteSpace (inRun : bool) (s : string) : string :=
  match s with
  | EmptyString => EmptyString
  | String c r =>
      if JsString.isWhiteSpace c then
        if inRun then collapseWhiteSpace true r
        else String " " (collapseWhiteSpace true r)
      else String c (collapseWhiteSpace false r)
  end.

(** [s.slice(0, to)] for an integer [to]: a negative [to] counts from the
    end. *)
Definition sliceTo (s : string) (to : Z) : string :=
  let len := Z.of_nat (String.length s) in
  let final := if to <? 0 then Z.max (len + to) 0 else Z.min to len in
  JsString.take (Z.to_nat final) s.

(** [summarizeText(text, maxLength)]; its callers leave [maxLength] to its
    default, 420. *)
Definition summarizeText (text : Value) (maxLength : Z) : string :=
  match text with
  | VString t =>
      let normalized := JsString.trim (collapseWhiteSpace false t) in
      if Z.of_nat (String.length normalized) <=? maxLength then normalized
      else sliceTo normalized (maxLength - 3) +:+ "..."
  | _ => EmptyString
  end.

End Engine.

(* --------------------------------------------------------------------- *)
(** ** packages/server/src/index.js                                       *)
(* --------------------------------------------------------------------- *)

Module Server.

Import JsValue.

(** What [sendJson(res, statusCode, body)] sends. *)
Record Response : Type := {
  statusCode : Z;
  body : Value
}.

(** One invocation of [runTask], between two of its suspension points:
    entered and not yet run; inside [runDualTrackGeneration], with the stages
    still to be reported and the way the promise will settle; returned. *)
Inductive RunPhase : Type :=
  | Starting
  | Reporting (stages : list Value) (outcome : Result Value)
  | Finished.

Record Run : Type := {
  run_taskId : string;
  run_phase : RunPhase
}.

(** The module-level state: the [tasks] map, the [sseClients] map (a client
    is named by a number, the set of a task is the list of its clients in
    insertion order), the events written to the event streams with
    [writeSseEvent] (oldest first: client, event name, data), the pending
    eviction timers, and the invocations of [runTask] in the order they were
    started.  The log holds events only: the [retry: 2500] line that opens a
    stream and the [: keep-alive] comment lines of its interval timer are
    not events and are not recorded. *)
Record ServerState : Type := {
  tasks : gmap string Value;
  sseClients : gmap string (list nat);
  sseLog : list (nat * string * Value);
  timers : list string;
  runs : list Run
}.

Definition initialState : ServerState :=
  {| tasks := ∅; sseClients := ∅; sseLog := []; timers := []; runs := [] |}.

Definition setTasks (m : gmap string Value) (st : ServerState) : ServerState :=
  {| tasks := m; sseClients := sseClients st; sseLog := sseLog st;
     timers := timers st; runs := runs st |}.

Definition setClients (m : gmap string (list nat)) (st : ServerState) : ServerState :=
  {| tasks := tasks st; sseClients := m; sseLog := sseLog st;
     timers := timers st; runs := runs st |}.

Definition setLog (l : list (nat * string * Value)) (st : ServerState) : ServerState :=
  {| tasks := tasks st; sseClients := sseClients st; sseLog := l;
     timers := timers st; runs := runs st |}.

Definition setTimers (l : list string) (st : ServerState) : ServerState :=
  {| tasks := tasks st; sseClients := sseClients st; sseLog := sseLog st;
     timers := l; runs := runs st |}.

Definition setRuns (l : list Run) (st : ServerState) : ServerState :=
  {| tasks := tasks st; sseClients := sseClients st; sseLog := sseLog st;
     timers := timers st; runs := l |}.

Definition toTaskView (task : Value) (now : string) : Result Value :=
  let* response := Shared.createStatusResponse task now in
  Ok (VObject
        (spread (ownProps response)
                [("workflowGraph", coalesce (get "workflowGraph" task) VNull);
                 ("progress", coalesce (get "progress" task) VNull)])).

(** [writeSseEvent] for every client of the task; [JSON.stringify] of the
    payload is left to the reader of the log. *)
Definition broadcastTaskEvent (taskId event : string) (payload : Value)
    (st : ServerState) : ServerState :=
  match sseClients st !! taskId with
  | None => st
  | Some clients =>
      setLog (sseLog st ++ map (fun client => (client, event, payload)) clients)%list st
  end.

(** [updateTask(taskId, patch)]: the state after the call and what the call
    returns ([null] when the task is unknown) or throws. *)
Definition updateTask (taskId : string) (patch : list (string * Value)) (now : string)
    (st : ServerState) : ServerState * Result Value :=
  match tasks st !! taskId with
  | None => (st, Ok VNull)
  | Some prev =>
      let next :=
        VObject (assign "updatedAt" (VString now) (spread (ownProps prev) patch)) in
      let st1 := setTasks (<[taskId := next]> (tasks st)) st in
      match toTaskView next now with
      | Throw e => (st1, Throw e)
      | Ok view => (broadcastTaskEvent taskId "status" view st1, Ok next)
      end
  end.

Definition createTaskRecord (contract : Value) (now : string) : Value :=
  VObject [("taskId", get "taskId" contract);
           ("contract", contract);
           ("status", VString "QUEUED");
           ("outputUrl", VNull);
           ("errorCode", VNull);
           ("message", VNull);
           ("warnings", VArray []);
           ("workflowGraph", VNull);
           ("progress", VNull);
           ("updatedAt", VString now)].

(** The key of a task in the map: the [taskId] of a validated contract is a
    string. *)
Definition keyOf (taskId : Value) : string :=
  match taskId with
  | VString s => s
  | _ => EmptyString
  end.

Definition processingPatch : list (string * Value) :=
  [("status", VString "PROCESSING");
   ("errorCode", VNull);
   ("message", VNull);
   ("outputUrl", VNull);
   ("progress", Engine.stage "QUEUED" JsNumber.zero)].

Definition successPatch (filename : string) (result : Value) : list (string * Value) :=
  [("status", VString "SUCCESS");
   ("outputUrl", VString ("/outputs/" +:+ filename));
   ("errorCode", VNull);
   ("message",
    match get "warnings" result with
    | VArray (_ :: _) => VString "completed_with_warnings"
    | _ => VNull
    end);
   ("warnings", get "warnings" result);
   ("workflowGraph", get "workflowGraph" result);
   ("progress", Engine.stage "DONE" (JsNumber.ofZ 1))].

Definition failedPatch (error : JsError) : list (string * Value) :=
  let details := Shared.serializeError error in
  [("status", VString "FAILED");
   ("outputUrl", VNull);
   ("errorCode", get "code" details);
   ("message", get "message" details)].

Definition setPhase (i : nat) (taskId : string) (phase : RunPhase) (st : ServerState)
  : ServerState :=
  setRuns (<[i := {| run_taskId := taskId; run_phase := phase |}]> (runs st)) st.

(** The [catch] block of [runTask]; an exception of this last [updateTask]
    is an unhandled rejection and changes nothing more. *)
Definition failTask (taskId : string) (error : JsError) (now : string) (st : ServerState)
  : ServerState :=
  fst (updateTask taskId (failedPatch error) now st).

(** The engine run of a stored contract.  A stored contract is an object
    written by [validateGenerationContract]; on any other value the property
    reads of the engine fail with a [TypeError]. *)
Definition runEngine (env : Env) (contract : Value) : list Value * Result Value :=
  match Engine.decodeContract contract with
  | Some c => Engine.runDualTrackGeneration env c
  | None => ([], Throw (Error "TypeError" "Cannot read properties of undefined" VUndefined))
  end.

(** [runTask(taskId)], one stretch between two suspension points at a time. *)
Definition runTaskStep (env : Env) (i : nat) (now : string) (st : ServerState)
  : ServerState :=
  match runs st !! i with
  | None => st
  | Some run =>
      let taskId := run_taskId run in
      match run_phase run with
      | Finished => st
      | Starting =>
          match tasks st !! taskId with
          | None => setPhase i taskId Finished st
          | Some task =>
              match updateTask taskId processingPatch now st with
              | (st1, Throw _) => setPhase i taskId Finished st1
              | (st1, Ok _) =>
                  let '(stages, outcome) := runEngine env (get "contract" task) in
                  setPhase i taskId (Reporting stages outcome) st1
              end
          end
      | Reporting (stage :: rest) outcome =>
          match updateTask taskId [("progress", stage)] now st with
          | (st1, Throw e) => setPhase i taskId Finished (failTask taskId e now st1)
          | (st1, Ok _) => setPhase i taskId (Reporting rest outcome) st1
          end
      | Reporting [] (Throw e) => setPhase i taskId Finished (failTask taskId e now st)
      | Reporting [] (Ok result) =>
          match toString (get "outputExtension" result) with
          | Throw e => setPhase i taskId Finished (failTask taskId e now st)
          | Ok extension =>
              let filename := taskId +:+ "." +:+ extension in
              match writeFile env filename (get "outputBuffer" result) with
              | Throw e => setPhase i taskId Finished (failTask taskId e now st)
              | Ok _ =>
                  match updateTask taskId (successPatch filename result) now st with
                  | (st1, Throw e) => setPhase i taskId Finished (failTask taskId e now st1)
                  | (st1, Ok _) => setPhase i taskId Finished st1
                  end
              end
          end
      end
  end.

Definition errorResponse (error : JsError) : Response :=
  match error with
  | HttpError status message code =>
      {| statusCode := status;
         body := VObject [("error", VObject [("code", VString code);
                                             ("message", VString message)])] |}
  | ContractValidationError _ _ _ =>
      {| statusCode := 400; body := VObject [("error", Shared.serializeError error)] |}
  | Error _ _ _ =>
      {| statusCode := 500; body := VObject [("error", Shared.serializeError error)] |}
  end.

(** [POST /api/tasks] with the parsed JSON [body]: the response and the
    state it leaves.  The run it starts is appended in phase [Starting]. *)
Definition postTask (body : Value) (now : string) (st : ServerState)
  : Response * ServerState :=
  match Shared.validateGenerationContract body with
  | Throw e => (errorResponse e, st)
  | Ok contract =>
      let taskId := keyOf (get "taskId" contract) in
      match tasks st !! taskId with
      | Some _ =>
          (errorResponse (HttpError 409 ("taskId " +:+ taskId +:+ " already exists")
                                    "TASK_EXISTS"), st)
      | None =>
          let record := createTaskRecord contract now in
          let st1 :=
            setTimers (timers st ++ [taskId])%list
                      (setTasks (<[taskId := record]> (tasks st)) st) in
          match toTaskView record now with
          | Throw e => (errorResponse e, st1)
          | Ok view =>
              ({| statusCode := 202;
                  body :=
                    VObject
                      (spread (ownProps view)
                         [("statusUrl",
                           VString ("/api/tasks/" +:+ Engine.encodeURIComponent taskId));
                          ("streamUrl",
                           VString ("/api/tasks/" +:+ Engine.encodeURIComponent taskId
                                    +:+ "/events"))]) |},
               setRuns (runs st1 ++ [{| run_taskId := taskId; run_phase := Starting |}])%list st1)
          end
      end
  end.

(** Removal of the first occurrence. *)
Fixpoint removeFirst {A : Type} (eqb : A -> A -> bool) (x : A) (l : list A) : list A :=
  match l with
  | [] => []
  | y :: r => if eqb x y then r else y :: removeFirst eqb x r
  end.

(** The retention timer of a task fires: [tasks.delete(taskId)]. *)
Definition evict (taskId : string) (st : ServerState) : ServerState :=
  if existsb (String.eqb taskId) (timers st) then
    setTimers (removeFirst String.eqb taskId (timers st))
              (setTasks (delete taskId (tasks st)) st)
  else st.

(** [GET /api/tasks/:taskId/events]: the current snapshot is written to the
    new client with [writeSseEvent], and the client then joins the clients
    of the task.  The response head, the [retry: 2500] line written before
    the snapshot and the keep-alive interval of the client are outside the
    model: none of them is an event. *)
Definition subscribe (taskId : string) (client : nat) (now : string) (st : ServerState)
  : ServerState :=
  match tasks st !! taskId with
  | None => st
  | Some task =>
      match toTaskView task now with
      | Throw _ => st
      | Ok view =>
          let clients := default [] (sseClients st !! taskId) in
          setClients (<[taskId := (clients ++ [client])%list]> (sseClients st))
                     (setLog (sseLog st ++ [(client, "status", view)])%list st)
      end
  end.

(** The [close] handler of an event stream. *)
Definition unsubscribe (taskId : string) (client : nat) (st : ServerState) : ServerState :=
  match sseClients st !! taskId with
  | None => st
  | Some entries =>
      match removeFirst Nat.eqb client entries with
      | [] => setClients (delete taskId (sseClients st)) st
      | rest => setClients (<[taskId := rest]> (sseClients st)) st
      end
  end.

(** What can happen to the server, one event at a time. *)
Inductive Event : Type :=
  | PostTask (body : Value) (now : string)
  | RunStep (i : nat) (now : string)
  | Evict (taskId : string)
  | Subscribe (taskId : string) (client : nat) (now : string)
  | Unsubscribe (taskId : string) (client : nat).

Definition step (env : Env) (ev : Event) (st : ServerState) : ServerState :=
  match ev with
  | PostTask body now => snd (postTask body now st)
  | RunStep i now => runTaskStep env i now st
  | Evict taskId => evict taskId st
  | Subscribe taskId client now => subscribe taskId client now st
  | Unsubscribe taskId client => unsubscribe taskId client st
  end.

Definition exec (env : Env) (evs : list Event) (st : ServerState) : ServerState :=
  fold_left (fun s ev => step env ev s) evs st.


End Server.

(* --------------------------------------------------------------------- *)
(** ** Notions used to state the properties                               *)
(* --------------------------------------------------------------------- *)

Module Spec.

Import JsValue.

(** The [code] of a thrown error; the [name] for an error without one. *)
Definition errorCode (e : JsError) : string :=
  match e with
  | ContractValidationError code _ _ => code
  | HttpError _ _ code => code
  | Error name _ _ => name
  end.

(** A result that is a [throw] of an error with this code. *)
Definition failsWith {A : Type} (r : Result A) (code : string) : Prop :=
  exists e, r = Throw e /\ errorCode e = code.

(** A result that is a [throw] of a [ContractValidationError]. *)
Definition isContractValidationError {A : Type} (r : Result A) : bool :=
  match r with
  | Throw (ContractValidationError _ _ _) => true
  | _ => false
  end.

(** [x] lies in the closed interval from 0 to 1. *)
Definition inUnitInterval (x : number) : bool :=
  JsNumber.leb JsNumber.zero x && JsNumber.leb x (JsNumber.ofZ 1).

(** [x] rounded to 4 decimal places: the number nearest to [n / 10^4], where
    [n] is the integer nearest to [x * 10^4], the larger one on a tie. *)
Definition round4 (x : number) : number :=
  JsNumber.ofDecimal false (JsNumber.roundScaled x 4) (-4).

(** The elements of an array; none for any other value. *)
Definition arrayItems (v : Value) : list Value :=
  match v with
  | VArray items => items
  | _ => []
  end.

(** A string that [Number] reads as a number. *)
Definition isNumericString (s : string) : bool :=
  negb (JsNumber.isNaN (JsNumber.ofString s)).

End Spec.

(* --------------------------------------------------------------------- *)
(** ** Exhaustive checks over finite ranges                               *)
(* --------------------------------------------------------------------- *)

(** [f] holds of the [count] integers from [start] on. *)
Fixpoint forallZ (count : nat) (start : Z) (f : Z -> bool) : bool :=
  match count with
  | O => true
  | S k => f start && forallZ k (start + 1) f
  end.

(** For each [n] from 0 to 10000, with [y] the number nearest to
    [n / 10^4]: reading the four-decimal numeral of [n] gives [y]; [y] is
    finite and lies between 0 and 1; and [y] rounds back to [n]. *)
Definition weightTable : bool :=
  forallZ (Z.to_nat 10001) 0
    (fun n =>
       let y := JsNumber.ofDecimal false n (-4) in
       JsNumber.eqb (JsNumber.ofString (JsNumber.layoutFixed n 4)) y
       && JsNumber.isFinite y
       && negb (JsNumber.ltb y JsNumber.zero)
       && negb (JsNumber.gtb y (JsNumber.ofZ 1))
       && (JsNumber.roundScaled y 4 =? n)).

(* --------------------------------------------------------------------- *)
(** ** Sample inputs                                                      *)
(* --------------------------------------------------------------------- *)

Module Examples.

Definition num (s : string) : Value := VNumber (JsNumber.ofString s).

Definition source (imageRef featureType : string) (weight : Value) : Value :=
  VObject [("imageRef", VString imageRef);
           ("featureType", VString featureType);
           ("weight", weight)].

Definition reference (imageRef : string) (weight : Value) : Value :=
  VObject [("imageRef", VString imageRef); ("weight", weight)].

(** The contract of [scripts/check.js], with a lower-case feature type, a
    weight given as a string and blanks around the task id. *)
Definition demoBody : Value :=
  VObject
    [("taskId", VString " demo_check_task ");
     ("prompt",
      VString "Use [Reference] pose with [Source 0] texture and [Source 1] accessories");
     ("negativePrompt", VString "blurry, low quality");
     ("reference", reference "https://example.com/reference.png" (num "0.9"));
     ("sources",
      VArray [source "https://example.com/source-style.png" "style" (VString "0.75");
              source "https://example.com/source-component.png" "COMPONENT" (num "0.65")])].

(** A body whose reference weight is the JSON object [{"toString": 1}]. *)
Definition objectWeightBody : Value :=
  VObject
    [("taskId", VString "t1");
     ("prompt", VString "p");
     ("reference",
      reference "data:image/png;base64,AAAA"
                (VObject [("toString", VNumber (JsNumber.ofZ 1))]));
     ("sources", VArray [source "data:image/png;base64,AAAA" "STYLE" (num "0.5")])].

(** A body with an explicit model. *)
Definition modelBody : Value :=
  VObject
    [("taskId", VString "t1");
     ("prompt", VString "Blend [Source 0] into [Reference]");
     ("model", VString "custom-model");
     ("reference", reference "https://slow.example/reference.png" (num "0.9"));
     ("sources",
      VArray [source "data:image/png;base64,AAAA" "STYLE" (num "0.75");
              source "data:image/png;base64,BBBB" "FACE" (num "0.5")])].

(** The contract object of [modelBody] as the engine reads it after
    validation. *)
Definition modelContract : Engine.Contract :=
  {| Engine.taskId := "t1";
     Engine.prompt := "Blend [Source 0] into [Reference]";
     Engine.negativePrompt := "";
     Engine.model := VUndefined;
     Engine.reference :=
       {| Engine.ref_imageRef := "https://slow.example/reference.png";
          Engine.ref_weight := JsNumber.ofDecimal false 9 (-1) |};
     Engine.sources :=
       [{| Engine.src_imageRef := "data:image/png;base64,AAAA";
           Engine.src_featureType := "STYLE";
           Engine.src_weight := JsNumber.ofDecimal false 75 (-2) |};
        {| Engine.src_imageRef := "data:image/png;base64,BBBB";
           Engine.src_featureType := "FACE";
           Engine.src_weight := JsNumber.ofDecimal false 5 (-1) |}] |}.

(** A body under the same task id whose reference cannot be resolved. *)
Definition unsupportedBody : Value :=
  VObject
    [("taskId", VString "t1");
     ("prompt", VString "p");
     ("reference", reference "ftp://x" (num "0.9"));
     ("sources", VArray [source "data:image/png;base64,AAAA" "STYLE" (num "0.75")])].

(** A world with an API key in which every download succeeds, the provider
    answers with one inline PNG part, and the output file can be written. *)
Definition env : Env :=
  {| GEMINI_API_KEY := VString "key";
     GEMINI_MODEL := VUndefined;
     GEMINI_API_BASE_URL := VUndefined;
     fetchImage := fun _ =>
       Ok {| fetch_ok := true; fetch_status := 200;
             fetch_contentType := Some "image/png"; fetch_body := "UkVG" |};
     callProvider := fun _ _ =>
       Ok {| provider_ok := true; provider_status := 200;
             provider_statusText := "OK"; provider_requestId := VNull;
             provider_text := "{}";
             provider_json :=
               VObject
                 [("candidates",
                   VArray
                     [VObject
                        [("content",
                          VObject
                            [("parts",
                              VArray
                                [VObject
                                   [("inlineData",
                                     VObject [("mimeType", VString "image/png");
                                              ("data", VString "T1VU")])]])])]])] |};
     bufferFrom := fun data => Ok data;
     writeFile := fun _ _ => Ok tt |}.

(** An answer of the provider with a text part and a JPEG image part. *)
Definition jpegAnswer : Value :=
  VObject
    [("candidates",
      VArray
        [VObject
           [("content",
             VObject
               [("parts",
                 VArray
                   [VObject [("text", VString "here it is")];
                    VObject
                      [("inline_data",
                        VObject [("mime_type", VString "image/jpeg");
                                 ("data", VString "T1VU")])]])])]])].

(** A body whose task id has a slash. *)
Definition slashBody : Value :=
  VObject
    [("taskId", VString "a/b");
     ("prompt", VString "p");
     ("reference", reference "data:image/png;base64,AAAA" (num "0.9"));
     ("sources", VArray [source "data:image/png;base64,AAAA" "STYLE" (num "0.75")])].

(** A task record with blanks to normalize. *)
Definition sampleTask : Value :=
  VObject [("taskId", VString "t1"); ("status", VString "success");
           ("outputUrl", VString " /outputs/t1.png ");
           ("errorCode", VString "  ");
           ("warnings", VArray [VString "w"; VString " "; VNull])].

End Examples.

(* --------------------------------------------------------------------- *)
(** ** The field order of contract validation, as the specification words it *)
(* --------------------------------------------------------------------- *)

Module FieldOrder.

Import JsValue.





End FieldOrder.

(* --------------------------------------------------------------------- *)
(** ** The life of a task, as the specification words it                  *)
(* --------------------------------------------------------------------- *)

Module Lifecycle.

Import JsValue Server.


(** An invocation of [runTask] that has not returned. *)
Definition isLive (r : Run) : bool :=
  match run_phase r with
  | Finished => false
  | _ => true
  end.

(** No invocation of [runTask] for this task id is still under way. *)
Definition noRunInFlight (taskId : string) (st : ServerState) : bool :=
  forallb (fun r => negb (isLive r && String.eqb (run_taskId r) taskId)) (runs st).

(** The event does not create a task under an id for which a run started
    for an earlier task is still in flight.  Only a request that is accepted
    and whose id is free creates a task: a request that is rejected, or
    refused because its id is taken, creates none and is always allowed. *)
Definition freshPost (ev : Event) (st : ServerState) : bool :=
  match ev with
  | PostTask body _ =>
      match Shared.validateGenerationContract body with
      | Ok contract =>
          let taskId := keyOf (get "taskId" contract) in
          match tasks st !! taskId with
          | Some _ => true
          | None => noRunInFlight taskId st
          end
      | Throw _ => true
      end
  | _ => true
  end.

(** Every event of the sequence is a [freshPost] in the state it meets. *)
Fixpoint freshPosts (env : Env) (evs : list Event) (st : ServerState) : bool :=
  match evs with
  | [] => true
  | ev :: rest => freshPost ev st && freshPosts env rest (step env ev st)
  end.


(** A first task "t1" whose run is still waiting for its reference image
    when the retention timer evicts it; a second task under the same id
    that fails at once; and then the first run, which goes on. *)
Definition staleRun : list Event :=
  [PostTask Examples.modelBody "T0"; RunStep 0 "T0"; RunStep 0 "T0";
   Evict "t1";
   PostTask Examples.unsupportedBody "T1"; RunStep 1 "T1"; RunStep 1 "T1";
   RunStep 1 "T1";
   RunStep 0 "T2"; RunStep 0 "T2"; RunStep 0 "T2"].

(** One task "t1" from its creation to the last stage that its run reports,
    submitted a second time while its run is under way. *)
Definition resubmittedRun : list Event :=
  [PostTask Examples.modelBody "T0"; RunStep 0 "T0";
   PostTask Examples.modelBody "T1"; RunStep 0 "T1";
   RunStep 0 "T1"; RunStep 0 "T1"; RunStep 0 "T1"].

(** One task "t1" from its creation to the last stage that its run reports. *)
Definition singleRun : list Event :=
  [PostTask Examples.modelBody "T0"; RunStep 0 "T0"; RunStep 0 "T0";
   RunStep 0 "T1"; RunStep 0 "T1"; RunStep 0 "T1"].

End Lifecycle.

(* --------------------------------------------------------------------- *)
(** ** Invariants of the task store                                       *)
(* --------------------------------------------------------------------- *)

Module Invariant.

Import JsValue Server Lifecycle.

(** The record that [updateTask] stores: [{...prev, ...patch, updatedAt}]. *)
Definition nextTask (prev : Value) (patch : list (string * Value)) (now : string) : Value :=
  VObject (assign "updatedAt" (VString now) (spread (ownProps prev) patch)).

Definition statusValues : list Value :=
  map VString Shared.TASK_STATUSES.

(** A task record that has a view: an object with a task id that is a
    string and not blank, and with one of the four statuses. *)
Definition wfTask (task : Value) : Prop :=
  Shared.isRecord task = true
  /\ (exists s, get "taskId" task = VString s
                /\ JsString.isEmpty (JsString.trim s) = false)
  /\ In (get "status" task) statusValues.

(** A patch that leaves the task id and the contract alone and sets, if
    anything, one of the four statuses. *)
Definition goodPatch (patch : list (string * Value)) : Prop :=
  lookup "taskId" (rev patch) = None
  /\ lookup "contract" (rev patch) = None
  /\ match lookup "status" (rev patch) with
     | Some v => In v statusValues
     | None => True
     end.



End Invariant.

(* --------------------------------------------------------------------- *)
(** ** Prompt markers, as the specification words them                    *)
(* --------------------------------------------------------------------- *)

Module Tokens.

Import JsString.

(** A letter A-Z as the letter a-z; any other code unit as it is. *)
Definition foldCase (c : ascii) : ascii :=
  let n := code c in
  if (65 <=? n) && (n <=? 90) then of_code (n + 32) else c.

Fixpoint lowerAscii (s : string) : string :=
  match s with
  | EmptyString => EmptyString
  | String c r => String (foldCase c) (lowerAscii r)
  end.

(** Every code unit of [s] satisfies [f]. *)
Fixpoint allOf (f : ascii -> bool) (s : string) : bool :=
  match s with
  | EmptyString => true
  | String c r => f c && allOf f r
  end.

(** [s] contains the marker [[Reference]], in any letter case. *)
Definition hasReferenceToken (s : string) : Prop :=
  exists pre tok post,
    s = pre +:+ tok +:+ post /\ lowerAscii tok = "[reference]".

(** [s] contains a marker [[Source k]], in any letter case, whose decimal
    numeral [k] is [ds]: the word, at least one blank, the digits and the
    closing bracket. *)
Definition hasSourceToken (ds s : string) : Prop :=
  exists pre tok ws post,
    s = pre +:+ tok +:+ ws +:+ ds +:+ "]" +:+ post
    /\ lowerAscii tok = "[source"
    /\ isEmpty ws = false /\ allOf isWhiteSpace ws = true
    /\ isEmpty ds = false /\ allOf isDigit ds = true.

(** A code unit other than the opening bracket. *)
Definition notOpen (c : ascii) : bool := negb (Ascii.eqb c "[").

(** A number that is a natural number or plus infinity. *)
Definition isNatural (x : number) : bool :=
  match x with
  | S754_infinity false => true
  | S754_zero false => true
  | S754_finite false _ _ => JsNumber.isInteger x
  | _ => false
  end.

Definition allAscii : list ascii := map ascii_of_nat (seq 0 256).

Definition patternChars : list ascii :=
  list_ascii_of_string "[Source[Reference]".

(** For every code unit [c]: the case-insensitive comparison of the regular
    expressions agrees with [foldCase] on the characters of the two
    patterns; [c] is not both a digit and white space; and if [c] is a
    digit, white space, the closing bracket, or a letter of the patterns
    other than the opening bracket, it is not an opening bracket, a sign or
    a letter of [Infinity] or of a radix prefix. *)
Definition charTable : bool :=
  forallb
    (fun c =>
       forallb (fun p => Bool.eqb (eqChar_i c p) (Ascii.eqb (foldCase c) (foldCase p)))
               patternChars
       && negb (isDigit c && isWhiteSpace c)
       && negb (isDigit c
                && existsb (Ascii.eqb c) (list_ascii_of_string "[]+-IxXoObB"))
       && negb (isWhiteSpace c && existsb (Ascii.eqb c) (list_ascii_of_string "[]")))
    allAscii.

End Tokens.

(* --------------------------------------------------------------------- *)
(** ** The alphabet and the blocks of [encodeURIComponent]                *)
(* --------------------------------------------------------------------- *)

Module Uri.

Import JsString Tokens.

(** What [encodeURIComponent] writes for one code unit. *)
Definition block (c : ascii) : string :=
  Engine.encodeURIComponent (String c EmptyString).

(** The characters of an encoded component: the unreserved ones and the
    percent sign. *)
Definition isSafe (c : ascii) : bool :=
  Engine.isUriUnreserved c || Ascii.eqb c "%".

(** A character that ends a path segment or starts a query or a fragment. *)
Definition isDelimiter (c : ascii) : bool :=
  existsb (Ascii.eqb c) (list_ascii_of_string "/?#").

(** [a] is a prefix of [b]. *)
Definition isPrefix (a b : string) : bool :=
  match stripPrefix a b with Some _ => true | None => false end.

(** Every block is made of safe characters, none of which is a delimiter,
    and is not empty. *)
Definition alphabetTable : bool :=
  forallb
    (fun c =>
       allOf isSafe (block c) && negb (isEmpty (block c))
       && negb (isSafe c && isDelimiter c))
    allAscii.

(** Every code unit with its block. *)
Definition blocks : list (ascii * string) := map (fun c => (c, block c)) allAscii.

(** Two entries of [blocks] for different code units: neither block starts
    with the other. *)
Definition apart (x y : ascii * string) : bool :=
  Ascii.eqb (fst x) (fst y)
  || negb (isPrefix (snd x) (snd y) || isPrefix (snd y) (snd x)).

End Uri.

(* --------------------------------------------------------------------- *)
(** ** What a step of the server leaves alone                             *)
(* --------------------------------------------------------------------- *)

Module Frame.

Import JsValue Server Invariant.

(** The task stored under an id before and after: there is one after
    exactly when there was one before, with the same task id and the same
    contract. *)
Definition sameTask (before after : option Value) : Prop :=
  match before, after with
  | Some t, Some t' =>
      get "taskId" t' = get "taskId" t /\ get "contract" t' = get "contract" t
  | None, None => True
  | _, _ => False
  end.



(** From [st] to [st']: the clients and the timers are the same, and no
    task is added or removed or gets another task id or contract. *)
Definition extends (st st' : ServerState) : Prop :=
  sseClients st' = sseClients st
  /\ timers st' = timers st
  /\ (forall id, sameTask (tasks st !! id) (tasks st' !! id)).

(** Every stored task has exactly one pending retention timer, and there is
    no other timer. *)
Definition timersMatch (st : ServerState) : Prop :=
  NoDup (timers st)
  /\ forall id, In id (timers st) <-> tasks st !! id <> None.

(** No task id is kept with an empty set of clients. *)
Definition clientsLive (st : ServerState) : Prop :=
  forall id clients, sseClients st !! id = Some clients -> clients <> [].

End Frame.

(* ===================================================================== *)
(** * Part II: properties                                                 *)
(* ===================================================================== *)

(** Inversion of a [let*] that returned. *)
Ltac bind_ok H :=
  match type of H with
  | bind ?r _ = Ok _ =>
      let E := fresh "E" in
      let x := fresh "x" in
      destruct r as [x|] eqn:E; cbn [bind] in H; [|discriminate H]
  end.

(* --------------------------------------------------------------------- *)
(** ** Strings                                                            *)
(* --------------------------------------------------------------------- *)

Section StringFacts.

Import JsString.

Lemma trimEnd_idempotent (s : string) : trimEnd (trimEnd s) = trimEnd s.
Proof.
  induction s as [|c r IH]; simpl; [reflexivity|].
  destruct (isWhiteSpace c && isEmpty (trimEnd r)) eqn:E; simpl; [reflexivity|].
  rewrite IH, E. reflexivity.
Qed.

Lemma trimStart_head (s : string) :
  trimStart s = EmptyString \/
  exists c r, trimStart s = String c r /\ isWhiteSpace c = false.
Proof.
  induction s as [|c r IH]; simpl; [left; reflexivity|].
  destruct (isWhiteSpace c) eqn:E; [exact IH|].
  right. exists c, r. split; [reflexivity|exact E].
Qed.

Lemma trimStart_trimEnd (s : string) :
  trimStart (trimEnd (trimStart s)) = trimEnd (trimStart s).
Proof.
  destruct (trimStart_head s) as [->|(c & r & -> & Hc)]; [reflexivity|].
  simpl. rewrite Hc. simpl. rewrite Hc. reflexivity.
Qed.

Lemma trim_idempotent (s : string) : trim (trim s) = trim s.
Proof.
  unfold trim. rewrite trimStart_trimEnd. apply trimEnd_idempotent.
Qed.

Lemma isEmpty_true (s : string) : isEmpty s = true -> s = EmptyString.
Proof. destruct s; [reflexivity|discriminate]. Qed.

End StringFacts.

(* --------------------------------------------------------------------- *)
(** ** Numbers and weights                                                *)
(* --------------------------------------------------------------------- *)

Lemma forallZ_spec (count : nat) (start : Z) (f : Z -> bool) :
  forallZ count start f = true ->
  forall z, start <= z < start + Z.of_nat count -> f z = true.
Proof.
  revert start. induction count as [|k IH]; intros start H z Hz; [lia|].
  simpl in H. apply andb_true_iff in H as [H0 H1].
  destruct (Z.eq_dec z start) as [->|Hne]; [exact H0|].
  apply (IH (start + 1) H1). lia.
Qed.

Section NumberFacts.
Import JsNumber.

Lemma den_pos (x : number) : 0 < den x.
Proof. destruct x; simpl; try lia. Qed.

Lemma eqb_eq (x y : number) : eqb x y = true -> x = y.
Proof.
  destruct x, y; simpl; try discriminate; intros H.
  - apply Bool.eqb_prop in H. now subst.
  - apply Bool.eqb_prop in H. now subst.
  - reflexivity.
  - apply andb_true_iff in H as [H He]. apply andb_true_iff in H as [Hs Hm].
    apply Bool.eqb_prop in Hs. apply Pos.eqb_eq in Hm. apply Z.eqb_eq in He.
    now subst.
Qed.

Lemma weightTable_true : weightTable = true.
Proof. vm_compute. reflexivity. Qed.

Lemma weightTable_at (n : Z) :
  0 <= n <= 10000 ->
  let y := ofDecimal false n (-4) in
  ofString (layoutFixed n 4) = y /\ isFinite y = true /\ ltb y zero = false
  /\ gtb y (ofZ 1) = false /\ roundScaled y 4 = n.
Proof.
  intros Hn y.
  pose proof (forallZ_spec _ _ _ weightTable_true n ltac:(lia)) as H.
  cbv beta in H. fold y in H.
  repeat (apply andb_true_iff in H as [H ?]).
  repeat split.
  - now apply eqb_eq.
  - assumption.
  - now apply negb_true_iff.
  - now apply negb_true_iff.
  - now apply Z.eqb_eq.
Qed.

Lemma ofZ_one : ofZ 1 = S754_finite false 4503599627370496 (-52).
Proof. reflexivity. Qed.

Lemma ofZ_1e21 : ofZ (10 ^ 21) = S754_finite false 7629394531250000 17.
Proof. vm_compute. reflexivity. Qed.

Lemma unit_interval_bounds (x : number) :
  isFinite x = true -> ltb x zero = false -> gtb x (ofZ 1) = false ->
  0 <= num x <= den x.
Proof.
  intros Hf Hl Hg. pose proof (den_pos x) as Hd.
  destruct x as [s| |  |s m e]; try discriminate.
  - simpl. lia.
  - rewrite ofZ_one in Hg. unfold gtb, ltb, compare in Hg, Hl.
    cbn [num den zero] in Hg, Hl, Hd |- *.
    assert (HA : 0 < Z.pos m * 2 ^ Z.max e 0)
      by (apply Z.mul_pos_pos; [lia | apply Z.pow_pos_nonneg; lia]).
    set (A := Z.pos m * 2 ^ Z.max e 0) in *.
    set (D := 2 ^ Z.max (- e) 0) in *.
    change (Z.max (-52) 0) with 0 in Hg. change (Z.max (- (-52)) 0) with 52 in Hg.
    destruct s; cbn [cond_Zopp] in *.
    + destruct (Z.compare_spec (- A * 1) (0 * D)); try discriminate; lia.
    + destruct (Z.compare_spec (4503599627370496 * 2 ^ 0 * D) (A * 2 ^ 52));
        try discriminate; lia.
Qed.

Lemma roundScaled_unit (x : number) :
  0 <= num x <= den x -> 0 <= roundScaled x 4 <= 10000.
Proof.
  intros H. pose proof (den_pos x) as Hd. unfold roundScaled.
  rewrite Z.abs_eq by lia. change (10 ^ Z.of_nat 4) with 10000.
  split.
  - apply Z.div_pos; lia.
  - apply Z.lt_succ_r. apply Z.div_lt_upper_bound; lia.
Qed.

Lemma toFixed4_unit (x : number) :
  isFinite x = true -> ltb x zero = false -> gtb x (ofZ 1) = false ->
  toFixed x 4 = layoutFixed (roundScaled x 4) 4.
Proof.
  intros Hf Hl Hg. pose proof (unit_interval_bounds x Hf Hl Hg) as Hb.
  pose proof (den_pos x) as Hd.
  unfold toFixed. rewrite Hf. cbn [negb]. unfold isNegative. rewrite Hl.
  destruct x as [s| |  |s m e]; try discriminate.
  - destruct s; reflexivity.
  - assert (s = false) as ->.
    { destruct s; [|reflexivity]. cbn [num cond_Zopp] in Hb.
      assert (0 < Z.pos m * 2 ^ Z.max e 0)
        by (apply Z.mul_pos_pos; [lia | apply Z.pow_pos_nonneg; lia]). lia. }
    cbn [abs SFabs]. rewrite ofZ_1e21.
    replace (geb (S754_finite false m e) (S754_finite false 7629394531250000 17))
      with false; [reflexivity|].
    symmetry. unfold geb, leb, compare. cbn [num den cond_Zopp] in *.
    change (Z.max 17 0) with 17. change (Z.max (- (17)) 0) with 0.
    destruct (Z.compare_spec (7629394531250000 * 2 ^ 17 * 2 ^ Z.max (- e) 0)
                (Z.pos m * 2 ^ Z.max e 0 * 2 ^ 0)); try reflexivity; lia.
Qed.


Lemma ltb_negb_leb (x y : number) :
  isFinite x = true -> isFinite y = true -> ltb x y = negb (leb y x).
Proof.
  intros Hx Hy. unfold ltb, leb.
  assert (Hc : forall a b, isFinite a = true -> isFinite b = true ->
               compare a b = Some (Z.compare (num a * den b) (num b * den a))).
  { intros a b Ha Hb. destruct a, b; try discriminate; reflexivity. }
  rewrite (Hc x y Hx Hy), (Hc y x Hy Hx).
  rewrite (Z.compare_antisym (num x * den y) (num y * den x)).
  destruct (num x * den y ?= num y * den x); reflexivity.
Qed.

Lemma inUnitInterval_code (x : number) :
  isFinite x = true ->
  Spec.inUnitInterval x = negb (ltb x zero || gtb x (ofZ 1)).
Proof.
  intros Hx. unfold Spec.inUnitInterval, gtb.
  rewrite (ltb_negb_leb x zero Hx eq_refl).
  rewrite (ltb_negb_leb (ofZ 1) x eq_refl Hx).
  destruct (leb zero x), (leb x (ofZ 1)); reflexivity.
Qed.

End NumberFacts.

Section WeightFacts.
Import JsNumber JsValue Shared Spec.

(** The weight stored for a parsed number of the unit interval. *)
Lemma stored_weight (x : number) :
  isFinite x = true -> ltb x zero = false -> gtb x (ofZ 1) = false ->
  ofString (toFixed x 4) = round4 x /\ 0 <= roundScaled x 4 <= 10000.
Proof.
  intros Hf Hl Hg.
  pose proof (roundScaled_unit x (unit_interval_bounds x Hf Hl Hg)) as Hn.
  split; [|exact Hn].
  rewrite (toFixed4_unit x Hf Hl Hg).
  exact (proj1 (weightTable_at _ Hn)).
Qed.

Lemma coerce_toNumber (value : Value) :
  match value with VNumber x => Ok x | _ => toNumber value end = toNumber value.
Proof. destruct value; reflexivity. Qed.

(** [ensureWeight] on a value that [Number] turns into [parsed]. *)
Lemma ensureWeight_parsed (value : Value) (field : string) (parsed : number) :
  toNumber value = Ok parsed ->
  ensureWeight value field =
    if negb (isFinite parsed) then
      Throw (ContractValidationError "INVALID_WEIGHT"
               (field +:+ " must be a valid number")
               (VObject [("field", VString field); ("received", value)]))
    else if negb (inUnitInterval parsed) then
      Throw (ContractValidationError "WEIGHT_OUT_OF_RANGE"
               (field +:+ " must be in range [0, 1]")
               (VObject [("field", VString field); ("received", VNumber parsed)]))
    else Ok (round4 parsed).
Proof.
  intros H. unfold ensureWeight. rewrite coerce_toNumber, H. cbn [bind].
  destruct (isFinite parsed) eqn:Hf; cbn [negb]; [|reflexivity].
  rewrite (inUnitInterval_code parsed Hf).
  destruct (ltb parsed zero) eqn:Hl; [reflexivity|].
  destruct (gtb parsed (ofZ 1)) eqn:Hg; [reflexivity|].
  cbn [orb negb]. f_equal. exact (proj1 (stored_weight parsed Hf Hl Hg)).
Qed.

(** [ensureWeight] on a number, or on a string that [Number] reads as
    [parsed]: in the unit interval it is accepted and gives [parsed] rounded
    to 4 decimal places; finite and outside the interval it fails with
    WEIGHT_OUT_OF_RANGE; not finite (NaN for a string that is not numeric,
    or an infinity) it fails with INVALID_WEIGHT, before any range check. *)
Lemma ensureWeight_number_or_numeric_string
    (value : Value) (field : string) (parsed : number) :
  value = VNumber parsed \/ (exists s, value = VString s /\ parsed = ofString s) ->
  (isFinite parsed = true -> inUnitInterval parsed = true ->
   ensureWeight value field = Ok (round4 parsed))
  /\ (isFinite parsed = true -> inUnitInterval parsed = false ->
      failsWith (ensureWeight value field) "WEIGHT_OUT_OF_RANGE")
  /\ (isFinite parsed = false ->
      failsWith (ensureWeight value field) "INVALID_WEIGHT")
  /\ (forall s, value = VString s -> isNumericString s = false ->
      failsWith (ensureWeight value field) "INVALID_WEIGHT").
Proof.
  intros Hv.
  assert (Hp : toNumber value = Ok parsed).
  { destruct Hv as [->|(s & -> & ->)]; reflexivity. }
  pose proof (ensureWeight_parsed value field parsed Hp) as E.
  repeat split.
  - intros Hf Hi. rewrite E, Hf, Hi. reflexivity.
  - intros Hf Hi. rewrite E, Hf, Hi. eexists. split; reflexivity.
  - intros Hf. rewrite E, Hf. eexists. split; reflexivity.
  - intros s -> Hs. destruct Hv as [Hv|(s' & Hv & ->)]; [discriminate|].
    injection Hv as <-. unfold isNumericString in Hs.
    apply negb_false_iff in Hs. rewrite E.
    destruct (ofString s); try discriminate. eexists. split; reflexivity.
Qed.

Lemma ensureWeight_number_or_numeric_string_witness :
  ensureWeight (VString " 0.12345 ") "reference.weight"
  = Ok (ofDecimal false 1235 (-4)).
Proof.
  refine (proj1 (ensureWeight_number_or_numeric_string
                   (VString " 0.12345 ") "reference.weight" (ofString " 0.12345 ")
                   (or_intror (ex_intro _ " 0.12345 " (conj eq_refl eq_refl))))
                eq_refl eq_refl).
Defined.


(** A stored weight is accepted again and stored unchanged. *)
Lemma ensureWeight_stable (value : Value) (field field' : string) (w : number) :
  ensureWeight value field = Ok w -> ensureWeight (VNumber w) field' = Ok w.
Proof.
  intros H. unfold ensureWeight in H. rewrite coerce_toNumber in H.
  destruct (toNumber value) as [parsed|e]; [|discriminate].
  cbn [bind] in H.
  destruct (isFinite parsed) eqn:Hf; [|discriminate]. cbn [negb] in H.
  destruct (ltb parsed zero) eqn:Hl; [discriminate|].
  destruct (gtb parsed (ofZ 1)) eqn:Hg; [discriminate|].
  cbn [orb] in H. injection H as <-.
  destruct (stored_weight parsed Hf Hl Hg) as [-> Hn].
  destruct (weightTable_at _ Hn) as (_ & Hf' & Hl' & Hg' & Hr). cbv zeta in *.
  fold (round4 parsed) in *.
  unfold ensureWeight. cbn [bind]. rewrite Hf', Hl', Hg'. cbn [negb orb].
  f_equal. rewrite (proj1 (stored_weight _ Hf' Hl' Hg')).
  unfold round4 at 1. rewrite Hr. reflexivity.
Qed.

End WeightFacts.

(* --------------------------------------------------------------------- *)
(** ** Contract validation                                                *)
(* --------------------------------------------------------------------- *)

Section ContractFacts.
Import JsValue Shared Spec.

Lemma ensureString_ok (value : Value) (field : string) (allowEmpty : bool) (t : string) :
  ensureString value field allowEmpty = Ok t ->
  exists s, value = VString s /\ t = JsString.trim s
            /\ (allowEmpty = false -> JsString.isEmpty t = false).
Proof.
  unfold ensureString. destruct value; try discriminate.
  destruct (negb allowEmpty && JsString.isEmpty (JsString.trim s)) eqn:E; [discriminate|].
  intros [= <-]. exists s. repeat split. intros ->. exact E.
Qed.

Lemma ensureString_trimmed (s field : string) (allowEmpty : bool) :
  (allowEmpty = false -> JsString.isEmpty (JsString.trim s) = false) ->
  ensureString (VString (JsString.trim s)) field allowEmpty = Ok (JsString.trim s).
Proof.
  intros H. unfold ensureString. rewrite trim_idempotent.
  destruct allowEmpty; [reflexivity|]. rewrite (H eq_refl). reflexivity.
Qed.

Lemma ensureString_stable (value : Value) (field field' : string) (allowEmpty : bool)
    (t : string) :
  ensureString value field allowEmpty = Ok t ->
  ensureString (VString t) field' allowEmpty = Ok t.
Proof.
  intros H. destruct (ensureString_ok _ _ _ _ H) as (s & _ & -> & Hne).
  now apply ensureString_trimmed.
Qed.

Lemma includes_cases (l : list string) (s : string) :
  includes l s = true -> In s l.
Proof.
  unfold includes. intros H. apply existsb_exists in H as (x & Hx & E).
  apply String.eqb_eq in E. now subst.
Qed.

Lemma featureType_fixed (f : string) :
  includes FEATURE_TYPES f = true ->
  JsString.trim f = f /\ JsString.toUpperCase f = f /\ JsString.isEmpty f = false.
Proof.
  intros H. apply includes_cases in H. simpl in H.
  destruct H as [<-|[<-|[<-|[<-|[]]]]]; repeat split; reflexivity.
Qed.

Lemma validateReference_stable (value r : Value) :
  validateReference value = Ok r -> validateReference r = Ok r.
Proof.
  unfold validateReference at 1.
  destruct (negb (isRecord value)); [discriminate|].
  intros H. bind_ok H. bind_ok H. injection H as <-.
  unfold validateReference. cbn [isRecord negb get lookup String.eqb Ascii.eqb Bool.eqb].
  rewrite (ensureString_stable _ _ _ _ _ E). cbn [bind].
  rewrite (ensureWeight_stable _ _ _ _ E0). reflexivity.
Qed.

Lemma validateSource_stable (value s : Value) (i j : nat) :
  validateSource value i = Ok s -> validateSource s j = Ok s.
Proof.
  unfold validateSource at 1.
  destruct (negb (isRecord value)); [discriminate|].
  intros H. bind_ok H.
  destruct (includes FEATURE_TYPES (JsString.toUpperCase x)) eqn:Hin; [|discriminate].
  cbn [negb] in H. bind_ok H. bind_ok H. injection H as <-.
  destruct (featureType_fixed _ Hin) as (Ht & Hu & Hne).
  unfold validateSource. cbn [isRecord negb get lookup String.eqb Ascii.eqb Bool.eqb].
  unfold ensureString at 1. rewrite Ht, Hne. cbn [negb andb bind].
  rewrite Hu, Hin. cbn [negb].
  rewrite (ensureString_stable _ _ _ _ _ E0). cbn [bind].
  rewrite (ensureWeight_stable _ _ _ _ E1). reflexivity.
Qed.

Lemma mapIndexed_stable (l l' : list Value) (i j : nat) :
  mapIndexed validateSource i l = Ok l' ->
  mapIndexed validateSource j l' = Ok l' /\ length l' = length l.
Proof.
  revert l' i j. induction l as [|v r IH]; intros l' i j H; simpl in H.
  - injection H as <-. split; reflexivity.
  - bind_ok H. bind_ok H. injection H as <-.
    destruct (IH _ _ (S j) E0) as [IH1 IH2]. simpl.
    rewrite (validateSource_stable _ _ _ j E). cbn [bind]. rewrite IH1.
    split; [reflexivity|]. now rewrite IH2.
Qed.

(** C6.  [validateGenerationContract] is idempotent: a contract it returns
    is accepted again and returned unchanged. *)
Theorem validateGenerationContract_idempotent (input contract : Value) :
  validateGenerationContract input = Ok contract ->
  validateGenerationContract contract = Ok contract.
Proof.
  unfold validateGenerationContract at 1.
  destruct (negb (isRecord input)); [discriminate|].
  intros H. bind_ok H. bind_ok H. bind_ok H. bind_ok H.
  destruct (get "sources" input) as [| | | | |[|s rest]|]; try discriminate.
  bind_ok H. injection H as <-.
  destruct (mapIndexed_stable _ _ _ 0%nat E3) as [Hs Hlen].
  destruct x3 as [|s' rest']; [discriminate|].
  assert (Hn : ensureString (VString x1) "negativePrompt" true = Ok x1).
  { destruct (get "negativePrompt" input) eqn:Eg;
      try exact (ensureString_stable _ _ _ _ _ E1).
    injection E1 as <-. reflexivity. }
  unfold validateGenerationContract.
  cbn [isRecord negb get lookup String.eqb Ascii.eqb Bool.eqb].
  rewrite (ensureString_stable _ _ _ _ _ E). cbn [bind].
  rewrite (ensureString_stable _ _ _ _ _ E0). cbn [bind].
  rewrite Hn. cbn [bind].
  rewrite (validateReference_stable _ _ E2). cbn [bind].
  rewrite Hs. reflexivity.
Qed.

Lemma validateGenerationContract_idempotent_witness :
  exists contract,
    validateGenerationContract Examples.demoBody = Ok contract
    /\ validateGenerationContract contract = Ok contract.
Proof.
  eexists. split; [vm_compute; reflexivity|].
  apply (validateGenerationContract_idempotent Examples.demoBody).
  vm_compute. reflexivity.
Defined.

End ContractFacts.

Section FieldOrderFacts.
Import JsValue Shared Spec FieldOrder.



(** C8.  At the body whose reference weight is the object [{"toString": 1}],
    [validateGenerationContract] throws the [TypeError] of the coercion
    [Number(value)], not a [ContractValidationError]. *)
Theorem validateGenerationContract_object_weight :
  validateGenerationContract Examples.objectWeightBody = Throw typeError
  /\ isContractValidationError
       (validateGenerationContract Examples.objectWeightBody) = false.
Proof. split; vm_compute; reflexivity. Qed.

End FieldOrderFacts.

(* --------------------------------------------------------------------- *)
(** ** The status response                                                *)
(* --------------------------------------------------------------------- *)

Section StatusFacts.
Import JsValue Shared Spec.

Lemma trimmedOrNull_cases (v : Value) :
  (forall s, v = VString s -> JsString.isEmpty (JsString.trim s) = false ->
             trimmedOrNull v = VString (JsString.trim s))
  /\ (forall s, v = VString s -> JsString.isEmpty (JsString.trim s) = true ->
                trimmedOrNull v = VNull)
  /\ ((forall s, v <> VString s) -> trimmedOrNull v = VNull).
Proof.
  repeat split.
  - intros s -> H. unfold trimmedOrNull. rewrite H. reflexivity.
  - intros s -> H. unfold trimmedOrNull. rewrite H. reflexivity.
  - intros H. destruct v; try reflexivity. now destruct (H s).
Qed.

Lemma filter_sublist {A : Type} (f : A -> bool) (l : list A) :
  sublist (List.filter f l) l.
Proof.
  induction l as [|x l IH]; simpl; [constructor|].
  destruct (f x); now constructor.
Qed.

Lemma isNonBlankString_spec (w : Value) :
  isNonBlankString w = true <->
  exists s, w = VString s /\ JsString.isEmpty (JsString.trim s) = false.
Proof.
  split.
  - destruct w; try discriminate. simpl. intros H. exists s.
    split; [reflexivity|]. now apply negb_true_iff.
  - intros (s & -> & H). simpl. now rewrite H.
Qed.

(** C9.  What [createStatusResponse] returns is normalized: [outputUrl],
    [errorCode] and [message] are the trimmed string when the input holds a
    string that is not blank, and [null] when it is blank, absent or not a
    string; [warnings] keeps, in order, exactly the elements that are strings
    and not blank; [status] is the trimmed status in upper case and one of
    the four task statuses.  A status outside them is rejected with
    INVALID_STATUS_VALUE, and the task view of the server carries the fields
    of [createStatusResponse] unchanged. *)
Theorem createStatusResponse_normalizes (input : Value) (now : string) :
  (forall r, createStatusResponse input now = Ok r ->
     (forall key, In key ["outputUrl"; "errorCode"; "message"] ->
        (forall s, get key input = VString s ->
                   JsString.isEmpty (JsString.trim s) = false ->
                   get key r = VString (JsString.trim s))
        /\ (forall s, get key input = VString s ->
                      JsString.isEmpty (JsString.trim s) = true ->
                      get key r = VNull)
        /\ ((forall s, get key input <> VString s) -> get key r = VNull))
     /\ (exists ws, get "warnings" r = VArray ws
           /\ sublist ws (arrayItems (get "warnings" input))
           /\ forall w, In w ws <->
                In w (arrayItems (get "warnings" input))
                /\ exists s, w = VString s
                             /\ JsString.isEmpty (JsString.trim s) = false)
     /\ (exists s, get "status" input = VString s
           /\ get "status" r = VString (JsString.toUpperCase (JsString.trim s))
           /\ In (JsString.toUpperCase (JsString.trim s)) TASK_STATUSES))
  /\ (forall s, isRecord input = true ->
        isOk (ensureString (get "taskId" input) "taskId" false) = true ->
        get "status" input = VString s ->
        JsString.isEmpty (JsString.trim s) = false ->
        ~ In (JsString.toUpperCase (JsString.trim s)) TASK_STATUSES ->
        failsWith (createStatusResponse input now) "INVALID_STATUS_VALUE")
  /\ (forall view, Server.toTaskView input now = Ok view ->
        exists r, createStatusResponse input now = Ok r
          /\ forall key,
               In key ["taskId"; "status"; "outputUrl"; "errorCode"; "message";
                       "warnings"; "updatedAt"] ->
               get key view = get key r).
Proof.
  split; [|split].
  - intros r H. unfold createStatusResponse in H.
    destruct (negb (isRecord input)); [discriminate|].
    bind_ok H. bind_ok H.
    destruct (includes TASK_STATUSES (JsString.toUpperCase x0)) eqn:Hin; [|discriminate].
    cbn [negb] in H. injection H as <-.
    split; [|split].
    + intros key Hk. simpl in Hk.
      destruct Hk as [<-|[<-|[<-|[]]]];
        cbn [get lookup String.eqb Ascii.eqb Bool.eqb]; apply trimmedOrNull_cases.
    + eexists. split; [reflexivity|].
      destruct (get "warnings" input); cbn [arrayItems];
        try (split; [constructor|intros w; split; [intros []|intros [[] _]]]).
      split; [apply filter_sublist|].
      intros w. rewrite filter_In, isNonBlankString_spec. reflexivity.
    + destruct (ensureString_ok _ _ _ _ E0) as (s & Hs & -> & _).
      exists s. split; [exact Hs|]. split; [reflexivity|].
      now apply includes_cases.
  - intros s Hr Hid Hs Hne Hnot. unfold createStatusResponse.
    rewrite Hr. cbn [negb].
    destruct (ensureString (get "taskId" input) "taskId" false); [|discriminate].
    cbn [bind]. rewrite Hs. unfold ensureString. rewrite Hne. cbn [negb andb bind].
    destruct (includes TASK_STATUSES (JsString.toUpperCase (JsString.trim s))) eqn:Hin.
    + destruct Hnot. now apply includes_cases.
    + eexists. split; reflexivity.
  - intros view H. unfold Server.toTaskView in H. bind_ok H. injection H as <-.
    exists x. split; [reflexivity|].
    unfold createStatusResponse in E.
    destruct (negb (isRecord input)); [discriminate|].
    bind_ok E. bind_ok E.
    destruct (negb (includes TASK_STATUSES (JsString.toUpperCase x1))); [discriminate|].
    injection E as <-. intros key Hk. simpl in Hk.
    destruct Hk as [<-|[<-|[<-|[<-|[<-|[<-|[<-|[]]]]]]]]; reflexivity.
Qed.

Lemma createStatusResponse_normalizes_witness :
  exists r, createStatusResponse Examples.sampleTask "now" = Ok r
    /\ get "outputUrl" r = VString "/outputs/t1.png"
    /\ get "errorCode" r = VNull
    /\ get "message" r = VNull.
Proof.
  eexists. split; [vm_compute; reflexivity|].
  pose proof (proj1 (createStatusResponse_normalizes Examples.sampleTask "now") _ eq_refl) as H.
  destruct H as (Hk & _ & _).
  split; [|split].
  - exact (proj1 (Hk "outputUrl" (or_introl eq_refl)) _ eq_refl eq_refl).
  - exact (proj1 (proj2 (Hk "errorCode" (or_intror (or_introl eq_refl)))) _ eq_refl eq_refl).
  - apply (proj2 (proj2 (Hk "message" (or_intror (or_intror (or_introl eq_refl)))))).
    intros s. discriminate.
Defined.

End StatusFacts.

(* --------------------------------------------------------------------- *)
(** ** The weights of a contract                                          *)
(* --------------------------------------------------------------------- *)

Section ContractWeights.
Import JsNumber JsValue Shared Spec FieldOrder.












End ContractWeights.

(* --------------------------------------------------------------------- *)
(** ** The workflow graph and the provider request                        *)
(* --------------------------------------------------------------------- *)

Section EngineFacts.
Import JsValue Shared Spec Engine.

Lemma extractPromptIndexing_total (prompt : string) (count : nat) :
  exists r, extractPromptIndexing (VString prompt) count = Ok r.
Proof. eexists. reflexivity. Qed.

Lemma decodeSources_validated (l l' : list Value) (i : nat) :
  mapIndexed validateSource i l = Ok l' ->
  exists ss, decodeSources l' = Some ss /\ length ss = length l.
Proof.
  revert l' i. induction l as [|v r IH]; intros l' i H; simpl in H.
  - injection H as <-. exists []. split; reflexivity.
  - bind_ok H. bind_ok H. injection H as <-.
    destruct (IH _ _ E0) as (ss & Hss & Hlen).
    unfold validateSource in E.
    destruct (negb (isRecord v)); [discriminate|].
    bind_ok E.
    destruct (negb (includes FEATURE_TYPES (JsString.toUpperCase x1))); [discriminate|].
    bind_ok E. bind_ok E. injection E as <-.
    eexists. split; [cbn; rewrite Hss; reflexivity|]. simpl. now rewrite Hlen.
Qed.

(** The engine reads every accepted contract, finds its prompt, and finds no
    model in it. *)
Lemma decodeContract_validated (body contract : Value) :
  validateGenerationContract body = Ok contract ->
  exists k, decodeContract contract = Some k
            /\ get "prompt" contract = VString (prompt k)
            /\ model k = VUndefined.
Proof.
  unfold validateGenerationContract.
  destruct (negb (isRecord body)); [discriminate|].
  intros H. bind_ok H. bind_ok H. bind_ok H. bind_ok H.
  destruct (get "sources" body) as [| | | | |[|s rest]|]; try discriminate.
  bind_ok H. injection H as <-.
  destruct (decodeSources_validated _ _ _ E3) as (ss & Hss & _).
  unfold validateReference in E2.
  destruct (negb (isRecord (get "reference" body))); [discriminate|].
  bind_ok E2. bind_ok E2. injection E2 as <-.
  eexists. split; [cbn; rewrite Hss; reflexivity|]. split; reflexivity.
Qed.

(** C5, as amended.  The workflow graph of a run has exactly three nodes,
    with roles REFERENCE, TRACK_B and MERGE in this order; the MERGE node
    carries the prompt and no model; the model field of the graph itself
    holds the resolved model, which is the model of the contract object
    handed to the engine when it has a truthy one and the configured default
    otherwise.  Every accepted contract is such an object, and the graph
    returned by its run is this graph. *)
Theorem workflowGraph_shape (env : Env) :
  (forall k : Contract,
     let resolved := orElse (model k) (DEFAULT_MODEL env) in
     exists graph n1 n2 n3,
       buildWorkflowGraph env (withModel k resolved) = Ok graph
       /\ get "nodes" graph = VArray [n1; n2; n3]
       /\ get "role" n1 = VString "REFERENCE"
       /\ get "role" n2 = VString "TRACK_B"
       /\ get "role" n3 = VString "MERGE"
       /\ get "prompt" n3 = VString (prompt k)
       /\ get "model" n3 = VUndefined
       /\ get "model" graph = resolved
       /\ (truthy (model k) = true -> resolved = model k)
       /\ (truthy (model k) = false -> resolved = DEFAULT_MODEL env)
       /\ (forall stages result,
             runDualTrackGeneration env k = (stages, Ok result) ->
             get "workflowGraph" result = graph))
  /\ (forall body contract,
        validateGenerationContract body = Ok contract ->
        exists k, decodeContract contract = Some k
                  /\ get "prompt" contract = VString (prompt k)).
Proof.
  split.
  - intros k resolved.
    destruct (extractPromptIndexing_total (prompt k) (length (sources k))) as [pi Hpi].
    unfold buildWorkflowGraph. cbn [prompt sources withModel model reference].
    rewrite Hpi. cbn [bind].
    do 4 eexists. split; [reflexivity|].
    do 6 (split; [reflexivity|]).
    split; [|split; [|split]].
    + cbn. unfold orElse. fold resolved.
      assert (truthy resolved = true \/ resolved = DEFAULT_MODEL env) as [Ht| ->].
      { unfold resolved, orElse. destruct (truthy (model k)) eqn:E; [left; exact E|right; reflexivity]. }
      * now rewrite Ht.
      * destruct (truthy (DEFAULT_MODEL env)); reflexivity.
    + intros Ht. unfold resolved, orElse. now rewrite Ht.
    + intros Ht. unfold resolved, orElse. now rewrite Ht.
    + intros stages result Hrun. unfold runDualTrackGeneration, prepareRequest in Hrun.
      destruct (negb (truthy (GEMINI_API_KEY env))); [discriminate|].
      fold resolved in Hrun.
      unfold buildWorkflowGraph in Hrun.
      cbn [prompt sources withModel model reference] in Hrun.
      rewrite Hpi in Hrun. cbn [bind] in Hrun.
      match type of Hrun with context [collectWarnings ?g] =>
        destruct (collectWarnings g) as [notes|]; cbn [bind] in Hrun; [|discriminate]
      end.
      destruct (imageRefToInlineData env (ref_imageRef (reference k))); [|discriminate].
      destruct (resolveSources env (sources k)); [|discriminate].
      cbn [targetModel requestBody workflowGraph warnings] in Hrun.
      match type of Hrun with context [generateContent ?e ?t ?b] =>
        destruct (generateContent e t b); [|discriminate]
      end.
      injection Hrun as _ Hres.
      destruct (extractOutputImage env a1); [|discriminate].
      cbn [bind] in Hres. injection Hres as <-. cbn.
      unfold orElse. fold resolved.
      assert (truthy resolved = true \/ resolved = DEFAULT_MODEL env) as [Ht| ->].
      { unfold resolved, orElse. destruct (truthy (model k)) eqn:E; [left; exact E|right; reflexivity]. }
      * now rewrite Ht.
      * destruct (truthy (DEFAULT_MODEL env)); reflexivity.
  - intros body contract H.
    destruct (decodeContract_validated _ _ H) as (k & Hk & Hp & _).
    exists k. split; assumption.
Qed.

(** C5, counterexample.  A body with the explicit model "custom-model" is
    accepted; the graph returned by its run has a MERGE node without any
    model, and its own model field holds the configured default, not the
    model that was supplied. *)
Lemma workflowGraph_model_counterexample :
  exists contract k stages result merge,
    validateGenerationContract Examples.modelBody = Ok contract
    /\ get "model" Examples.modelBody = VString "custom-model"
    /\ decodeContract contract = Some k
    /\ runDualTrackGeneration Examples.env k = (stages, Ok result)
    /\ arrayItems (get "nodes" (get "workflowGraph" result)) !! 2%nat = Some merge
    /\ get "role" merge = VString "MERGE"
    /\ get "model" merge = VUndefined
    /\ get "model" (get "workflowGraph" result) = VString "gemini-3-pro-image-preview"
    /\ get "model" (get "workflowGraph" result) <> get "model" Examples.modelBody.
Proof.
  do 5 eexists.
  do 8 (split; [vm_compute; reflexivity|]).
  vm_compute. discriminate.
Qed.

Lemma imapFrom_length {A B : Type} (f : A -> nat -> B) (i : nat) (l : list A) :
  length (imapFrom f i l) = length l.
Proof. revert i. induction l as [|x r IH]; intros i; simpl; [reflexivity|]. now rewrite IH. Qed.

Lemma imapFrom_lookup {A B : Type} (f : A -> nat -> B) (i j : nat) (l : list A) :
  imapFrom f i l !! j = (fun x => f x (i + j)%nat) <$> l !! j.
Proof.
  revert i j. induction l as [|x r IH]; intros i j; [reflexivity|].
  destruct j as [|j]; simpl.
  - now rewrite Nat.add_0_r.
  - rewrite IH. now rewrite Nat.add_succ_r.
Qed.

Lemma resolveSources_lookup (env : Env) (l : list Source) (ds : list Value) :
  resolveSources env l = Ok ds ->
  length ds = length l
  /\ forall i s, l !! i = Some s ->
       exists d, ds !! i = Some d /\ imageRefToInlineData env (src_imageRef s) = Ok d.
Proof.
  revert ds. induction l as [|x r IH]; intros ds H; simpl in H.
  - injection H as <-. split; [reflexivity|]. intros i s Hs. destruct i; discriminate.
  - bind_ok H. bind_ok H. injection H as <-.
    destruct (IH _ eq_refl) as [Hlen Hat]. split; [simpl; now rewrite Hlen|].
    intros [|i] s Hs; simpl in Hs.
    + injection Hs as <-. exists x0. split; [reflexivity|exact E].
    + exact (Hat i s Hs).
Qed.

(** C4, as amended.  In the request that [runDualTrackGeneration] posts, the
    single user turn starts with a text part, then has the reference image,
    then one text marker "Source i image" per source in contract order, and
    then the source images in contract order: the image of source [i] is
    the part at index [2 + n + i], its marker is the part at index [2 + i]. *)
Theorem providerRequest_parts (env : Env) (k : Contract) (body : Value) :
  providerRequest env k = Ok body ->
  exists intro ref srcs parts,
    get "contents" body
      = VArray [VObject [("role", VString "user"); ("parts", VArray parts)]]
    /\ imageRefToInlineData env (ref_imageRef (reference k)) = Ok ref
    /\ resolveSources env (sources k) = Ok srcs
    /\ length srcs = length (sources k)
    /\ length parts = (2 + 2 * length srcs)%nat
    /\ parts !! 0%nat = Some (VObject [("text", VString intro)])
    /\ parts !! 1%nat = Some (VObject [("inline_data", ref)])
    /\ forall i s, sources k !! i = Some s ->
         exists d,
           imageRefToInlineData env (src_imageRef s) = Ok d
           /\ parts !! (2 + i)%nat
              = Some (VObject [("text",
                                VString ("Source " +:+ JsString.ofNat i +:+ " image"))])
           /\ parts !! (2 + length srcs + i)%nat = Some (VObject [("inline_data", d)]).
Proof.
  unfold providerRequest, prepareRequest.
  destruct (negb (truthy (GEMINI_API_KEY env))); [discriminate|].
  destruct (let* graph := buildWorkflowGraph env
                            (withModel k (orElse (model k) (DEFAULT_MODEL env))) in
            let* notes := collectWarnings graph in Ok (graph, notes))
    as [[graph notes]|]; [|discriminate].
  destruct (imageRefToInlineData env (ref_imageRef (reference k))) as [ref|] eqn:Href;
    [|discriminate].
  destruct (resolveSources env (sources k)) as [srcs|] eqn:Hsrcs; [|discriminate].
  cbn [snd bind requestBody]. intros [= <-].
  destruct (resolveSources_lookup _ _ _ Hsrcs) as [Hlen Hat].
  do 4 eexists. split; [reflexivity|].
  split; [reflexivity|]. split; [reflexivity|]. split; [exact Hlen|].
  split; [|split; [reflexivity|split; [reflexivity|]]].
  - unfold buildParts. rewrite !length_app, imapFrom_length, length_map. simpl. lia.
  - intros i s Hs. destruct (Hat i s Hs) as (d & Hd & Hres).
    exists d. split; [exact Hres|].
    pose proof (lookup_lt_Some _ _ _ Hd) as Hlt.
    unfold buildParts. cbn [app Nat.add].
    assert (Hskip : forall (a b : Value) l j, (a :: b :: l) !! S (S j) = l !! j)
      by reflexivity.
    rewrite !Hskip. split.
    + rewrite lookup_app_l by (rewrite imapFrom_length; exact Hlt).
      rewrite imapFrom_lookup, Hd. reflexivity.
    + rewrite lookup_app_r by (rewrite imapFrom_length; lia).
      rewrite imapFrom_length.
      replace (length srcs + i - length srcs)%nat with i by lia.
      rewrite list_lookup_fmap, Hd. reflexivity.
Qed.


Lemma providerRequest_parts_witness :
  exists body parts,
    providerRequest Examples.env Examples.modelContract = Ok body
    /\ get "contents" body
       = VArray [VObject [("role", VString "user"); ("parts", VArray parts)]]
    /\ length parts = 6%nat.
Proof.
  assert (H : exists body, providerRequest Examples.env Examples.modelContract = Ok body)
    by (eexists; vm_compute; reflexivity).
  destruct H as [body H].
  destruct (providerRequest_parts _ _ _ H)
    as (intro & ref & srcs & parts & Hc & _ & _ & Hs & Hlen & _).
  exists body, parts. split; [exact H|]. split; [exact Hc|].
  rewrite Hlen, Hs. reflexivity.
Defined.

(** C4, counterexample.  With two sources the source images are not each
    immediately preceded by their own marker: the part before the image of
    source 1 is the image of source 0, and the part before the image of
    source 0 is the marker of source 1. *)
Lemma providerRequest_parts_counterexample :
  exists contract k body parts,
    validateGenerationContract Examples.modelBody = Ok contract
    /\ decodeContract contract = Some k
    /\ providerRequest Examples.env k = Ok body
    /\ get "contents" body
       = VArray [VObject [("role", VString "user"); ("parts", VArray parts)]]
    /\ parts !! 5%nat = Some (VObject [("inline_data", inlineData "image/png" "BBBB")])
    /\ parts !! 4%nat = Some (VObject [("inline_data", inlineData "image/png" "AAAA")])
    /\ parts !! 3%nat = Some (VObject [("text", VString "Source 1 image")]).
Proof.
  do 4 eexists.
  do 6 (split; [vm_compute; reflexivity|]).
  vm_compute. reflexivity.
Qed.

Lemma workflowGraph_shape_witness :
  (exists graph,
     buildWorkflowGraph Examples.env
       (withModel Examples.modelContract (DEFAULT_MODEL Examples.env)) = Ok graph
     /\ get "model" graph = DEFAULT_MODEL Examples.env)
  /\ exists contract k,
       validateGenerationContract Examples.modelBody = Ok contract
       /\ decodeContract contract = Some k.
Proof.
  split.
  - destruct (proj1 (workflowGraph_shape Examples.env) Examples.modelContract)
      as (graph & n1 & n2 & n3 & Hg & _ & _ & _ & _ & _ & _ & Hm & _ & Hd & _).
    exists graph. rewrite (Hd eq_refl) in Hg, Hm. split; assumption.
  - assert (Hv : exists c, validateGenerationContract Examples.modelBody = Ok c)
      by (eexists; vm_compute; reflexivity).
    destruct Hv as [c Hv].
    destruct (proj2 (workflowGraph_shape Examples.env) _ _ Hv) as (k & Hk & _).
    exists c, k. split; assumption.
Defined.

End EngineFacts.

(* --------------------------------------------------------------------- *)
(** ** The task store                                                     *)
(* --------------------------------------------------------------------- *)

Section ServerFacts.
Import JsValue Shared Spec Server.

(** C3.  A second contract whose task id is the key of a tracked task is
    answered with 409 and TASK_EXISTS, and the state of the server is left
    as it was: no task is inserted or changed, nothing is written to any
    event stream, no timer and no run is added. *)
Theorem postTask_duplicate (body : Value) (now : string) (st : ServerState)
    (contract task : Value) :
  validateGenerationContract body = Ok contract ->
  tasks st !! keyOf (get "taskId" contract) = Some task ->
  exists message,
    postTask body now st
    = ({| statusCode := 409;
          body := VObject [("error", VObject [("code", VString "TASK_EXISTS");
                                              ("message", VString message)])] |},
       st).
Proof.
  intros Hv Ht. unfold postTask. rewrite Hv, Ht. eexists. reflexivity.
Qed.

Lemma postTask_duplicate_witness :
  let st := snd (postTask Examples.demoBody "T0" initialState) in
  statusCode (fst (postTask Examples.demoBody "T0" initialState)) = 202
  /\ exists message,
       postTask Examples.demoBody "T1" st
       = ({| statusCode := 409;
             body := VObject [("error", VObject [("code", VString "TASK_EXISTS");
                                                 ("message", VString message)])] |},
          st).
Proof.
  intros st. split; [vm_compute; reflexivity|].
  eapply (postTask_duplicate Examples.demoBody "T1" st).
  - vm_compute. reflexivity.
  - vm_compute. reflexivity.
Defined.

End ServerFacts.

(* --------------------------------------------------------------------- *)
(** ** The life of a task                                                 *)
(* --------------------------------------------------------------------- *)

Section PropertyLists.
Import JsValue.

Lemma lookup_assign (k k' : string) (v : Value) (props : list (string * Value)) :
  lookup k (assign k' v props) = if String.eqb k' k then Some v else lookup k props.
Proof.
  induction props as [|[k0 w] r IH]; simpl.
  - destruct (String.eqb k' k); reflexivity.
  - destruct (String.eqb k0 k') eqn:E0; simpl.
    + apply String.eqb_eq in E0. subst k0. destruct (String.eqb k' k); reflexivity.
    + rewrite IH. destruct (String.eqb k0 k) eqn:E1; [|reflexivity].
      apply String.eqb_eq in E1. subst k0. rewrite String.eqb_sym, E0. reflexivity.
Qed.

Lemma lookup_app (k : string) (l1 l2 : list (string * Value)) :
  lookup k (l1 ++ l2) = match lookup k l1 with Some v => Some v | None => lookup k l2 end.
Proof.
  induction l1 as [|[k0 w] r IH]; simpl; [reflexivity|].
  destruct (String.eqb k0 k); [reflexivity|exact IH].
Qed.

Lemma lookup_spread (k : string) (base extra : list (string * Value)) :
  lookup k (spread base extra)
  = match lookup k (rev extra) with Some v => Some v | None => lookup k base end.
Proof.
  unfold spread. revert base. induction extra as [|[k' v] r IH]; intros base; simpl;
    [reflexivity|].
  rewrite IH, lookup_assign, lookup_app. simpl.
  destruct (lookup k (rev r)); [reflexivity|].
  destruct (String.eqb k' k); reflexivity.
Qed.

End PropertyLists.

Section StoreFacts.
Import JsValue Shared Spec Server Lifecycle Invariant.

Lemma get_nextTask (k : string) (prev : Value) (patch : list (string * Value))
    (now : string) :
  get k (nextTask prev patch now)
  = if String.eqb "updatedAt" k then VString now
    else match lookup k (rev patch) with
         | Some v => v
         | None => get k prev
         end.
Proof.
  unfold nextTask. cbn [get]. rewrite lookup_assign, lookup_spread.
  destruct (String.eqb "updatedAt" k); [reflexivity|].
  destruct (lookup k (rev patch)); [reflexivity|].
  destruct prev; reflexivity.
Qed.

Lemma status_fixed (v : Value) (now field : string) :
  In v statusValues ->
  exists s, v = VString s
            /\ ensureString v field false = Ok s
            /\ JsString.toUpperCase s = s
            /\ includes TASK_STATUSES s = true.
Proof.
  intros H. simpl in H.
  destruct H as [<-|[<-|[<-|[<-|[]]]]]; eexists; repeat split; reflexivity.
Qed.

(** A well-formed task has a view. *)
Lemma toTaskView_wf (task : Value) (now : string) :
  wfTask task -> exists view, toTaskView task now = Ok view.
Proof.
  intros (Hr & (s & Hid & Hne) & Hst).
  destruct (status_fixed _ now "status" Hst) as (c & Hc & Hes & Hup & Hin).
  unfold toTaskView, createStatusResponse. rewrite Hr. cbn [negb].
  rewrite Hid. unfold ensureString at 1. rewrite Hne. cbn [negb andb bind].
  rewrite Hes. cbn [bind]. rewrite Hup, Hin. cbn [negb bind].
  eexists. reflexivity.
Qed.

Lemma nextTask_wf (prev : Value) (patch : list (string * Value)) (now : string) :
  wfTask prev -> goodPatch patch -> wfTask (nextTask prev patch now).
Proof.
  intros (Hr & (s & Hid & Hne) & Hst) (Hp1 & _ & Hp2).
  split; [reflexivity|]. split.
  - exists s. split; [|exact Hne]. rewrite get_nextTask, Hp1. exact Hid.
  - rewrite get_nextTask. cbn [String.eqb Ascii.eqb Bool.eqb].
    destruct (lookup "status" (rev patch)); assumption.
Qed.

Lemma broadcast_tasks (id event : string) (payload : Value) (st : ServerState) :
  tasks (broadcastTaskEvent id event payload st) = tasks st
  /\ runs (broadcastTaskEvent id event payload st) = runs st.
Proof.
  unfold broadcastTaskEvent. destruct (sseClients st !! id); split; reflexivity.
Qed.

(** [updateTask] on a store of well-formed tasks with a good patch: it
    returns, the runs are as before, and the task, if there is one, is
    replaced by the patched record. *)
Lemma updateTask_spec (id : string) (patch : list (string * Value)) (now : string)
    (st : ServerState) :
  (forall t, tasks st !! id = Some t -> wfTask t) -> goodPatch patch ->
  exists st1 v,
    updateTask id patch now st = (st1, Ok v)
    /\ runs st1 = runs st
    /\ tasks st1 = match tasks st !! id with
                   | Some prev => <[id := nextTask prev patch now]> (tasks st)
                   | None => tasks st
                   end.
Proof.
  intros Hwf Hp. unfold updateTask.
  destruct (tasks st !! id) as [prev|] eqn:Ht.
  - fold (nextTask prev patch now).
    destruct (toTaskView_wf _ now (nextTask_wf prev patch now (Hwf _ eq_refl) Hp))
      as [view ->].
    do 2 eexists. split; [reflexivity|].
    destruct (broadcast_tasks id "status" view
                (setTasks (<[id:=nextTask prev patch now]> (tasks st)) st)) as [-> ->].
    split; reflexivity.
  - do 2 eexists. split; [reflexivity|]. split; reflexivity.
Qed.


Lemma goodPatch_processing : goodPatch processingPatch.
Proof. split; [reflexivity|]. split; [reflexivity|]. simpl. tauto. Qed.

Lemma goodPatch_progress (stage : Value) : goodPatch [("progress", stage)].
Proof. split; [reflexivity|]. split; [reflexivity|exact I]. Qed.

Lemma goodPatch_success (filename : string) (result : Value) :
  goodPatch (successPatch filename result).
Proof. split; [reflexivity|]. split; [reflexivity|]. simpl. tauto. Qed.

Lemma goodPatch_failed (e : JsError) : goodPatch (failedPatch e).
Proof. split; [reflexivity|]. split; [reflexivity|]. simpl. tauto. Qed.

























(** The sequence of the counterexample creates its second task while the
    run of the first is in flight; submitting a stored task again, which is
    refused with 409, creates none. *)
Lemma freshPosts_examples :
  freshPosts Examples.env staleRun initialState = false
  /\ freshPosts Examples.env resubmittedRun initialState = true
  /\ Server.statusCode
       (fst (postTask Examples.modelBody "T1"
               (exec Examples.env [PostTask Examples.modelBody "T0"; RunStep 0 "T0"]
                     initialState))) = 409.
Proof. repeat split; vm_compute; reflexivity. Qed.

End StoreFacts.

(* --------------------------------------------------------------------- *)
(** ** Prompt markers: [extractPromptIndexing]                             *)
(* --------------------------------------------------------------------- *)

(** Rounding a natural number gives a natural number or plus infinity. *)
Section Naturals.
Import JsNumber Tokens.

Lemma iter_shr_1_nonneg (p : positive) (mrs : shr_record) :
  0 <= shr_m mrs -> 0 <= shr_m (SpecFloat.iter_pos shr_1 p mrs).
Proof.
  assert (H1 : forall mrs, 0 <= shr_m mrs -> 0 <= shr_m (shr_1 mrs)).
  { intros [m r s] H. simpl in H. destruct m as [|[q|q|]|q]; simpl; lia. }
  revert mrs. induction p as [p IH|p IH|]; intros mrs H; simpl; auto.
Qed.

Lemma shr_spec (mrs : shr_record) (e n : Z) :
  e <= snd (shr mrs e n) /\ (0 <= shr_m mrs -> 0 <= shr_m (fst (shr mrs e n))).
Proof.
  unfold shr. destruct n as [|p|p]; cbn [fst snd].
  - split; [lia|auto].
  - split; [lia|]. apply iter_shr_1_nonneg.
  - split; [lia|auto].
Qed.

Lemma round_nearest_even_nonneg (m : Z) (l : location) :
  0 <= m -> 0 <= round_nearest_even m l.
Proof.
  intros H. unfold round_nearest_even.
  destruct l as [|[| |]]; try lia. destruct (Z.even m); lia.
Qed.

(** Rounding a positive mantissa never yields NaN, keeps the sign, and does
    not lower the exponent. *)
Lemma binary_round_aux_shape (s : bool) (m : positive) (e : Z) (l : location) :
  let x := binary_round_aux prec emax s (Z.pos m) e l in
  x = S754_zero s \/ x = S754_infinity s
  \/ exists m' e', x = S754_finite s m' e' /\ e <= e'.
Proof.
  unfold binary_round_aux, shr_fexp.
  set (n1 := fexp prec emax (Zdigits2 (Z.pos m) + e) - e).
  pose proof (shr_spec (shr_record_of_loc (Z.pos m) l) e n1) as [He1 Hm1].
  destruct (shr (shr_record_of_loc (Z.pos m) l) e n1) as [mrs' e'].
  cbn [fst snd] in He1, Hm1.
  assert (H0 : 0 <= shr_m (shr_record_of_loc (Z.pos m) l)).
  { destruct l as [|[| |]]; simpl; lia. }
  specialize (Hm1 H0).
  set (m1 := round_nearest_even (shr_m mrs') (loc_of_shr_record mrs')).
  assert (Hm1' : 0 <= m1) by (apply round_nearest_even_nonneg; exact Hm1).
  set (n2 := fexp prec emax (Zdigits2 m1 + e') - e').
  pose proof (shr_spec (shr_record_of_loc m1 loc_Exact) e' n2) as [He2 Hm2].
  destruct (shr (shr_record_of_loc m1 loc_Exact) e' n2) as [mrs'' e''].
  cbn [fst snd] in He2, Hm2. specialize (Hm2 Hm1').
  destruct (shr_m mrs'') as [|q|q]; [now left| |lia].
  destruct (e'' <=? emax - prec); [|now right; left].
  right. right. exists q, e''. split; [reflexivity|lia].
Qed.

Lemma digits_iter_xO (p : positive) (k : positive) :
  digits2_pos (Pos.iter xO p k) = (digits2_pos p + k)%positive.
Proof.
  induction k as [|k IH] using Pos.peano_ind.
  - simpl. lia.
  - rewrite Pos.iter_succ. simpl. rewrite IH. lia.
Qed.

Lemma value_iter_xO (p : positive) (k : positive) :
  Z.pos (Pos.iter xO p k) = Z.pos p * 2 ^ Z.pos k.
Proof.
  induction k as [|k IH] using Pos.peano_ind.
  - simpl. lia.
  - rewrite Pos.iter_succ, Pos2Z.inj_succ, Z.pow_succ_r by lia.
    rewrite Pos2Z.inj_xO, IH. lia.
Qed.

Lemma digits2_pos_le (p : positive) : (1 <= digits2_pos p)%positive.
Proof. lia. Qed.

(** The number nearest to a positive integer is an integer or infinity. *)
Lemma ofPositive_natural (p : positive) : isNatural (ofPositive false p) = true.
Proof.
  unfold ofPositive, binary_round.
  set (d := Z.pos (digits2_pos p)).
  assert (Hf : fexp prec emax (d + 0) = Z.max (d - 53) (-1074)) by reflexivity.
  destruct (Z.ltb_spec d 53) as [Hlt|Hge].
  - (* fewer than 53 bits: the shift to the left is exact *)
    assert (Hfe : fexp prec emax (d + 0) = d - 53) by lia.
    rewrite Hfe. unfold shl_align.
    destruct (d - 53 - 0) as [|k|k] eqn:Hk; try lia.
    unfold binary_round_aux, shr_fexp. cbn [Zdigits2].
    rewrite digits_iter_xO.
    replace (fexp prec emax (Z.pos (digits2_pos p + k) + (d - 53)) - (d - 53)) with 0.
    2:{ unfold fexp, emin, prec, emax. fold d. rewrite Pos2Z.inj_add. fold d. lia. }
    cbn [shr shr_record_of_loc shr_m loc_of_shr_record round_nearest_even fst snd Zdigits2].
    rewrite digits_iter_xO.
    replace (fexp prec emax (Z.pos (digits2_pos p + k) + (d - 53)) - (d - 53)) with 0.
    2:{ unfold fexp, emin, prec, emax. fold d. rewrite Pos2Z.inj_add. fold d. lia. }
    cbn [shr shr_record_of_loc shr_m].
    replace (d - 53 <=? emax - prec) with true
      by (symmetry; apply Z.leb_le; unfold emax, prec; lia).
    cbn [isNatural]. unfold isInteger. cbn [isFinite andb num den cond_Zopp].
    rewrite value_iter_xO.
    replace (Z.max (d - 53) 0) with 0 by lia.
    replace (Z.max (- (d - 53)) 0) with (Z.pos k) by lia.
    rewrite Z.pow_0_r, Z.mul_1_r, Z.mod_mul; [reflexivity|].
    apply Z.pow_nonzero; lia.
  - (* at least 53 bits: the exponent is not negative *)
    assert (Hfe : 0 <= fexp prec emax (d + 0)) by lia.
    unfold shl_align.
    destruct (fexp prec emax (d + 0) - 0) as [|k|k] eqn:Hk; try lia;
      destruct (binary_round_aux_shape false p 0 loc_Exact)
        as [->|[->|(m' & e' & -> & He)]]; try reflexivity;
      cbn [isNatural]; unfold isInteger; cbn [isFinite andb num den cond_Zopp];
      replace (Z.max (- e') 0) with 0 by lia; rewrite Z.pow_0_r, Z.mod_1_r; reflexivity.
Qed.

Lemma ofZ_natural (z : Z) : 0 <= z -> isNatural (ofZ z) = true.
Proof.
  intros H. unfold ofZ, binary_normalize. destruct z as [|p|p]; [reflexivity| |lia].
  apply ofPositive_natural.
Qed.

Lemma ofDecimal_natural (z : Z) : 0 <= z -> isNatural (ofDecimal false z 0) = true.
Proof.
  intros H. unfold ofDecimal. destruct z as [|p|p]; [reflexivity| |lia].
  cbn [Z.leb Z.compare]. apply ofPositive_natural.
Qed.

End Naturals.

Section CharFacts.
Import JsString Tokens.

Lemma allAscii_complete (c : ascii) : In c allAscii.
Proof.
  unfold allAscii. rewrite <- (ascii_nat_embedding c). apply in_map.
  apply in_seq.
  pose proof (nat_ascii_bounded c). lia.
Qed.

Lemma charTable_true : charTable = true.
Proof. vm_compute. reflexivity. Qed.

Lemma charTable_at (c : ascii) :
  (forall p, In p patternChars ->
             eqChar_i c p = Ascii.eqb (foldCase c) (foldCase p))
  /\ (isDigit c = true -> isWhiteSpace c = false)
  /\ (isDigit c = true ->
      forall q, In q (list_ascii_of_string "[]+-IxXoObB") -> Ascii.eqb c q = false)
  /\ (isWhiteSpace c = true ->
      forall q, In q (list_ascii_of_string "[]") -> Ascii.eqb c q = false).
Proof.
  pose proof charTable_true as H. unfold charTable in H.
  rewrite forallb_forall in H. specialize (H c (allAscii_complete c)).
  apply andb_true_iff in H as [H H4]. apply andb_true_iff in H as [H H3].
  apply andb_true_iff in H as [H1 H2].
  rewrite forallb_forall in H1.
  split; [|split; [|split]].
  - intros p Hp. apply Bool.eqb_prop. exact (H1 p Hp).
  - intros Hd. rewrite Hd in H2. destruct (isWhiteSpace c); [discriminate|reflexivity].
  - intros Hd q Hq. rewrite Hd in H3. cbn [andb] in H3. apply negb_true_iff in H3.
    destruct (Ascii.eqb c q) eqn:E; [|reflexivity].
    assert (existsb (Ascii.eqb c) (list_ascii_of_string "[]+-IxXoObB") = true)
      by (apply existsb_exists; eauto).
    congruence.
  - intros Hw q Hq. rewrite Hw in H4. cbn [andb] in H4. apply negb_true_iff in H4.
    destruct (Ascii.eqb c q) eqn:E; [|reflexivity].
    assert (existsb (Ascii.eqb c) (list_ascii_of_string "[]") = true)
      by (apply existsb_exists; eauto).
    congruence.
Qed.

Lemma append_cons (c : ascii) (r s : string) :
  String c r +:+ s = String c (r +:+ s).
Proof. reflexivity. Qed.

Lemma append_nil_r (s : string) : s +:+ "" = s.
Proof. induction s as [|c r IH]; [reflexivity|]. rewrite append_cons. now f_equal. Qed.

Lemma append_assoc (a b c : string) : (a +:+ b) +:+ c = a +:+ b +:+ c.
Proof. induction a as [|x r IH]; [reflexivity|]. rewrite !append_cons. now f_equal. Qed.

Lemma length_append (a b : string) :
  String.length (a +:+ b) = (String.length a + String.length b)%nat.
Proof.
  induction a as [|x r IH]; [reflexivity|]. rewrite append_cons. simpl. now f_equal.
Qed.

Lemma span_spec (f : ascii -> bool) (s : string) :
  s = fst (span f s) +:+ snd (span f s)
  /\ allOf f (fst (span f s)) = true
  /\ match snd (span f s) with
     | EmptyString => True
     | String c _ => f c = false
     end.
Proof.
  induction s as [|c r IH]; simpl; [repeat split|].
  destruct (f c) eqn:E.
  - destruct (span f r) as [a b]. cbn [fst snd] in *.
    destruct IH as (IH1 & IH2 & IH3). repeat split.
    + rewrite append_cons. now rewrite <- IH1.
    + simpl. now rewrite E, IH2.
    + exact IH3.
  - cbn [fst snd]. repeat split. exact E.
Qed.

Lemma span_append (f : ascii -> bool) (a b : string) :
  allOf f a = true ->
  match b with EmptyString => True | String c _ => f c = false end ->
  span f (a +:+ b) = (a, b).
Proof.
  intros Ha Hb. induction a as [|c r IH].
  - change ("" +:+ b) with b. destruct b as [|c b']; [reflexivity|]. simpl. now rewrite Hb.
  - simpl in Ha. apply andb_true_iff in Ha as [Hc Hr].
    rewrite append_cons. simpl. rewrite Hc, (IH Hr). reflexivity.
Qed.

Lemma span_all (f : ascii -> bool) (s : string) :
  allOf f s = true -> span f s = (s, EmptyString).
Proof.
  intros H. rewrite <- (append_nil_r s) at 1. now apply span_append.
Qed.

Lemma trimEnd_fixed (s : string) :
  allOf (fun c => negb (isWhiteSpace c)) s = true -> trimEnd s = s.
Proof.
  induction s as [|c r IH]; simpl; [reflexivity|].
  intros H. apply andb_true_iff in H as [Hc Hr]. apply negb_true_iff in Hc.
  rewrite Hc, (IH Hr). reflexivity.
Qed.

Lemma allOf_impl (f g : ascii -> bool) (s : string) :
  (forall c, f c = true -> g c = true) -> allOf f s = true -> allOf g s = true.
Proof.
  intros Hfg. induction s as [|c r IH]; simpl; [reflexivity|].
  intros H. apply andb_true_iff in H as [Hc Hr]. now rewrite (Hfg c Hc), (IH Hr).
Qed.

Lemma trim_digits (ds : string) : allOf isDigit ds = true -> trim ds = ds.
Proof.
  intros H. unfold trim.
  assert (Hn : allOf (fun c => negb (isWhiteSpace c)) ds = true).
  { apply (allOf_impl isDigit); [|exact H].
    intros c Hc. now rewrite (proj1 (proj2 (charTable_at c)) Hc). }
  destruct ds as [|c r]; [reflexivity|].
  simpl in Hn |- *. apply andb_true_iff in Hn as [Hc Hr]. apply negb_true_iff in Hc.
  rewrite Hc. simpl. rewrite Hc, (trimEnd_fixed r Hr). reflexivity.
Qed.

Lemma digitsValue_nonneg (ds : string) : allOf isDigit ds = true -> 0 <= digitsValue ds.
Proof.
  unfold digitsValue. intros H.
  assert (G : forall acc, 0 <= acc ->
            0 <= fold_left (fun acc c => 10 * acc + digitValue c)
                           (list_ascii_of_string ds) acc).
  { induction ds as [|c r IH]; intros acc Hacc; simpl; [exact Hacc|].
    simpl in H. apply andb_true_iff in H as [Hc Hr].
    apply (IH Hr). unfold isDigit in Hc. apply andb_true_iff in Hc as [Hc1 Hc2].
    apply Z.leb_le in Hc1, Hc2. unfold digitValue. lia. }
  apply G. lia.
Qed.

End CharFacts.

Section DigitStrings.
Import JsString JsNumber Tokens.

(** [Number] of a non-empty string of digits is the number nearest to its
    decimal value. *)
Lemma ofString_digits (ds : string) :
  isEmpty ds = false -> allOf isDigit ds = true ->
  ofString ds = ofDecimal false (digitsValue ds) 0.
Proof.
  intros Hne Hd. unfold ofString. rewrite (trim_digits ds Hd).
  destruct ds as [|c r]; [discriminate|].
  simpl in Hd. apply andb_true_iff in Hd as [Hc Hr].
  pose proof (proj1 (proj2 (proj2 (charTable_at c))) Hc) as Hspecial.
  assert (Hrp : radixPrefix (String c r) = None).
  { unfold radixPrefix. destruct r as [|c' r']; [reflexivity|].
    simpl in Hr. apply andb_true_iff in Hr as [Hc' _].
    pose proof (proj1 (proj2 (proj2 (charTable_at c'))) Hc') as Hs'.
    rewrite (Hs' "x"%char), (Hs' "X"%char), (Hs' "o"%char), (Hs' "O"%char),
      (Hs' "b"%char), (Hs' "B"%char) by (simpl; tauto).
    destruct (Ascii.eqb c "0"); reflexivity. }
  rewrite Hrp, (Hspecial "+"%char), (Hspecial "-"%char) by (simpl; tauto).
  unfold parseUnsignedDecimal.
  assert (Hinf : String.eqb (String c r) "Infinity" = false).
  { simpl. rewrite (Hspecial "I"%char) by (simpl; tauto). reflexivity. }
  rewrite Hinf, (span_all isDigit (String c r)) by (simpl; now rewrite Hc, Hr).
  cbn [isEmpty andb String.length Z.of_nat]. rewrite append_nil_r. reflexivity.
Qed.

Lemma ofString_digits_natural (ds : string) :
  isEmpty ds = false -> allOf isDigit ds = true -> isNatural (ofString ds) = true.
Proof.
  intros Hne Hd. rewrite (ofString_digits ds Hne Hd).
  apply ofDecimal_natural. now apply digitsValue_nonneg.
Qed.

End DigitStrings.

Section TokenFacts.
Import JsString JsNumber Shared Tokens.

Lemma allOf_append (f : ascii -> bool) (a b : string) :
  allOf f (a +:+ b) = allOf f a && allOf f b.
Proof.
  induction a as [|c r IH]; [reflexivity|].
  rewrite append_cons. simpl. now rewrite IH, andb_assoc.
Qed.

Lemma lowerAscii_nil (t : string) : lowerAscii t = "" -> t = "".
Proof. destruct t; [reflexivity|discriminate]. Qed.

Lemma foldCase_open (c : ascii) : notOpen (foldCase c) = true -> notOpen c = true.
Proof.
  unfold notOpen. intros H. destruct (Ascii.eqb c "[") eqn:E; [|reflexivity].
  apply Ascii.eqb_eq in E. subst c. discriminate H.
Qed.

Lemma lowerAscii_notOpen (t : string) :
  allOf notOpen (lowerAscii t) = true -> allOf notOpen t = true.
Proof.
  induction t as [|c r IH]; simpl; [reflexivity|].
  intros H. apply andb_true_iff in H as [Hc Hr].
  now rewrite (foldCase_open c Hc), (IH Hr).
Qed.

Lemma code_of_code (z : Z) : 0 <= z < 256 -> code (of_code z) = z.
Proof.
  intros H. unfold code, of_code. rewrite N_ascii_embedding; lia.
Qed.

(** Folding the case reaches a character that is no small letter only from
    that character. *)
Lemma foldCase_fixed (c q : ascii) :
  foldCase c = q -> code q < 97 \/ 122 < code q -> c = q.
Proof.
  unfold foldCase. destruct ((65 <=? code c) && (code c <=? 90)) eqn:E; [|tauto].
  intros <- H. exfalso. apply andb_true_iff in E as [E1 E2].
  apply Z.leb_le in E1, E2. rewrite code_of_code in H; lia.
Qed.

Lemma foldCase_is_open (c : ascii) : foldCase c = "["%char -> c = "["%char.
Proof. intros H. apply (foldCase_fixed c _ H). vm_compute. left. reflexivity. Qed.

(** A case-insensitive prefix test against a pattern made of the characters
    of the two markers. *)
Lemma stripPrefix_i_spec (pat : string) :
  (forall p, In p (list_ascii_of_string pat) -> In p patternChars) ->
  forall s r,
    stripPrefix_i pat s = Some r
    <-> exists tok, s = tok +:+ r /\ lowerAscii tok = lowerAscii pat.
Proof.
  induction pat as [|p pat' IH]; intros Hpat s r.
  - simpl. split.
    + intros [= <-]. exists "". split; reflexivity.
    + intros (tok & -> & Ht). apply lowerAscii_nil in Ht. subst tok. reflexivity.
  - assert (Hp : In p patternChars) by (apply Hpat; simpl; tauto).
    assert (Hpat' : forall q, In q (list_ascii_of_string pat') -> In q patternChars)
      by (intros q Hq; apply Hpat; simpl; tauto).
    specialize (IH Hpat').
    destruct s as [|c s'].
    + simpl. split; [discriminate|].
      intros (tok & Hs & Ht). destruct tok as [|x t]; [discriminate Ht|discriminate Hs].
    + cbn [stripPrefix_i]. rewrite (proj1 (charTable_at c) p Hp).
      destruct (Ascii.eqb (foldCase c) (foldCase p)) eqn:E.
      * apply Ascii.eqb_eq in E. rewrite IH. split.
        -- intros (tok & -> & Ht). exists (String c tok). split; [reflexivity|].
           simpl. now rewrite E, Ht.
        -- intros (tok & Hs & Ht). destruct tok as [|x t]; [discriminate Ht|].
           rewrite append_cons in Hs. injection Hs as -> ->.
           simpl in Ht. injection Ht as _ Ht. exists t. split; [reflexivity|exact Ht].
      * apply Ascii.eqb_neq in E. split; [discriminate|].
        intros (tok & Hs & Ht). destruct tok as [|x t]; [discriminate Ht|].
        rewrite append_cons in Hs. injection Hs as -> ->.
        simpl in Ht. injection Ht as Hx _. contradiction.
Qed.

Lemma stripPrefix_reference (s r : string) :
  stripPrefix_i "[Reference]" s = Some r
  <-> exists tok, s = tok +:+ r /\ lowerAscii tok = "[reference]".
Proof.
  apply (stripPrefix_i_spec "[Reference]").
  intros p Hp. simpl in Hp |- *. tauto.
Qed.

Lemma stripPrefix_source (s r : string) :
  stripPrefix_i "[Source" s = Some r
  <-> exists tok, s = tok +:+ r /\ lowerAscii tok = "[source".
Proof.
  apply (stripPrefix_i_spec "[Source").
  intros p Hp. simpl in Hp |- *. tauto.
Qed.

(** [/\[Reference\]/i.test] finds the marker wherever it stands. *)
Lemma testReference_spec (s : string) :
  testReference s = true <-> hasReferenceToken s.
Proof.
  split.
  - induction s as [|c r IH]; [discriminate|].
    cbn [testReference].
    destruct (stripPrefix_i "[Reference]" (String c r)) as [rest|] eqn:E.
    + intros _. apply stripPrefix_reference in E as (tok & Hs & Ht).
      exists "", tok, rest. split; [exact Hs|exact Ht].
    + intros H. destruct (IH H) as (pre & tok & post & -> & Ht).
      exists (String c pre), tok, post. split; [reflexivity|exact Ht].
  - intros (pre & tok & post & Hs & Ht). revert s Hs.
    induction pre as [|c pre' IH]; intros s Hs.
    + change ("" +:+ tok +:+ post) with (tok +:+ post) in Hs.
      assert (E : stripPrefix_i "[Reference]" s = Some post)
        by (apply stripPrefix_reference; eauto).
      destruct s as [|c r]; [discriminate E|].
      cbn [testReference]. now rewrite E.
    + rewrite append_cons in Hs. subst s. cbn [testReference].
      destruct (stripPrefix_i "[Reference]" _); [reflexivity|].
      now apply IH.
Qed.

Lemma isEmpty_length (s : string) : isEmpty s = false <-> s <> "".
Proof.
  destruct s; unfold isEmpty; simpl; split; intros; congruence.
Qed.

(** One attempt of the source pattern succeeds exactly on a marker that
    starts here. *)
Lemma matchSourceAt_spec (s ds rest : string) :
  matchSourceAt s = Some (ds, rest)
  <-> exists tok ws,
        s = tok +:+ ws +:+ ds +:+ "]" +:+ rest
        /\ lowerAscii tok = "[source"
        /\ isEmpty ws = false /\ allOf isWhiteSpace ws = true
        /\ isEmpty ds = false /\ allOf isDigit ds = true.
Proof.
  unfold matchSourceAt. split.
  - destruct (stripPrefix_i "[Source" s) as [r|] eqn:E; [|discriminate].
    apply stripPrefix_source in E as (tok & Hs & Ht).
    pose proof (span_spec isWhiteSpace r) as (Hr & Hws & _).
    destruct (span isWhiteSpace r) as [ws r1]. cbn [fst snd] in *.
    destruct (isEmpty ws) eqn:Ews; [discriminate|].
    pose proof (span_spec isDigit r1) as (Hr1 & Hds & _).
    destruct (span isDigit r1) as [ds' r2]. cbn [fst snd] in *.
    destruct (isEmpty ds') eqn:Eds; [discriminate|].
    destruct r2 as [|c r3]; [discriminate|].
    destruct (Ascii.eqb c "]") eqn:Ec.
    + apply Ascii.eqb_eq in Ec. subst c. intros [= <- <-].
      exists tok, ws. rewrite Hs, Hr, Hr1. tauto.
    + intros H. exfalso. apply Ascii.eqb_neq in Ec.
      destruct c as [[] [] [] [] [] [] [] []]; try discriminate H. now apply Ec.
  - intros (tok & ws & Hs & Ht & Ews & Hws & Eds & Hds).
    assert (E : stripPrefix_i "[Source" s = Some (ws +:+ ds +:+ "]" +:+ rest))
      by (apply stripPrefix_source; eauto).
    rewrite E.
    assert (E1 : span isWhiteSpace (ws +:+ ds +:+ "]" +:+ rest)
                 = (ws, ds +:+ "]" +:+ rest)).
    { apply span_append; [exact Hws|].
      destruct ds as [|d ds']; [discriminate Eds|]. rewrite append_cons.
      simpl in Hds. apply andb_true_iff in Hds as [Hd _].
      exact (proj1 (proj2 (charTable_at d)) Hd). }
    rewrite E1, Ews.
    assert (E2 : span isDigit (ds +:+ "]" +:+ rest) = (ds, "]" +:+ rest))
      by (apply span_append; [exact Hds|reflexivity]).
    rewrite E2, Eds. reflexivity.
Qed.

Lemma hasSourceToken_cons (ds : string) (c : ascii) (s : string) :
  hasSourceToken ds s -> hasSourceToken ds (String c s).
Proof.
  intros (pre & tok & ws & post & -> & H). exists (String c pre), tok, ws, post.
  split; [reflexivity|exact H].
Qed.

(** Every capture of the scan is the numeral of a marker of the string. *)
Lemma scanSource_sound (ds s : string) (skip : nat) :
  In ds (scanSource s skip) -> hasSourceToken ds s.
Proof.
  revert skip. induction s as [|c r IH]; intros skip; [intros []|].
  cbn [scanSource]. destruct skip as [|k].
  - destruct (matchSourceAt (String c r)) as [[ds0 rest]|] eqn:E.
    + intros [<-|H].
      * apply matchSourceAt_spec in E as (tok & ws & Hs & H).
        exists "", tok, ws, rest. split; [exact Hs|exact H].
      * apply hasSourceToken_cons. exact (IH _ H).
    + intros H. apply hasSourceToken_cons. exact (IH _ H).
  - intros H. apply hasSourceToken_cons. exact (IH _ H).
Qed.

Lemma token_head (tok : string) :
  lowerAscii tok = "[source" ->
  exists t, tok = String "[" t /\ allOf notOpen t = true.
Proof.
  intros H. destruct tok as [|c t]; [discriminate|].
  simpl in H. injection H as Hc Ht. exists t. split.
  - now rewrite (foldCase_is_open c Hc).
  - apply lowerAscii_notOpen. rewrite Ht. reflexivity.
Qed.

(** The characters of a marker after its opening bracket are no opening
    brackets, so a marker never starts inside another. *)
Lemma scanSource_complete (ds : string) :
  forall s skip pre tok ws post a b,
    s = pre +:+ tok +:+ ws +:+ ds +:+ "]" +:+ post ->
    lowerAscii tok = "[source" ->
    isEmpty ws = false -> allOf isWhiteSpace ws = true ->
    isEmpty ds = false -> allOf isDigit ds = true ->
    s = a +:+ b -> String.length a = skip -> allOf notOpen a = true ->
    In ds (scanSource s skip).
Proof.
  induction s as [|c r IH];
    intros skip pre tok ws post a b Hs Ht Ews Hws Eds Hds Hab Hlen Ha.
  - exfalso. destruct pre; [|discriminate Hs].
    destruct tok; [discriminate Ht|discriminate Hs].
  - cbn [scanSource]. destruct skip as [|k].
    + destruct pre as [|x pre'].
      * change ("" +:+ tok +:+ ws +:+ ds +:+ "]" +:+ post)
          with (tok +:+ ws +:+ ds +:+ "]" +:+ post) in Hs.
        assert (E : matchSourceAt (String c r) = Some (ds, post))
          by (apply matchSourceAt_spec; exists tok, ws; tauto).
        rewrite E. left. reflexivity.
      * rewrite append_cons in Hs. injection Hs as <- Hr.
        destruct (matchSourceAt (String c r)) as [[ds0 rest]|] eqn:E.
        -- right.
           apply matchSourceAt_spec in E as (tok0 & ws0 & Hs0 & Ht0 & _ & Hws0 & _ & Hds0).
           destruct (token_head tok0 Ht0) as (t0 & -> & Hopen).
           rewrite append_cons in Hs0. injection Hs0 as _ Hr0.
           apply (IH _ pre' tok ws post (t0 +:+ ws0 +:+ ds0 +:+ "]") rest);
             try assumption.
           ++ rewrite Hr0. now rewrite !append_assoc.
           ++ rewrite Hr0 at 1. cbn [String.length].
              rewrite !length_append. cbn [String.length]. lia.
           ++ rewrite !allOf_append, Hopen. cbn [andb].
              apply andb_true_iff. split; [|apply andb_true_iff; split; [|reflexivity]].
              ** apply (allOf_impl isWhiteSpace); [|exact Hws0].
                 intros y Hy. unfold notOpen.
                 rewrite (proj2 (proj2 (proj2 (charTable_at y))) Hy "["%char);
                   [reflexivity|simpl; tauto].
              ** apply (allOf_impl isDigit); [|exact Hds0].
                 intros y Hy. unfold notOpen.
                 rewrite (proj1 (proj2 (proj2 (charTable_at y))) Hy "["%char);
                   [reflexivity|simpl; tauto].
        -- apply (IH _ pre' tok ws post "" r); try assumption; reflexivity.
    + destruct a as [|y a']; [discriminate Hlen|].
      rewrite append_cons in Hab. injection Hab as <- Hr.
      simpl in Ha. apply andb_true_iff in Ha as [Hc Ha'].
      simpl in Hlen. injection Hlen as Hlen.
      destruct pre as [|x pre'].
      * exfalso. change ("" +:+ tok +:+ ws +:+ ds +:+ "]" +:+ post)
          with (tok +:+ ws +:+ ds +:+ "]" +:+ post) in Hs.
        destruct (token_head tok Ht) as (t & -> & _).
        rewrite append_cons in Hs. injection Hs as -> _. discriminate Hc.
      * rewrite append_cons in Hs. injection Hs as _ Hs.
        apply (IH _ pre' tok ws post a' b); assumption.
Qed.

(** The scan captures exactly the numerals of the markers of the string. *)
Lemma scanSource_spec (ds s : string) :
  In ds (scanSource s 0) <-> hasSourceToken ds s.
Proof.
  split; [apply scanSource_sound|].
  intros (pre & tok & ws & post & Hs & Ht & Ews & Hws & Eds & Hds).
  apply (scanSource_complete ds s 0%nat pre tok ws post "" s); auto.
Qed.

End TokenFacts.

Section IndexFacts.
Import JsString JsNumber JsValue Shared Tokens.

Lemma natural_sameValueZero (x y : number) :
  isNatural x = true -> isNatural y = true -> sameValueZero x y = true -> x = y.
Proof.
  destruct x as [[]|[]| |[] m e], y as [[]|[]| |[] m' e'];
    simpl; try discriminate; try reflexivity.
  intros _ _ H. apply andb_true_iff in H as [Hm He].
  apply Pos.eqb_eq in Hm. apply Z.eqb_eq in He. now subst.
Qed.

Lemma natural_sameValueZero_refl (x : number) :
  isNatural x = true -> sameValueZero x x = true.
Proof.
  destruct x as [[]|[]| |[] m e]; simpl; try discriminate; try reflexivity.
  intros _. now rewrite Pos.eqb_refl, Z.eqb_refl.
Qed.

(** [[...new Set(l)]] has the members of [l], for natural numbers. *)
Lemma unique_In (l : list number) (x : number) :
  (forall y, In y l -> isNatural y = true) ->
  In x (unique l) <-> In x l.
Proof.
  unfold unique. intros Hl.
  assert (G : forall acc,
             (forall y, In y acc -> isNatural y = true) ->
             In x (fold_left
                     (fun acc x => if existsb (sameValueZero x) acc then acc
                                   else (acc ++ [x])%list) l acc)
             <-> In x acc \/ In x l).
  { induction l as [|y l IH]; intros acc Hacc; simpl; [tauto|].
    assert (Hy : isNatural y = true) by (apply Hl; simpl; tauto).
    assert (Hl' : forall z, In z l -> isNatural z = true)
      by (intros z Hz; apply Hl; simpl; tauto).
    destruct (existsb (sameValueZero y) acc) eqn:E.
    - rewrite (IH Hl' acc Hacc).
      apply existsb_exists in E as (z & Hz & Hyz).
      apply (natural_sameValueZero y z Hy (Hacc z Hz)) in Hyz. subst z.
      split; [tauto|]. intros [H|[<-|H]]; tauto.
    - rewrite (IH Hl' (acc ++ [y])%list).
      + rewrite in_app_iff. simpl. tauto.
      + intros z Hz. apply in_app_iff in Hz as [Hz|[<-|[]]]; auto. }
  rewrite (G [] (fun y (H : In y []) => match H with end)). simpl. tauto.
Qed.

(** For a natural index the three tests of the filter come down to the
    comparison with the count. *)
Lemma isOutOfRange_natural (count : nat) (x : number) :
  isNatural x = true -> isOutOfRange count x = geb x (ofNat count).
Proof.
  intros Hx. unfold isOutOfRange.
  pose proof (ofZ_natural (Z.of_nat count) (Zle_0_nat count)) as Hc.
  fold (ofNat count) in Hc.
  destruct x as [[]|[]| |[] m e]; try discriminate Hx.
  - reflexivity.
  - destruct (ofNat count) as [[]|[]| |[] m' e']; try discriminate Hc; reflexivity.
  - simpl in Hx. rewrite Hx. cbn [negb orb].
    assert (Hlt : ltb (S754_finite false m e) zero = false).
    { unfold ltb, compare, zero. cbn [num den cond_Zopp].
      pose proof (Z.pow_pos_nonneg 2 (Z.max e 0)).
      destruct (Z.compare_spec (Z.pos m * 2 ^ Z.max e 0 * 1) (0 * 2 ^ Z.max (- e) 0));
        try reflexivity; lia. }
    rewrite Hlt. reflexivity.
Qed.

End IndexFacts.

Section TrimFacts.
Import JsString JsNumber JsValue Shared Tokens.

Lemma trimStart_lead (s : string) : exists lead, s = lead +:+ trimStart s.
Proof.
  induction s as [|c r [lead IH]]; [exists ""; reflexivity|].
  simpl. destruct (isWhiteSpace c).
  - exists (String c lead). rewrite append_cons. now f_equal.
  - exists "". reflexivity.
Qed.

Lemma trimEnd_trail (s : string) : exists trail, s = trimEnd s +:+ trail.
Proof.
  induction s as [|c r [trail IH]]; [exists ""; reflexivity|].
  simpl. destruct (isWhiteSpace c && isEmpty (trimEnd r)).
  - exists (String c r). reflexivity.
  - exists trail. rewrite append_cons. now f_equal.
Qed.

Lemma trim_inside (s : string) : exists lead trail, s = lead +:+ trim s +:+ trail.
Proof.
  destruct (trimStart_lead s) as [lead H], (trimEnd_trail (trimStart s)) as [trail H'].
  exists lead, trail. unfold trim. now rewrite <- H', <- H.
Qed.

Lemma trimStart_keeps (pre : string) (c : ascii) (u : string) :
  isWhiteSpace c = false ->
  exists pre', trimStart (pre +:+ String c u) = pre' +:+ String c u.
Proof.
  intros Hc. induction pre as [|x pre IH].
  - exists "". change ("" +:+ String c u) with (String c u). simpl. now rewrite Hc.
  - rewrite append_cons. simpl. destruct (isWhiteSpace x); [exact IH|].
    exists (String x pre). reflexivity.
Qed.

Lemma trimEnd_prefix (t post : string) :
  allOf (fun c => negb (isWhiteSpace c)) t = true ->
  trimEnd (t +:+ post) = t +:+ trimEnd post.
Proof.
  induction t as [|c r IH]; intros H; [reflexivity|].
  simpl in H. apply andb_true_iff in H as [Hc Hr]. apply negb_true_iff in Hc.
  rewrite !append_cons. simpl. now rewrite Hc, (IH Hr).
Qed.

Lemma trimEnd_keeps (pre u : string) :
  isEmpty (trimEnd u) = false -> trimEnd (pre +:+ u) = pre +:+ trimEnd u.
Proof.
  intros Hu. induction pre as [|x pre IH]; [reflexivity|].
  rewrite !append_cons. simpl. rewrite IH.
  assert (E : isEmpty (pre +:+ trimEnd u) = false).
  { destruct pre; [exact Hu|reflexivity]. }
  now rewrite E, andb_false_r.
Qed.

Lemma foldCase_white (c : ascii) : isWhiteSpace c = true -> foldCase c = c.
Proof.
  unfold isWhiteSpace, foldCase. intros H.
  destruct ((65 <=? code c) && (code c <=? 90)) eqn:E; [|reflexivity].
  exfalso. apply andb_true_iff in E as [E1 E2]. apply Z.leb_le in E1, E2.
  apply orb_true_iff in H as [H|H]; [apply orb_true_iff in H as [H|H]|].
  - apply andb_true_iff in H as [_ H]. apply Z.leb_le in H. lia.
  - apply Z.eqb_eq in H. lia.
  - apply Z.eqb_eq in H. lia.
Qed.

Lemma lowerAscii_black (t : string) :
  allOf (fun c => negb (isWhiteSpace c)) (lowerAscii t) = true ->
  allOf (fun c => negb (isWhiteSpace c)) t = true.
Proof.
  induction t as [|c r IH]; simpl; [reflexivity|].
  intros H. apply andb_true_iff in H as [Hc Hr]. rewrite (IH Hr), andb_true_r.
  destruct (isWhiteSpace c) eqn:E; [|reflexivity].
  now rewrite (foldCase_white c E), E in Hc.
Qed.

Lemma token_open (tok rest : string) :
  lowerAscii tok = String "[" rest -> exists t, tok = String "[" t.
Proof.
  intros H. destruct tok as [|c t]; [discriminate|].
  simpl in H. injection H as Hc _. exists t. now rewrite (foldCase_is_open c Hc).
Qed.

(** Trimming the prompt neither removes nor creates a marker: a marker
    starts with its opening bracket and ends with its closing one. *)
Lemma hasReferenceToken_trim (s : string) :
  hasReferenceToken (trim s) <-> hasReferenceToken s.
Proof.
  split.
  - intros (pre & tok & post & Hs & Ht).
    destruct (trim_inside s) as (lead & trail & H).
    exists (lead +:+ pre), tok, (post +:+ trail). split; [|exact Ht].
    rewrite H at 1. rewrite Hs. now rewrite !append_assoc.
  - intros (pre & tok & post & -> & Ht).
    destruct (token_open tok _ Ht) as [t Htok].
    assert (Hblack : allOf (fun c => negb (isWhiteSpace c)) tok = true)
      by (apply lowerAscii_black; rewrite Ht; reflexivity).
    unfold trim.
    destruct (trimStart_keeps pre "["%char (t +:+ post) eq_refl) as [pre' Hpre].
    rewrite Htok, append_cons, Hpre, <- append_cons, <- Htok.
    rewrite trimEnd_keeps; rewrite trimEnd_prefix by exact Hblack.
    + exists pre', tok, (trimEnd post). split; [reflexivity|exact Ht].
    + rewrite Htok. reflexivity.
Qed.

Lemma hasSourceToken_trim (ds s : string) :
  hasSourceToken ds (trim s) <-> hasSourceToken ds s.
Proof.
  split.
  - intros (pre & tok & ws & post & Hs & Ht).
    destruct (trim_inside s) as (lead & trail & H).
    exists (lead +:+ pre), tok, ws, (post +:+ trail). split; [|exact Ht].
    rewrite H at 1. rewrite Hs. now rewrite !append_assoc.
  - intros (pre & tok & ws & post & -> & Ht & Ews & Hws & Eds & Hds).
    destruct (token_open tok _ Ht) as [t Htok].
    assert (Hblack : allOf (fun c => negb (isWhiteSpace c)) (ds +:+ "]") = true).
    { rewrite allOf_append. apply andb_true_iff. split; [|reflexivity].
      apply (allOf_impl isDigit); [|exact Hds].
      intros c Hc. now rewrite (proj1 (proj2 (charTable_at c)) Hc). }
    unfold trim.
    destruct (trimStart_keeps pre "["%char (t +:+ ws +:+ ds +:+ "]" +:+ post) eq_refl)
      as [pre' Hpre].
    rewrite Htok, append_cons, Hpre, <- append_cons, <- Htok.
    assert (E : trimEnd (ds +:+ "]" +:+ post) = ds +:+ "]" +:+ trimEnd post).
    { rewrite <- !append_assoc. apply trimEnd_prefix. exact Hblack. }
    replace (pre' +:+ tok +:+ ws +:+ ds +:+ "]" +:+ post)
      with ((pre' +:+ tok +:+ ws) +:+ ds +:+ "]" +:+ post)
      by (now rewrite !append_assoc).
    rewrite trimEnd_keeps; rewrite E.
    + exists pre', tok, ws, (trimEnd post). split; [now rewrite !append_assoc|tauto].
    + destruct ds; [discriminate Eds|reflexivity].
Qed.

Lemma ofString_digits_ofZ (ds : string) :
  isEmpty ds = false -> allOf isDigit ds = true ->
  ofString ds = ofZ (digitsValue ds).
Proof.
  intros Hne Hd. rewrite (ofString_digits ds Hne Hd).
  pose proof (digitsValue_nonneg ds Hd) as H.
  destruct (digitsValue ds) as [|p|p]; [reflexivity| |lia].
  unfold ofDecimal, ofZ, binary_normalize, ofPositive. cbn [Z.leb Z.compare Z.pow Z.to_pos].
  now rewrite Pos.mul_1_r.
Qed.

Lemma unique_NoDup (l : list number) :
  (forall y, In y l -> isNatural y = true) -> NoDup (unique l).
Proof.
  unfold unique. intros Hl.
  assert (G : forall acc, NoDup acc ->
             NoDup (fold_left
                      (fun acc x => if existsb (sameValueZero x) acc then acc
                                    else (acc ++ [x])%list) l acc)).
  { induction l as [|y l IH]; intros acc Hacc; simpl; [exact Hacc|].
    assert (Hy : isNatural y = true) by (apply Hl; simpl; tauto).
    assert (Hl' : forall z, In z l -> isNatural z = true)
      by (intros z Hz; apply Hl; simpl; tauto).
    destruct (existsb (sameValueZero y) acc) eqn:E; [now apply IH|].
    apply (IH Hl'). apply NoDup_app. split; [exact Hacc|]. split.
    - intros z Hz Hzy. apply list_elem_of_In in Hz.
      apply list_elem_of_singleton in Hzy. subst z.
      assert (existsb (sameValueZero y) acc = true); [|congruence].
      apply existsb_exists. exists y. split; [exact Hz|].
      now apply natural_sameValueZero_refl.
    - apply NoDup_singleton. }
  apply G. constructor.
Qed.

End TrimFacts.

Section PromptIndexing.
Import JsString JsNumber JsValue Shared Tokens.

(** C7. [extractPromptIndexing] finds the markers [[Reference]] and
    [[Source k]] of the prompt whatever their letter case: on the prompt
    ["Use [Reference] with [Source 0] and [Source 5]"] with two sources it
    returns [usesReference = true], the indexes 0 and 5 and the out-of-range
    index 5; and on every prompt and every count of sources it returns,
    without repetitions, the indexes that are the decimal value of the
    numeral of some [[Source k]] marker of the prompt, with out of range
    exactly those of them that are at least the count, and [usesReference]
    is true exactly when the prompt has a [[Reference]] marker. *)
Theorem extractPromptIndexing_tokens :
  extractPromptIndexing (VString "Use [Reference] with [Source 0] and [Source 5]") 2
  = Ok (VObject [("usesReference", VBool true);
                 ("sourceIndexes", VArray [VNumber (ofZ 0); VNumber (ofZ 5)]);
                 ("outOfRange", VArray [VNumber (ofZ 5)])])
  /\ forall (prompt : string) (sourceCount : nat),
       exists uses indexes outOfRange,
         extractPromptIndexing (VString prompt) sourceCount
         = Ok (VObject [("usesReference", VBool uses);
                        ("sourceIndexes", VArray (map VNumber indexes));
                        ("outOfRange", VArray (map VNumber outOfRange))])
         /\ (uses = true <-> hasReferenceToken prompt)
         /\ (forall x, In x indexes
                       <-> exists ds, hasSourceToken ds prompt /\ x = ofZ (digitsValue ds))
         /\ (forall x, In x outOfRange
                       <-> In x indexes /\ geb x (ofNat sourceCount) = true)
         /\ NoDup indexes /\ NoDup outOfRange.
Proof.
  split; [vm_compute; reflexivity|].
  intros prompt sourceCount.
  set (matches := scanSource (trim prompt) 0).
  set (indexes := map ofString matches).
  assert (Hmatch : forall ds, In ds matches -> isEmpty ds = false /\ allOf isDigit ds = true).
  { intros ds H. apply scanSource_spec in H as (? & ? & ? & ? & ? & ? & ? & ? & ? & ?).
    tauto. }
  assert (Hnat : forall y, In y indexes -> isNatural y = true).
  { intros y H. apply in_map_iff in H as (ds & <- & H).
    destruct (Hmatch ds H). now apply ofString_digits_natural. }
  assert (Hnat' : forall y, In y (List.filter (isOutOfRange sourceCount) indexes)
                            -> isNatural y = true).
  { intros y H. apply filter_In in H as [H _]. now apply Hnat. }
  exists (testReference (trim prompt)), (unique indexes),
    (unique (List.filter (isOutOfRange sourceCount) indexes)).
  split; [reflexivity|]. split; [|split; [|split; [|split]]].
  - rewrite testReference_spec. apply hasReferenceToken_trim.
  - intros x. rewrite (unique_In indexes x Hnat). unfold indexes.
    rewrite in_map_iff. split.
    + intros (ds & <- & H). exists ds. destruct (Hmatch ds H) as [Hne Hd].
      split; [|now apply ofString_digits_ofZ].
      apply hasSourceToken_trim. now apply scanSource_spec.
    + intros (ds & H & ->). exists ds.
      apply hasSourceToken_trim, scanSource_spec in H. fold matches in H.
      destruct (Hmatch ds H) as [Hne Hd].
      split; [now apply ofString_digits_ofZ|exact H].
  - intros x. rewrite (unique_In _ x Hnat'), (unique_In indexes x Hnat), filter_In.
    split; intros [H1 H2]; (split; [exact H1|]).
    + now rewrite <- (isOutOfRange_natural sourceCount x (Hnat x H1)).
    + now rewrite (isOutOfRange_natural sourceCount x (Hnat x H1)).
  - now apply unique_NoDup.
  - now apply unique_NoDup.
Qed.

End PromptIndexing.

(* --------------------------------------------------------------------- *)
(** ** What an accepted contract and a status response look like          *)
(* --------------------------------------------------------------------- *)

Section AcceptedFacts.
Import JsString JsNumber JsValue Shared Spec.

Lemma ensureString_fixed (value : Value) (field : string) (allowEmpty : bool) (t : string) :
  ensureString value field allowEmpty = Ok t ->
  trim t = t /\ (allowEmpty = false -> isEmpty t = false).
Proof.
  intros H. destruct (ensureString_ok _ _ _ _ H) as (s & _ & -> & Hne).
  split; [apply trim_idempotent|exact Hne].
Qed.

(** An accepted weight is a multiple of 0.0001 between 0 and 1. *)
Lemma ensureWeight_range (value : Value) (field : string) (w : number) :
  ensureWeight value field = Ok w ->
  inUnitInterval w = true
  /\ exists n, 0 <= n <= 10000 /\ w = ofDecimal false n (-4).
Proof.
  intros H. unfold ensureWeight in H. rewrite coerce_toNumber in H.
  destruct (toNumber value) as [parsed|e]; [|discriminate].
  cbn [bind] in H.
  destruct (isFinite parsed) eqn:Hf; [|discriminate]. cbn [negb] in H.
  destruct (ltb parsed zero) eqn:Hl; [discriminate|].
  destruct (gtb parsed (ofZ 1)) eqn:Hg; [discriminate|].
  cbn [orb] in H. injection H as <-.
  destruct (stored_weight parsed Hf Hl Hg) as [-> Hn].
  destruct (weightTable_at _ Hn) as (_ & Hf' & Hl' & Hg' & _). cbv zeta in *.
  fold (round4 parsed) in *. split.
  - rewrite (inUnitInterval_code _ Hf'), Hl', Hg'. reflexivity.
  - exists (roundScaled parsed 4). split; [exact Hn|reflexivity].
Qed.

Lemma validateSource_shape (value s : Value) (i : nat) :
  validateSource value i = Ok s ->
  exists r f w,
    s = VObject [("imageRef", VString r); ("featureType", VString f);
                 ("weight", VNumber w)]
    /\ trim r = r /\ isEmpty r = false
    /\ In f FEATURE_TYPES /\ inUnitInterval w = true.
Proof.
  unfold validateSource.
  destruct (negb (isRecord value)); [discriminate|].
  intros H. bind_ok H.
  destruct (includes FEATURE_TYPES (toUpperCase x)) eqn:Hin; [|discriminate].
  cbn [negb] in H. bind_ok H. bind_ok H. injection H as <-.
  destruct (ensureString_fixed _ _ _ _ E0) as [Ht Hne].
  exists x0, (toUpperCase x), x1. split; [reflexivity|].
  split; [exact Ht|]. split; [now apply Hne|].
  split; [now apply includes_cases|].
  exact (proj1 (ensureWeight_range _ _ _ E1)).
Qed.

Lemma mapIndexed_shape (l l' : list Value) (i : nat) :
  mapIndexed validateSource i l = Ok l' ->
  length l' = length l
  /\ forall s, In s l' -> exists v j, In v l /\ validateSource v j = Ok s.
Proof.
  revert l' i. induction l as [|v r IH]; intros l' i H; simpl in H.
  - injection H as <-. split; [reflexivity|intros s []].
  - bind_ok H. bind_ok H. injection H as <-.
    destruct (IH _ _ E0) as [IH1 IH2]. split; [simpl; now rewrite IH1|].
    intros s [<-|Hs].
    + exists v, i. split; [now left|exact E].
    + destruct (IH2 s Hs) as (v' & j & Hv & Hj). exists v', j.
      split; [now right|exact Hj].
Qed.

(** X1.  A contract that [validateGenerationContract] returns is an object
    with exactly the five properties [taskId], [prompt], [negativePrompt],
    [reference] and [sources]: the task id, the prompt and every image
    reference are trimmed and not empty, the negative prompt is trimmed,
    every weight lies between 0 and 1, every feature type is one of the four
    known ones, and there is one source for each element of the input
    array, which has at least one. *)
Theorem validateGenerationContract_result (input contract : Value) :
  validateGenerationContract input = Ok contract ->
  exists taskId prompt negativePrompt imageRef weight sources,
    contract
    = VObject [("taskId", VString taskId);
               ("prompt", VString prompt);
               ("negativePrompt", VString negativePrompt);
               ("reference",
                VObject [("imageRef", VString imageRef); ("weight", VNumber weight)]);
               ("sources", VArray sources)]
    /\ (trim taskId = taskId /\ isEmpty taskId = false)
    /\ (trim prompt = prompt /\ isEmpty prompt = false)
    /\ trim negativePrompt = negativePrompt
    /\ (trim imageRef = imageRef /\ isEmpty imageRef = false)
    /\ inUnitInterval weight = true
    /\ (sources <> [] /\ length sources = length (arrayItems (get "sources" input)))
    /\ forall s, In s sources ->
         exists r f w,
           s = VObject [("imageRef", VString r); ("featureType", VString f);
                        ("weight", VNumber w)]
           /\ trim r = r /\ isEmpty r = false
           /\ In f FEATURE_TYPES /\ inUnitInterval w = true.
Proof.
  unfold validateGenerationContract.
  destruct (negb (isRecord input)); [discriminate|].
  intros H. bind_ok H. bind_ok H. bind_ok H. bind_ok H.
  destruct (get "sources" input) as [| | | | |[|s rest]|] eqn:Hsrc; try discriminate.
  bind_ok H. injection H as <-.
  unfold validateReference in E2.
  destruct (negb (isRecord (get "reference" input))); [discriminate|].
  bind_ok E2. bind_ok E2. injection E2 as <-.
  destruct (ensureString_fixed _ _ _ _ E) as [Ht1 Hn1].
  destruct (ensureString_fixed _ _ _ _ E0) as [Ht2 Hn2].
  destruct (ensureString_fixed _ _ _ _ E4) as [Ht3 Hn3].
  destruct (mapIndexed_shape _ _ _ E3) as [Hlen Hall].
  exists x, x0, x1, x4, x5, x3.
  split; [reflexivity|]. split; [auto|]. split; [auto|]. split.
  { destruct (get "negativePrompt" input);
      try exact (proj1 (ensureString_fixed _ _ _ _ E1)).
    injection E1 as <-. reflexivity. }
  split; [auto|]. split; [exact (proj1 (ensureWeight_range _ _ _ E5))|].
  split.
  - split; [|exact Hlen]. intros ->. discriminate Hlen.
  - intros s0 Hs0. destruct (Hall s0 Hs0) as (v & j & _ & Hv).
    exact (validateSource_shape _ _ _ Hv).
Qed.

Lemma validateGenerationContract_result_witness :
  exists contract,
    validateGenerationContract Examples.demoBody = Ok contract
    /\ get "sources" contract <> VArray [].
Proof.
  assert (H : exists c, validateGenerationContract Examples.demoBody = Ok c)
    by (eexists; vm_compute; reflexivity).
  destruct H as [c H]. exists c. split; [exact H|].
  destruct (validateGenerationContract_result _ _ H)
    as (t & p & n & r & w & ss & -> & _ & _ & _ & _ & _ & [Hne _] & _).
  simpl. intros [= E]. now apply Hne.
Defined.

Lemma statuses_fixed (s : string) :
  includes TASK_STATUSES s = true ->
  trim s = s /\ toUpperCase s = s /\ isEmpty s = false.
Proof.
  intros H. apply includes_cases in H. simpl in H.
  destruct H as [<-|[<-|[<-|[<-|[]]]]]; repeat split; reflexivity.
Qed.

Lemma trimmedOrNull_idempotent (v : Value) :
  trimmedOrNull (trimmedOrNull v) = trimmedOrNull v.
Proof.
  destruct v; try reflexivity. simpl.
  destruct (isEmpty (trim s)) eqn:E; [reflexivity|].
  simpl. now rewrite trim_idempotent, E.
Qed.

Lemma filter_idempotent {A : Type} (f : A -> bool) (l : list A) :
  List.filter f (List.filter f l) = List.filter f l.
Proof.
  induction l as [|x l IH]; [reflexivity|]. simpl.
  destruct (f x) eqn:E; [|exact IH]. simpl. now rewrite E, IH.
Qed.

(** X2.  [createStatusResponse] is idempotent: a status response that it
    returns is accepted again and returned unchanged, whatever the time of
    the second call ([new Date().toISOString()] is never empty). *)
Theorem createStatusResponse_idempotent (input out : Value) (now now' : string) :
  isEmpty now = false ->
  createStatusResponse input now = Ok out ->
  createStatusResponse out now' = Ok out.
Proof.
  intros Hnow. unfold createStatusResponse at 1.
  destruct (negb (isRecord input)); [discriminate|].
  intros H. bind_ok H.
  bind_ok H.
  destruct (includes TASK_STATUSES (toUpperCase x0)) eqn:Hin; [|discriminate].
  cbn [negb] in H. injection H as <-.
  destruct (statuses_fixed _ Hin) as (Ht & Hu & Hne).
  unfold createStatusResponse.
  cbn [isRecord negb get lookup String.eqb Ascii.eqb Bool.eqb].
  rewrite (ensureString_stable _ _ _ _ _ E). cbn [bind].
  unfold ensureString at 1. rewrite Ht, Hne. cbn [negb andb bind].
  rewrite Hu, Hin. cbn [negb].
  rewrite !trimmedOrNull_idempotent.
  assert (Hw : forall v,
             List.filter isNonBlankString
               match v with VArray items => List.filter isNonBlankString items | _ => [] end
             = match v with VArray items => List.filter isNonBlankString items | _ => [] end).
  { intros v. destruct v; try reflexivity. apply filter_idempotent. }
  cbn [List.filter]. rewrite Hw.
  do 8 f_equal.
  destruct (get "updatedAt" input) as [| | | |s| |];
    try (destruct now; [discriminate Hnow|reflexivity]).
  destruct s as [|c s']; [|reflexivity].
  cbn [isEmpty negb]. destruct now; [discriminate Hnow|reflexivity].
Qed.

Lemma createStatusResponse_idempotent_witness :
  exists out,
    createStatusResponse Examples.sampleTask "2026-01-01T00:00:00.000Z" = Ok out
    /\ createStatusResponse out "2026-01-02T00:00:00.000Z" = Ok out.
Proof.
  eexists. split; [vm_compute; reflexivity|].
  apply (createStatusResponse_idempotent Examples.sampleTask _
           "2026-01-01T00:00:00.000Z"); [reflexivity|].
  vm_compute. reflexivity.
Defined.

End AcceptedFacts.

(* --------------------------------------------------------------------- *)
(** ** Image references                                                   *)
(* --------------------------------------------------------------------- *)

Section ImageRefFacts.
Import JsString JsValue Engine Tokens.

Lemma stripPrefix_spec (pat s r : string) :
  stripPrefix pat s = Some r <-> s = pat +:+ r.
Proof.
  revert s. induction pat as [|p pat IH]; intros s.
  - simpl. split; [intros [= ->]; reflexivity|intros ->; reflexivity].
  - destruct s as [|c s']; simpl.
    + split; [discriminate|]. rewrite append_cons. discriminate.
    + rewrite append_cons. destruct (Ascii.eqb c p) eqn:E.
      * apply Ascii.eqb_eq in E. subst c. rewrite IH.
        split; [intros ->; reflexivity|intros [= ->]; reflexivity].
      * apply Ascii.eqb_neq in E. split; [discriminate|].
        intros [= -> _]. now destruct E.
Qed.

Lemma isEmpty_false (s : string) : isEmpty s = false <-> s <> "".
Proof. destruct s; simpl; split; intros; congruence. Qed.

Lemma parseDataUrl_shape (dataUrl : string) (v : Value) :
  parseDataUrl dataUrl = Ok v
  <-> exists mime data,
        dataUrl = "data:" +:+ mime +:+ ";base64," +:+ data
        /\ v = VObject [("mimeType", VString mime); ("data", VString data)]
        /\ isEmpty mime = false
        /\ allOf (fun c => negb (Ascii.eqb c ";" || Ascii.eqb c ",")) mime = true
        /\ isEmpty data = false /\ hasLineTerminator data = false.
Proof.
  split.
  - unfold parseDataUrl.
    destruct (stripPrefix "data:" dataUrl) as [r|] eqn:E; [|discriminate].
    apply stripPrefix_spec in E.
    pose proof (span_spec (fun c => negb (Ascii.eqb c ";" || Ascii.eqb c ",")) r)
      as (Hr & Hm & _).
    destruct (span _ r) as [mime r1]. cbn [fst snd] in *.
    destruct (stripPrefix ";base64," r1) as [data|] eqn:E1; [|discriminate].
    apply stripPrefix_spec in E1.
    destruct (isEmpty mime) eqn:Em; [discriminate|].
    destruct (isEmpty data) eqn:Ed; [discriminate|].
    destruct (hasLineTerminator data) eqn:El; [discriminate|].
    cbn [orb]. intros [= <-]. exists mime, data.
    rewrite E, Hr, E1. tauto.
  - intros (mime & data & -> & -> & Em & Hm & Ed & El).
    unfold parseDataUrl.
    assert (E : stripPrefix "data:" ("data:" +:+ mime +:+ ";base64," +:+ data)
                = Some (mime +:+ ";base64," +:+ data))
      by (now apply stripPrefix_spec).
    rewrite E.
    rewrite (span_append _ mime (";base64," +:+ data) Hm) by reflexivity.
    assert (E1 : stripPrefix ";base64," (";base64," +:+ data) = Some data)
      by (now apply stripPrefix_spec).
    rewrite E1, Em, Ed, El. reflexivity.
Qed.

(** X3.  [parseDataUrl] accepts exactly the strings
    [data:<mime>;base64,<data>] in which the mime type is not empty and has
    no semicolon and no comma, and the data are not empty and have no line
    break; it returns these two parts unchanged.  Every other string is
    rejected with the error "Invalid data URL imageRef". *)
Theorem parseDataUrl_round_trip (dataUrl : string) (v : Value) :
  (parseDataUrl dataUrl = Ok v
   <-> exists mime data,
         dataUrl = "data:" +:+ mime +:+ ";base64," +:+ data
         /\ v = VObject [("mimeType", VString mime); ("data", VString data)]
         /\ isEmpty mime = false
         /\ allOf (fun c => negb (Ascii.eqb c ";" || Ascii.eqb c ",")) mime = true
         /\ isEmpty data = false /\ hasLineTerminator data = false)
  /\ (forall e, parseDataUrl dataUrl = Throw e ->
        e = Error "Error" "Invalid data URL imageRef. Expected data:<mime>;base64,<data>."
                  VUndefined).
Proof.
  split; [apply parseDataUrl_shape|].
  - unfold parseDataUrl. intros e.
    destruct (stripPrefix "data:" dataUrl) as [r|]; [|now intros [= <-]].
    destruct (span _ r) as [mime r1].
    destruct (stripPrefix ";base64," r1) as [data|]; [|now intros [= <-]].
    destruct (isEmpty mime || isEmpty data || hasLineTerminator data);
      [now intros [= <-]|discriminate].
Qed.

Lemma beforeSemicolon_clean (s : string) :
  allOf (fun c => negb (Ascii.eqb c ";")) (beforeSemicolon s) = true.
Proof.
  unfold beforeSemicolon.
  exact (proj1 (proj2 (span_spec (fun c => negb (Ascii.eqb c ";")) s))).
Qed.

(** X4.  Whatever [imageRefToInlineData] returns is an object with exactly
    a [mimeType] and a [data] string, and the mime type has no semicolon: it
    is the mime type of the data URL, or the content type of the download up
    to its first semicolon, or [image/png] when the download has no content
    type.  A reference that is neither a data URL nor an http(s) URL fails
    with "Unsupported imageRef format", whatever the network would answer,
    and a data URL is never downloaded. *)
Theorem imageRefToInlineData_result (env : Env) (imageRef : string) :
  (forall v, imageRefToInlineData env imageRef = Ok v ->
     exists mime data,
       v = VObject [("mimeType", VString mime); ("data", VString data)]
       /\ allOf (fun c => negb (Ascii.eqb c ";")) mime = true)
  /\ (stripPrefix "data:" imageRef = None -> isHttpUrl imageRef = false ->
      imageRefToInlineData env imageRef
      = Throw (Error "Error" "Unsupported imageRef format. Use data URL or http(s) URL."
                 VUndefined))
  /\ (forall r, stripPrefix "data:" imageRef = Some r ->
      imageRefToInlineData env imageRef = parseDataUrl imageRef).
Proof.
  split; [|split].
  - intros v. unfold imageRefToInlineData.
    destruct (stripPrefix "data:" imageRef) as [r|] eqn:E.
    + intros H. apply (proj1 (parseDataUrl_shape imageRef v)) in H
        as (mime & data & _ & -> & _ & Hm & _).
      exists mime, data. split; [reflexivity|].
      apply (allOf_impl (fun c => negb (Ascii.eqb c ";" || Ascii.eqb c ","))); [|exact Hm].
      intros c Hc. destruct (Ascii.eqb c ";"); [discriminate Hc|reflexivity].
    + destruct (isHttpUrl imageRef); [|discriminate].
      destruct (fetchImage env imageRef) as [response|]; [|discriminate].
      cbn [bind]. destruct (negb (fetch_ok response)); [discriminate|].
      intros [= <-]. do 2 eexists. split; [reflexivity|]. apply beforeSemicolon_clean.
  - intros E H. unfold imageRefToInlineData. now rewrite E, H.
  - intros r E. unfold imageRefToInlineData. now rewrite E.
Qed.

Lemma imageRefToInlineData_result_witness :
  imageRefToInlineData Examples.env "data:image/png;base64,AAAA"
  = Ok (VObject [("mimeType", VString "image/png"); ("data", VString "AAAA")])
  /\ imageRefToInlineData Examples.env "ftp://x"
     = Throw (Error "Error" "Unsupported imageRef format. Use data URL or http(s) URL."
                VUndefined).
Proof.
  split; [reflexivity|].
  apply (proj1 (proj2 (imageRefToInlineData_result Examples.env "ftp://x")));
    reflexivity.
Defined.

End ImageRefFacts.

(* --------------------------------------------------------------------- *)
(** ** The image of the provider's answer                                 *)
(* --------------------------------------------------------------------- *)

Section OutputFacts.
Import JsString JsValue Engine.

Lemma includesText_string (mimeType : Value) (needle : string) (b : bool) :
  includesText mimeType needle = Ok b ->
  forall s, mimeType = VString s -> b = containsText needle s.
Proof. intros H s ->. simpl in H. now injection H. Qed.

(** X5.  Whatever [extractOutputImage] returns has one of the three file
    extensions [jpg], [webp] and [png]: for a mime type that is a string,
    [jpg] when it contains [jpeg] or [jpg], otherwise [webp] when it
    contains [webp], otherwise [png]; the mime type returned is the one of
    the image part, or [image/png] when the part has none, and the buffer is
    made from data that are not empty. *)
Theorem extractOutputImage_extension (env : Env) (resultJson v : Value) :
  extractOutputImage env resultJson = Ok v ->
  exists buffer mimeType extension,
    v = VObject [("outputBuffer", buffer);
                 ("outputMimeType", mimeType);
                 ("outputExtension", VString extension)]
    /\ In extension ["jpg"; "webp"; "png"]
    /\ truthy mimeType = true
    /\ (forall s, mimeType = VString s ->
          extension
          = if containsText "jpeg" s || containsText "jpg" s then "jpg"
            else if containsText "webp" s then "webp" else "png")
    /\ exists data, truthy data = true /\ bufferFrom env data = Ok buffer.
Proof.
  unfold extractOutputImage.
  destruct (get "parts" (get "content" (first (get "candidates" resultJson))))
    as [| | | | |[|p ps]|]; try discriminate.
  intros H. bind_ok H.
  set (inline := orElse (get "inlineData" x) (get "inline_data" x)) in H.
  set (mimeType := orElse (orElse (get "mimeType" inline) (get "mime_type" inline))
                          (VString "image/png")) in H.
  assert (Hm : truthy mimeType = true).
  { unfold mimeType, orElse.
    destruct (truthy (if truthy (get "mimeType" inline) then get "mimeType" inline
                      else get "mime_type" inline)) eqn:Et; [exact Et|reflexivity]. }
  assert (Hrest :
    (if negb (truthy (get "data" inline)) then
       Throw (Error "Error" "Gemini image part missing base64 data." VUndefined)
     else
       let* isJpeg := includesText mimeType "jpeg" in
       let* isJpg := if isJpeg : bool then Ok true else includesText mimeType "jpg" in
       let* outputExtension :=
         if isJpg : bool then Ok "jpg"
         else let* isWebp := includesText mimeType "webp" in
              Ok (if isWebp : bool then "webp" else "png") in
       let* outputBuffer := bufferFrom env (get "data" inline) in
       Ok (VObject [("outputBuffer", outputBuffer);
                    ("outputMimeType", mimeType);
                    ("outputExtension", VString outputExtension)])) = Ok v).
  { destruct x; try exact H.
    bind_ok H. destruct (get "text" x) as [| | | |[|c t]| |]; discriminate H. }
  clear H. destruct (truthy (get "data" inline)) eqn:Hd; [|discriminate].
  cbn [negb] in Hrest. bind_ok Hrest. rename x0 into isJpeg.
  bind_ok Hrest. rename x0 into isJpg. bind_ok Hrest. rename x0 into ext.
  bind_ok Hrest. injection Hrest as <-.
  exists x0, mimeType, ext. split; [reflexivity|].
  assert (Hext : In ext ["jpg"; "webp"; "png"]
                 /\ forall s, mimeType = VString s ->
                      ext = if containsText "jpeg" s || containsText "jpg" s then "jpg"
                            else if containsText "webp" s then "webp" else "png").
  { destruct isJpg.
    - injection E2 as <-. split; [simpl; tauto|]. intros s Hs.
      destruct isJpeg.
      + now rewrite <- (includesText_string _ _ _ E0 s Hs).
      + rewrite <- (includesText_string _ _ _ E0 s Hs).
        now rewrite <- (includesText_string _ _ _ E1 s Hs).
    - bind_ok E2. injection E2 as <-. split.
      + destruct x1; simpl; tauto.
      + intros s Hs. destruct isJpeg; [discriminate E1|].
        rewrite <- (includesText_string _ _ _ E0 s Hs).
        rewrite <- (includesText_string _ _ _ E1 s Hs).
        now rewrite <- (includesText_string _ _ _ E4 s Hs). }
  split; [exact (proj1 Hext)|]. split; [exact Hm|]. split; [exact (proj2 Hext)|].
  exists (get "data" inline). split; [exact Hd|exact E3].
Qed.

Lemma extractOutputImage_extension_witness :
  exists v buffer mimeType,
    extractOutputImage Examples.env Examples.jpegAnswer = Ok v
    /\ v = VObject [("outputBuffer", buffer);
                    ("outputMimeType", mimeType);
                    ("outputExtension", VString "jpg")].
Proof.
  assert (H : exists v, extractOutputImage Examples.env Examples.jpegAnswer = Ok v)
    by (eexists; vm_compute; reflexivity).
  destruct H as [v H].
  destruct (extractOutputImage_extension _ _ _ H)
    as (b & m & e & Hv & _ & _ & He & _).
  exists v, b, m. split; [exact H|].
  assert (Hm : m = VString "image/jpeg").
  { revert H. rewrite Hv. vm_compute. now intros [= _ <-]. }
  rewrite Hv, (He _ Hm). reflexivity.
Defined.

End OutputFacts.

(* --------------------------------------------------------------------- *)
(** ** [encodeURIComponent]                                               *)
(* --------------------------------------------------------------------- *)

Section UriFacts.
Import JsString JsValue Engine Tokens Uri.

Lemma alphabetTable_true : alphabetTable = true.
Proof. vm_compute. reflexivity. Qed.

Lemma forallb_pairs {A : Type} (g : A -> A -> bool) (l : list A) :
  forallb (fun x => forallb (g x) l) l = true ->
  forall x y, In x l -> In y l -> g x y = true.
Proof.
  intros H x y Hx Hy. rewrite forallb_forall in H. specialize (H x Hx).
  rewrite forallb_forall in H. exact (H y Hy).
Qed.

Lemma blocks_apart (x y : ascii * string) :
  In x blocks -> In y blocks -> apart x y = true.
Proof. apply (forallb_pairs apart blocks). vm_compute. reflexivity. Qed.

Lemma encodeURIComponent_cons (c : ascii) (r : string) :
  encodeURIComponent (String c r) = block c +:+ encodeURIComponent r.
Proof.
  unfold block. cbn [encodeURIComponent]. now rewrite append_nil_r.
Qed.

Lemma block_safe (c : ascii) :
  allOf isSafe (block c) = true /\ isEmpty (block c) = false
  /\ (isSafe c = true -> isDelimiter c = false).
Proof.
  pose proof alphabetTable_true as H. unfold alphabetTable in H.
  rewrite forallb_forall in H. specialize (H c (allAscii_complete c)).
  apply andb_true_iff in H as [H H3]. apply andb_true_iff in H as [H1 H2].
  split; [exact H1|]. split; [now apply negb_true_iff|].
  intros Hs. rewrite Hs in H3. now apply negb_true_iff in H3.
Qed.

Lemma block_prefix (c1 c2 : ascii) :
  c1 <> c2 ->
  isPrefix (block c1) (block c2) = false /\ isPrefix (block c2) (block c1) = false.
Proof.
  intros Hne.
  assert (Hin : forall c, In (c, block c) blocks).
  { intros c. unfold blocks. apply in_map_iff. exists c.
    split; [reflexivity|apply allAscii_complete]. }
  pose proof (blocks_apart _ _ (Hin c1) (Hin c2)) as H.
  unfold apart in H. cbn [fst snd] in H.
  apply orb_true_iff in H as [H|H].
  - apply Ascii.eqb_eq in H. contradiction.
  - apply negb_true_iff, orb_false_iff in H. exact H.
Qed.

Lemma append_prefix (a b x y : string) :
  a +:+ x = b +:+ y -> isPrefix a b = true \/ isPrefix b a = true.
Proof.
  revert b. induction a as [|p a IH]; intros b H; [now left|].
  destruct b as [|q b]; [now right|].
  rewrite !append_cons in H. injection H as -> H.
  unfold isPrefix. cbn [stripPrefix]. rewrite Ascii.eqb_refl.
  exact (IH b H).
Qed.

Lemma append_cancel (a x y : string) : a +:+ x = a +:+ y -> x = y.
Proof.
  induction a as [|p a IH]; intros H; [exact H|].
  rewrite !append_cons in H. injection H as H. now apply IH.
Qed.

(** [encodeURIComponent] writes only letters, digits, the marks [-_.!~*'()]
    and the percent sign: no slash, no question mark and no hash. *)
Lemma encodeURIComponent_alphabet (s : string) :
  allOf isSafe (encodeURIComponent s) = true
  /\ allOf (fun c => negb (isDelimiter c)) (encodeURIComponent s) = true.
Proof.
  assert (H : allOf isSafe (encodeURIComponent s) = true).
  { induction s as [|c r IH]; [reflexivity|].
    rewrite encodeURIComponent_cons, allOf_append, IH.
    now rewrite (proj1 (block_safe c)). }
  split; [exact H|].
  apply (allOf_impl isSafe); [|exact H].
  intros c Hc. now rewrite (proj2 (proj2 (block_safe c)) Hc).
Qed.

(** [encodeURIComponent] is injective. *)
Lemma encodeURIComponent_injective (s1 s2 : string) :
  encodeURIComponent s1 = encodeURIComponent s2 -> s1 = s2.
Proof.
  revert s2. induction s1 as [|c1 r1 IH]; intros s2 H.
  - destruct s2 as [|c2 r2]; [reflexivity|]. exfalso.
    rewrite encodeURIComponent_cons in H.
    pose proof (proj1 (proj2 (block_safe c2))) as Hne.
    destruct (block c2); [discriminate Hne|discriminate H].
  - destruct s2 as [|c2 r2].
    + exfalso. rewrite encodeURIComponent_cons in H.
      pose proof (proj1 (proj2 (block_safe c1))) as Hne.
      destruct (block c1); [discriminate Hne|discriminate H].
    + rewrite !encodeURIComponent_cons in H.
      destruct (ascii_dec c1 c2) as [->|Hne].
      * f_equal. apply IH. exact (append_cancel _ _ _ H).
      * exfalso. destruct (block_prefix c1 c2 Hne) as [H1 H2].
        destruct (append_prefix _ _ _ _ H); congruence.
Qed.

End UriFacts.

(* --------------------------------------------------------------------- *)
(** ** The run of the engine                                              *)
(* --------------------------------------------------------------------- *)

Section RunFacts.
Import JsString JsNumber JsValue Shared Engine Tokens.

(** X6.  The stages that [runDualTrackGeneration] reports are always a
    prefix of REFERENCE_PREPROCESS, SOURCE_FEATURE_EXTRACTION,
    DIFFUSION_SAMPLING, OUTPUT_RENDER, in this order; a run that resolves
    has reported all four; and without an API key the run rejects with
    "Missing GEMINI_API_KEY environment variable." before any stage. *)
Theorem runDualTrackGeneration_stages (env : Env) (contract : Contract) :
  let all := [stageReference; stageSources; stageSampling; stageRender] in
  let stages := fst (runDualTrackGeneration env contract) in
  let outcome := snd (runDualTrackGeneration env contract) in
  (exists n, stages = firstn n all)
  /\ (isOk outcome = true -> stages = all)
  /\ (In stageRender stages ->
      exists prepared resultJson,
        snd (prepareRequest env contract) = Ok prepared
        /\ generateContent env (targetModel prepared) (requestBody prepared)
           = Ok resultJson)
  /\ (truthy (GEMINI_API_KEY env) = false ->
      stages = []
      /\ outcome
         = Throw (Error "Error" "Missing GEMINI_API_KEY environment variable." VUndefined)).
Proof.
  cbv zeta. unfold runDualTrackGeneration, prepareRequest.
  destruct (truthy (GEMINI_API_KEY env)) eqn:Hkey; cbn [negb].
  2:{ cbn [fst snd isOk]. split; [exists 0%nat; reflexivity|].
      split; [discriminate|]. split; [intros []|]. intros _. split; reflexivity. }
  assert (Hno : forall v : Value, v <> stageRender ->
            forall l, In stageRender (v :: l) -> In stageRender l).
  { intros v Hv l [H|H]; [contradiction|exact H]. }
  destruct (let* graph := buildWorkflowGraph env
                            (withModel contract (orElse (model contract) (DEFAULT_MODEL env))) in
            let* notes := collectWarnings graph in Ok (graph, notes))
    as [[graph notes]|].
  2:{ cbn [fst snd isOk]. split; [exists 0%nat; reflexivity|].
      split; [discriminate|]. split; [intros []|discriminate]. }
  destruct (imageRefToInlineData env (ref_imageRef (reference contract))) as [ref|].
  2:{ cbn [fst snd isOk]. split; [exists 1%nat; reflexivity|].
      split; [discriminate|]. split; [|discriminate].
      intros [H|[]]. discriminate H. }
  destruct (resolveSources env (sources contract)) as [srcs|].
  2:{ cbn [fst snd isOk]. split; [exists 2%nat; reflexivity|].
      split; [discriminate|]. split; [|discriminate].
      intros [H|[H|[]]]; discriminate H. }
  cbn [targetModel requestBody].
  destruct (generateContent env _ _) as [resultJson|] eqn:Hgen.
  - cbn [fst snd app]. split; [exists 4%nat; reflexivity|].
    split; [reflexivity|]. split; [|discriminate].
    intros _. do 2 eexists. split; [reflexivity|]. cbn [targetModel requestBody].
    exact Hgen.
  - cbn [fst snd isOk]. split; [exists 3%nat; reflexivity|].
    split; [discriminate|]. split; [|discriminate].
    intros [H|[H|[H|[]]]]; discriminate H.
Qed.

Lemma runDualTrackGeneration_stages_witness :
  fst (runDualTrackGeneration Examples.env Examples.modelContract)
  = [stageReference; stageSources; stageSampling; stageRender].
Proof.
  apply (proj1 (proj2 (runDualTrackGeneration_stages Examples.env Examples.modelContract))).
  vm_compute. reflexivity.
Defined.

(** X7.  The source images are resolved in contract order and the run
    stops at the first one that fails: when [resolveSources] rejects, its
    error is the one of the first source whose image reference cannot be
    resolved, and every source before it has been resolved. *)
Theorem resolveSources_first_failure (env : Env) (l : list Source) (e : JsError) :
  resolveSources env l = Throw e ->
  exists i source,
    l !! i = Some source
    /\ imageRefToInlineData env (src_imageRef source) = Throw e
    /\ forall j earlier, (j < i)%nat -> l !! j = Some earlier ->
         isOk (imageRefToInlineData env (src_imageRef earlier)) = true.
Proof.
  induction l as [|x r IH]; [discriminate|]. cbn [resolveSources].
  destruct (imageRefToInlineData env (src_imageRef x)) as [d|e0] eqn:E0; cbn [bind].
  - destruct (resolveSources env r) as [ds|e1]; cbn [bind]; [discriminate|].
    intros [= <-]. destruct (IH eq_refl) as (i & source & Hi & He & Hbefore).
    exists (S i), source. split; [exact Hi|]. split; [exact He|].
    intros [|j] earlier Hj Hl.
    + injection Hl as <-. now rewrite E0.
    + apply (Hbefore j); [lia|exact Hl].
  - intros [= <-]. exists 0%nat, x. split; [reflexivity|]. split; [exact E0|].
    intros j earlier Hj. lia.
Qed.

Lemma resolveSources_first_failure_witness :
  exists i source,
    [ {| src_imageRef := "data:image/png;base64,AAAA";
         src_featureType := "STYLE"; src_weight := JsNumber.zero |};
      {| src_imageRef := "ftp://x";
         src_featureType := "FACE"; src_weight := JsNumber.zero |} ] !! i = Some source
    /\ src_imageRef source = "ftp://x".
Proof.
  destruct (resolveSources_first_failure Examples.env
              [ {| src_imageRef := "data:image/png;base64,AAAA";
                   src_featureType := "STYLE"; src_weight := JsNumber.zero |};
                {| src_imageRef := "ftp://x";
                   src_featureType := "FACE"; src_weight := JsNumber.zero |} ]
              (Error "Error" "Unsupported imageRef format. Use data URL or http(s) URL."
                     VUndefined) eq_refl)
    as (i & source & Hi & He & _).
  exists i, source. split; [exact Hi|].
  destruct i as [|[|i]]; [| |discriminate Hi].
  - injection Hi as <-. discriminate He.
  - injection Hi as <-. reflexivity.
Defined.

End RunFacts.

Section WarningFacts.
Import JsString JsNumber JsValue Shared Engine Tokens.

(** The out-of-range indexes of a prompt: without repetition, the values of
    the numerals of its source markers that are at least the count. *)
Lemma promptIndexing_outOfRange (prompt : string) (count : nat) :
  exists uses indexes outOfRange,
    extractPromptIndexing (VString prompt) count
    = Ok (VObject [("usesReference", VBool uses);
                   ("sourceIndexes", VArray (map VNumber indexes));
                   ("outOfRange", VArray (map VNumber outOfRange))])
    /\ NoDup outOfRange
    /\ forall x, In x outOfRange
                 <-> exists ds, hasSourceToken ds prompt /\ x = ofZ (digitsValue ds)
                                /\ geb x (ofNat count) = true.
Proof.
  set (matches := scanSource (trim prompt) 0).
  set (indexes := map ofString matches).
  assert (Hmatch : forall ds, In ds matches -> isEmpty ds = false /\ allOf isDigit ds = true).
  { intros ds H. apply scanSource_spec in H as (? & ? & ? & ? & ? & ? & ? & ? & ? & ?).
    tauto. }
  assert (Hnat : forall y, In y indexes -> isNatural y = true).
  { intros y H. apply in_map_iff in H as (ds & <- & H).
    destruct (Hmatch ds H). now apply ofString_digits_natural. }
  assert (Hnat' : forall y, In y (List.filter (isOutOfRange count) indexes)
                            -> isNatural y = true).
  { intros y H. apply filter_In in H as [H _]. now apply Hnat. }
  exists (testReference (trim prompt)), (unique indexes),
    (unique (List.filter (isOutOfRange count) indexes)).
  split; [reflexivity|]. split; [now apply unique_NoDup|].
  intros x. rewrite (unique_In _ x Hnat'), filter_In. unfold indexes.
  rewrite in_map_iff. split.
  - intros [(ds & <- & H) Hout]. exists ds. destruct (Hmatch ds H) as [Hne Hd].
    split; [apply hasSourceToken_trim; now apply scanSource_spec|].
    split; [now apply ofString_digits_ofZ|].
    rewrite <- (isOutOfRange_natural count); [exact Hout|].
    now apply ofString_digits_natural.
  - intros (ds & H & -> & Hge).
    apply hasSourceToken_trim, scanSource_spec in H. fold matches in H.
    destruct (Hmatch ds H) as [Hne Hd].
    rewrite <- (ofString_digits_ofZ ds Hne Hd) in *. split; [exists ds; tauto|].
    rewrite (isOutOfRange_natural count); [exact Hge|].
    now apply ofString_digits_natural.
Qed.

Lemma joinValues_numbers (sep : string) (l : list number) :
  joinValues sep (map VNumber l) = Ok (join sep (map JsNumber.toString l)).
Proof.
  induction l as [|x r IH]; [reflexivity|].
  destruct r as [|y r']; [reflexivity|].
  change (joinValues sep (map VNumber (x :: y :: r')))
    with (let* s := Ok (JsNumber.toString x) in
          let* t := joinValues sep (map VNumber (y :: r')) in
          Ok (s +:+ sep +:+ t)).
  rewrite IH. reflexivity.
Qed.

Lemma collectWarnings_graph (graph : Value) (outOfRange : list number) :
  get "outOfRange" (get "promptIndexing" graph) = VArray (map VNumber outOfRange) ->
  collectWarnings graph
  = Ok match outOfRange with
       | [] => []
       | _ => [VString ("Prompt references out-of-range source indexes: "
                        +:+ join ", " (map JsNumber.toString outOfRange))]
       end.
Proof.
  intros H. unfold collectWarnings. rewrite H.
  destruct outOfRange as [|x r]; [reflexivity|].
  change (map VNumber (x :: r)) with (VNumber x :: map VNumber r).
  cbv iota beta.
  change (VNumber x :: map VNumber r) with (map VNumber (x :: r)).
  rewrite joinValues_numbers. reflexivity.
Qed.

(** X8.  A run that resolves carries at most one warning, and it carries
    one exactly when the prompt has a marker [[Source k]] with [k] at least
    the number of sources: the warning lists those indexes, each once,
    separated by a comma and a space. *)
Theorem runDualTrackGeneration_warnings (env : Env) (contract : Contract)
    (stages : list Value) (result : Value) :
  runDualTrackGeneration env contract = (stages, Ok result) ->
  exists outOfRange,
    NoDup outOfRange
    /\ (forall x, In x outOfRange
                  <-> exists ds, hasSourceToken ds (prompt contract)
                                 /\ x = ofZ (digitsValue ds)
                                 /\ geb x (ofNat (length (sources contract))) = true)
    /\ get "warnings" result
       = VArray match outOfRange with
                | [] => []
                | _ => [VString ("Prompt references out-of-range source indexes: "
                                 +:+ join ", " (map JsNumber.toString outOfRange))]
                end.
Proof.
  unfold runDualTrackGeneration, prepareRequest.
  destruct (negb (truthy (GEMINI_API_KEY env))); [discriminate|].
  destruct (promptIndexing_outOfRange (prompt contract) (length (sources contract)))
    as (uses & indexes & oor & Hpi & Hnd & Hoor).
  assert (Hg : exists graph,
             buildWorkflowGraph env
               (withModel contract (orElse (model contract) (DEFAULT_MODEL env)))
             = Ok graph
             /\ get "outOfRange" (get "promptIndexing" graph)
                = VArray (map VNumber oor)).
  { unfold buildWorkflowGraph. cbn [prompt sources withModel]. rewrite Hpi.
    cbn [bind]. eexists. split; reflexivity. }
  destruct Hg as (graph & -> & Hg). cbn [bind].
  rewrite (collectWarnings_graph _ _ Hg). cbn [bind].
  destruct (imageRefToInlineData env _); [|discriminate].
  destruct (resolveSources env _); [|discriminate].
  destruct (generateContent env _ _); [|discriminate].
  intros H. injection H as _ H. bind_ok H. injection H as <-.
  exists oor. split; [exact Hnd|]. split; [exact Hoor|]. reflexivity.
Qed.

Lemma runDualTrackGeneration_warnings_witness :
  exists result outOfRange,
    snd (runDualTrackGeneration Examples.env Examples.modelContract) = Ok result
    /\ NoDup outOfRange
    /\ get "warnings" result
       = VArray match outOfRange with
                | [] => []
                | _ => [VString ("Prompt references out-of-range source indexes: "
                                 +:+ join ", " (map JsNumber.toString outOfRange))]
                end.
Proof.
  assert (H : exists stages result,
            runDualTrackGeneration Examples.env Examples.modelContract
            = (stages, Ok result)) by (do 2 eexists; vm_compute; reflexivity).
  destruct H as (stages & result & H).
  destruct (runDualTrackGeneration_warnings _ _ _ _ H) as (oor & Hnd & _ & Hw).
  exists result, oor. split; [rewrite H; reflexivity|]. split; [exact Hnd|exact Hw].
Defined.

End WarningFacts.

(* --------------------------------------------------------------------- *)
(** ** Texts written by the engine                                        *)
(* --------------------------------------------------------------------- *)

Section TextFacts.
Import JsString JsNumber JsValue Engine Tokens.

Lemma length_take (n : nat) (s : string) :
  (String.length (take n s) <= n)%nat.
Proof.
  revert s. induction n as [|n IH]; intros s; [simpl; lia|].
  destruct s as [|c r]; simpl; [lia|]. specialize (IH r). lia.
Qed.

Lemma allOf_take (f : ascii -> bool) (n : nat) (s : string) :
  allOf f s = true -> allOf f (take n s) = true.
Proof.
  revert s. induction n as [|n IH]; intros s H; [reflexivity|].
  destruct s as [|c r]; [reflexivity|]. simpl in H |- *.
  apply andb_true_iff in H as [Hc Hr]. now rewrite Hc, (IH r Hr).
Qed.

Lemma allOf_trimStart (f : ascii -> bool) (s : string) :
  allOf f s = true -> allOf f (trimStart s) = true.
Proof.
  induction s as [|c r IH]; intros H; [reflexivity|]. simpl.
  destruct (isWhiteSpace c); [|exact H].
  simpl in H. apply andb_true_iff in H as [_ Hr]. now apply IH.
Qed.

Lemma allOf_trimEnd (f : ascii -> bool) (s : string) :
  allOf f s = true -> allOf f (trimEnd s) = true.
Proof.
  induction s as [|c r IH]; intros H; [reflexivity|]. simpl.
  simpl in H. apply andb_true_iff in H as [Hc Hr].
  destruct (isWhiteSpace c && isEmpty (trimEnd r)); [reflexivity|].
  simpl. now rewrite Hc, (IH Hr).
Qed.

Lemma collapseWhiteSpace_plain (inRun : bool) (s : string) :
  allOf (fun c => negb (isWhiteSpace c) || Ascii.eqb c " ")
        (collapseWhiteSpace inRun s) = true.
Proof.
  revert inRun. induction s as [|c r IH]; intros inRun; [reflexivity|]. simpl.
  destruct (isWhiteSpace c) eqn:E.
  - destruct inRun; [apply IH|]. simpl. now rewrite IH.
  - simpl. now rewrite E, IH.
Qed.

(** X9.  [summarizeText] with a maximal length of at least 3 (its default
    is 420) returns a text of at most that length, in which the only white
    space is the plain space: line breaks, tabulations and no-break spaces
    of the input are gone.  For a value that is not a string it returns the
    empty text. *)
Theorem summarizeText_bound (text : Value) (maxLength : Z) :
  3 <= maxLength ->
  Z.of_nat (String.length (summarizeText text maxLength)) <= maxLength
  /\ allOf (fun c => negb (isWhiteSpace c) || Ascii.eqb c " ")
           (summarizeText text maxLength) = true
  /\ ((forall t, text <> VString t) -> summarizeText text maxLength = "").
Proof.
  intros Hmax. split; [|split].
  - unfold summarizeText. destruct text; simpl; try lia.
    destruct (Z.of_nat (String.length (trim (collapseWhiteSpace false s))) <=? maxLength)
      eqn:E; [now apply Z.leb_le|].
    apply Z.leb_gt in E. rewrite length_append. unfold sliceTo.
    replace (maxLength - 3 <? 0) with false by (symmetry; apply Z.ltb_ge; lia).
    pose proof (length_take
                  (Z.to_nat (Z.min (maxLength - 3)
                               (Z.of_nat (String.length (trim (collapseWhiteSpace false s))))))
                  (trim (collapseWhiteSpace false s))).
    simpl. lia.
  - unfold summarizeText. destruct text; try reflexivity.
    assert (H : allOf (fun c => negb (isWhiteSpace c) || Ascii.eqb c " ")
                      (trim (collapseWhiteSpace false s)) = true).
    { unfold trim. apply allOf_trimEnd, allOf_trimStart, collapseWhiteSpace_plain. }
    destruct (_ <=? maxLength); [exact H|].
    rewrite allOf_append. unfold sliceTo. rewrite (allOf_take _ _ _ H). reflexivity.
  - intros H. destruct text; try reflexivity. now destruct (H s).
Qed.

Lemma summarizeText_bound_witness :
  Z.of_nat (String.length
              (summarizeText (VString ("a" +:+ String (ascii_of_nat 10) " long  body")) 8))
  <= 8.
Proof.
  apply (summarizeText_bound
           (VString ("a" +:+ String (ascii_of_nat 10) " long  body")) 8).
  lia.
Defined.

End TextFacts.

(* --------------------------------------------------------------------- *)
(** ** What the steps of the server leave alone                           *)
(* --------------------------------------------------------------------- *)

Section FrameFacts.
Import JsValue Shared Spec Server Lifecycle Invariant Frame.

Lemma sameTask_refl (a : option Value) : sameTask a a.
Proof. destruct a; simpl; tauto. Qed.

Lemma sameTask_trans (a b c : option Value) :
  sameTask a b -> sameTask b c -> sameTask a c.
Proof.
  destruct a, b, c; simpl; try tauto.
  intros [H1 H2] [H3 H4]. split; congruence.
Qed.

Lemma extends_refl (st : ServerState) : extends st st.
Proof.
  split; [reflexivity|]. split; [reflexivity|]. intros; apply sameTask_refl.
Qed.

Lemma extends_trans (a b c : ServerState) : extends a b -> extends b c -> extends a c.
Proof.
  intros (H1 & H2 & H3) (G1 & G2 & G3).
  split; [congruence|]. split; [congruence|].
  intros id; exact (sameTask_trans _ _ _ (H3 id) (G3 id)).
Qed.


(** [updateTask] with a patch that leaves the task id and the contract
    alone. *)
Lemma updateTask_extends (id : string) (patch : list (string * Value)) (now : string)
    (st : ServerState) :
  goodPatch patch ->
  extends st (fst (updateTask id patch now st))
  /\ runs (fst (updateTask id patch now st)) = runs st.
Proof.
  intros (Hp1 & Hp2 & _). unfold updateTask.
  destruct (tasks st !! id) as [prev|] eqn:Ht;
    [|split; [apply extends_refl|reflexivity]].
  fold (nextTask prev patch now).
  assert (Htasks : forall id',
            sameTask (tasks st !! id') (<[id := nextTask prev patch now]> (tasks st) !! id')).
  { intros id'. destruct (decide (id = id')) as [<-|Hne].
    - rewrite lookup_insert_eq, Ht. cbn [sameTask]. rewrite !get_nextTask, Hp1, Hp2.
      split; reflexivity.
    - rewrite lookup_insert_ne by exact Hne. apply sameTask_refl. }
  destruct (toTaskView (nextTask prev patch now) now) as [view|] eqn:Hview; cbn [fst].
  - unfold broadcastTaskEvent. cbn [sseClients setTasks].
    destruct (sseClients st !! id) as [clients|]; split; try reflexivity;
      (split; [reflexivity|]; split; [reflexivity|exact Htasks]).
  - split; [|reflexivity].
    split; [reflexivity|]. split; [reflexivity|exact Htasks].
Qed.


Lemma setPhase_extends (i : nat) (id : string) (phase : RunPhase) (st st' : ServerState) :
  extends st st' -> extends st (setPhase i id phase st').
Proof. intros H. exact H. Qed.

(** One stretch of a run: the clients, the timers, the set of tasks and
    their task ids and contracts stay. *)
Lemma runTaskStep_extends (env : Env) (i : nat) (now : string) (st : ServerState) :
  extends st (runTaskStep env i now st).
Proof.
  unfold runTaskStep.
  destruct (runs st !! i) as [[id phase]|]; [|apply extends_refl].
  cbn [run_taskId run_phase].
  assert (Hfail : forall e st1, extends st st1 -> extends st (failTask id e now st1)).
  { intros e st1 H. unfold failTask.
    exact (extends_trans _ _ _ H
             (proj1 (updateTask_extends id _ now st1 (goodPatch_failed e)))). }
  destruct phase as [|[|stage rest] outcome|]; [| | |apply extends_refl].
  - destruct (tasks st !! id) as [task|];
      [|apply setPhase_extends, extends_refl].
    pose proof (proj1 (updateTask_extends id _ now st goodPatch_processing)) as H.
    destruct (updateTask id processingPatch now st) as [st1 [v|e]]; cbn [fst] in H.
    + destruct (runEngine env (get "contract" task)). apply setPhase_extends, H.
    + apply setPhase_extends, H.
  - destruct outcome as [result|e];
      [|apply setPhase_extends, Hfail, extends_refl].
    destruct (toString (get "outputExtension" result)) as [extension|e];
      [|apply setPhase_extends, Hfail, extends_refl].
    destruct (writeFile env _ _) as [[]|e];
      [|apply setPhase_extends, Hfail, extends_refl].
    pose proof (proj1 (updateTask_extends id _ now st
                         (goodPatch_success (id +:+ "." +:+ extension) result))) as H.
    destruct (updateTask id _ now st) as [st1 [v|e]]; cbn [fst] in H.
    + apply setPhase_extends, H.
    + apply setPhase_extends, Hfail, H.
  - pose proof (proj1 (updateTask_extends id _ now st (goodPatch_progress stage))) as H.
    destruct (updateTask id _ now st) as [st1 [v|e]]; cbn [fst] in H.
    + apply setPhase_extends, H.
    + apply setPhase_extends, Hfail, H.
Qed.



(** X11.  A run never adds a task to the store and never removes one, and
    it never changes the task id or the contract of a stored task; it
    leaves the event-stream clients and the retention timers alone.  A
    stretch of a run that finds no task stored under the id of the run (its
    task has been evicted and no task has been created under that id since)
    changes no task and writes no event. *)
Theorem runTaskStep_keeps_store (env : Env) (i : nat) (now : string) (st : ServerState) :
  let st' := runTaskStep env i now st in
  (forall id, sameTask (tasks st !! id) (tasks st' !! id))
  /\ sseClients st' = sseClients st
  /\ timers st' = timers st
  /\ (forall r, runs st !! i = Some r -> tasks st !! run_taskId r = None ->
        tasks st' = tasks st /\ sseLog st' = sseLog st).
Proof.
  cbv zeta. destruct (runTaskStep_extends env i now st) as (H1 & H2 & H3).
  split; [exact H3|]. split; [exact H1|]. split; [exact H2|].
  intros [id phase] Hr Ht. cbn [run_taskId] in Ht.
  unfold runTaskStep. rewrite Hr. cbn [run_taskId run_phase].
  assert (Hup : forall patch st0, tasks st0 = tasks st ->
            updateTask id patch now st0 = (st0, Ok VNull)).
  { intros patch st0 H0. unfold updateTask. now rewrite H0, Ht. }
  assert (Hfail : forall e, failTask id e now st = st).
  { intros e. unfold failTask. now rewrite Hup. }
  destruct phase as [|[|stage rest] outcome|]; [| | |split; reflexivity].
  - rewrite Ht. split; reflexivity.
  - destruct outcome as [result|e]; [|rewrite Hfail; split; reflexivity].
    destruct (toString (get "outputExtension" result)) as [extension|e];
      [|rewrite Hfail; split; reflexivity].
    destruct (writeFile env _ _) as [[]|e]; [|rewrite Hfail; split; reflexivity].
    rewrite Hup by reflexivity. split; reflexivity.
  - rewrite Hup by reflexivity. split; reflexivity.
Qed.

Lemma runTaskStep_keeps_store_witness :
  tasks (runTaskStep Examples.env 0 "T1"
           (exec Examples.env [PostTask Examples.modelBody "T0"; Evict "t1"] initialState))
  = tasks (exec Examples.env [PostTask Examples.modelBody "T0"; Evict "t1"] initialState).
Proof.
  refine (proj1 (proj2 (proj2 (proj2
            (runTaskStep_keeps_store Examples.env 0 "T1"
               (exec Examples.env [PostTask Examples.modelBody "T0"; Evict "t1"]
                     initialState))))
            {| run_taskId := "t1"; run_phase := Starting |} _ _)).
  - vm_compute. reflexivity.
  - vm_compute. reflexivity.
Defined.

End FrameFacts.

Section ReachableFacts.
Import JsValue Shared Spec Server Lifecycle Invariant Frame.

Lemma exec_invariant (env : Env) (P : ServerState -> Prop) :
  P initialState -> (forall ev st, P st -> P (step env ev st)) ->
  forall evs, P (exec env evs initialState).
Proof.
  intros H0 Hs evs. unfold exec. generalize initialState H0.
  induction evs as [|ev evs IH]; intros st H; simpl; [exact H|].
  apply IH. now apply Hs.
Qed.

Lemma postTask_frame (body : Value) (now : string) (st : ServerState) :
  sseClients (snd (postTask body now st)) = sseClients st
  /\ sseLog (snd (postTask body now st)) = sseLog st.
Proof.
  unfold postTask. destruct (validateGenerationContract body); [|split; reflexivity].
  destruct (tasks st !! _); [split; reflexivity|].
  destruct (toTaskView _ now); split; reflexivity.
Qed.

Lemma evict_frame (id : string) (st : ServerState) :
  sseClients (evict id st) = sseClients st /\ sseLog (evict id st) = sseLog st.
Proof. unfold evict. destruct (existsb _ _); split; reflexivity. Qed.


(** X13.  In every state that the server reaches, no task id is kept with
    an empty set of event-stream clients: the set of a task is created by
    its first subscriber and deleted when its last client closes. *)
Theorem exec_clients_live (env : Env) (evs : list Event) :
  clientsLive (exec env evs initialState).
Proof.
  apply exec_invariant.
  - intros id clients H. cbn [initialState sseClients] in H.
    rewrite lookup_empty in H. discriminate.
  - intros ev st Hst.
    destruct ev as [body now|i now|id|id client now|id client]; cbn [step].
    + intros k l. rewrite (proj1 (postTask_frame body now st)). apply Hst.
    + intros k l. rewrite (proj1 (runTaskStep_extends env i now st)). apply Hst.
    + intros k l. rewrite (proj1 (evict_frame id st)). apply Hst.
    + unfold subscribe. destruct (tasks st !! id) as [task|]; [|exact Hst].
      destruct (toTaskView task now); [|exact Hst].
      intros k l. cbn [sseClients setClients setLog].
      destruct (decide (id = k)) as [<-|Hne].
      * rewrite lookup_insert_eq. intros [= <-].
        destruct (default [] (sseClients st !! id)); discriminate.
      * rewrite lookup_insert_ne by exact Hne. apply Hst.
    + unfold unsubscribe. destruct (sseClients st !! id) as [entries|]; [|exact Hst].
      destruct (removeFirst Nat.eqb client entries) as [|x rest].
      * intros k l. cbn [sseClients setClients]. intros H.
        apply lookup_delete_Some in H as [_ H]. exact (Hst _ _ H).
      * intros k l. cbn [sseClients setClients].
        destruct (decide (id = k)) as [<-|Hne].
        -- rewrite lookup_insert_eq. intros [= <-]. discriminate.
        -- rewrite lookup_insert_ne by exact Hne. apply Hst.
Qed.

Lemma removeFirst_NoDup (x : string) (l : list string) :
  NoDup l ->
  NoDup (removeFirst String.eqb x l)
  /\ forall y, In y (removeFirst String.eqb x l) <-> In y l /\ y <> x.
Proof.
  induction l as [|z r IH]; intros Hnd.
  - split; [constructor|]. intros y. simpl. tauto.
  - apply NoDup_cons in Hnd as [Hz Hr]. destruct (IH Hr) as [IH1 IH2].
    rewrite list_elem_of_In in Hz. cbn [removeFirst].
    destruct (String.eqb x z) eqn:E.
    + apply String.eqb_eq in E. subst z. split; [exact Hr|].
      intros y. simpl. split.
      * intros Hy. split; [now right|]. intros ->. contradiction.
      * intros [[->|Hy] Hne]; [contradiction|exact Hy].
    + apply String.eqb_neq in E. split.
      * apply NoDup_cons. split; [|exact IH1].
        rewrite list_elem_of_In, IH2. tauto.
      * intros y. simpl. rewrite IH2. split.
        -- intros [<-|[Hy Hne]]; [split; [now left|congruence]|tauto].
        -- intros [[<-|Hy] Hne]; [now left|tauto].
Qed.

(** X14.  In every state that the server reaches, every stored task has
    exactly one pending retention timer and there is no other timer: a
    timer deletes the task it was set for and no task of a later request. *)
Theorem exec_timers_match (env : Env) (evs : list Event) :
  timersMatch (exec env evs initialState).
Proof.
  apply exec_invariant.
  - split; [constructor|]. intros id. cbn [initialState timers tasks].
    rewrite lookup_empty. simpl. tauto.
  - intros ev st [Hnd Hin].
    destruct ev as [body now|i now|id|id client now|id client]; cbn [step].
    + unfold postTask.
      destruct (validateGenerationContract body) as [contract|]; [|now split].
      destruct (tasks st !! keyOf (get "taskId" contract)) eqn:Ht; [now split|].
      set (id := keyOf (get "taskId" contract)) in *.
      assert (H : timersMatch
                    (setTimers (timers st ++ [id])%list
                       (setTasks (<[id := createTaskRecord contract now]> (tasks st)) st))).
      { split; cbn [timers tasks setTimers setTasks].
        - apply NoDup_app. split; [exact Hnd|]. split; [|apply NoDup_singleton].
          intros x Hx Hx'. apply list_elem_of_singleton in Hx'. subst x.
          apply list_elem_of_In, Hin in Hx. contradiction.
        - intros k. rewrite in_app_iff. simpl.
          destruct (decide (id = k)) as [<-|Hne].
          + rewrite lookup_insert_eq. split; [discriminate|tauto].
          + rewrite lookup_insert_ne by exact Hne. rewrite Hin. split; [|tauto].
            intros [H|[H|[]]]; [exact H|contradiction]. }
      destruct (toTaskView _ now); exact H.
    + destruct (runTaskStep_extends env i now st) as (_ & Ht & Hs).
      split; [now rewrite Ht|]. intros k. rewrite Ht, Hin.
      specialize (Hs k).
      destruct (tasks st !! k), (tasks (runTaskStep env i now st) !! k);
        simpl in Hs; try contradiction; split; congruence.
    + unfold evict. destruct (existsb (String.eqb id) (timers st)); [|now split].
      destruct (removeFirst_NoDup id _ Hnd) as [H1 H2].
      split; cbn [timers tasks setTimers setTasks]; [exact H1|].
      intros k. rewrite H2, Hin. destruct (decide (id = k)) as [<-|Hne].
      * rewrite lookup_delete_eq. tauto.
      * rewrite lookup_delete_ne by exact Hne. split; [tauto|].
        intros H. split; [exact H|congruence].
    + unfold subscribe. destruct (tasks st !! id); [|now split].
      destruct (toTaskView _ now); now split.
    + unfold unsubscribe. destruct (sseClients st !! id); [|now split].
      destruct (removeFirst Nat.eqb client l); now split.
Qed.

End ReachableFacts.

(* --------------------------------------------------------------------- *)
(** ** The answers of [POST /api/tasks]                                   *)
(* --------------------------------------------------------------------- *)

Section PostFacts.
Import JsString JsValue Shared Spec Server Lifecycle Invariant Frame.

(** The only exception of [ToString] is the [TypeError] of an object that
    cannot be converted. *)
Lemma toString_throws (v : Value) (e : JsError) :
  JsValue.toString v = Throw e -> e = typeError.
Proof.
  revert v e. fix IH 1. intros [| |b|x|s|items|props] e; cbn [JsValue.toString];
    try discriminate.
  - revert e. induction items as [|v r IHr]; intros e; [discriminate|].
    assert (Hv : forall e', match v with
                            | VUndefined | VNull => Ok EmptyString
                            | _ => JsValue.toString v
                            end = Throw e' -> e' = typeError).
    { intros e' He. apply (IH v). destruct v; try discriminate He; exact He. }
    destruct r as [|w r']; [exact (Hv e)|].
    intros H.
    destruct (match v with
              | VUndefined | VNull => Ok EmptyString
              | _ => JsValue.toString v
              end) as [s0|e0] eqn:E0; cbn [bind] in H.
    + match type of H with
      | bind ?r _ = _ => destruct r as [t|e1] eqn:E1; cbn [bind] in H
      end; [discriminate|].
      injection H as <-. exact (IHr _ eq_refl).
    + injection H as <-. exact (Hv _ eq_refl).
  - destruct (lookup "toString" props); [|discriminate]. now intros [= <-].
Qed.

Lemma ensureString_throws (value : Value) (field : string) (allowEmpty : bool)
    (e : JsError) :
  ensureString value field allowEmpty = Throw e ->
  Server.statusCode (errorResponse e) = 400.
Proof.
  unfold ensureString. destruct value; try (now intros [= <-]).
  destruct (negb allowEmpty && isEmpty (trim s)); [now intros [= <-]|discriminate].
Qed.

Lemma ensureWeight_throws (value : Value) (field : string) (e : JsError) :
  ensureWeight value field = Throw e ->
  Server.statusCode (errorResponse e) = 400 \/ Server.statusCode (errorResponse e) = 500.
Proof.
  unfold ensureWeight. rewrite coerce_toNumber.
  destruct (toNumber value) as [parsed|e0] eqn:E; cbn [bind].
  - destruct (negb (JsNumber.isFinite parsed)); [intros [= <-]; now left|].
    destruct (_ || _); [intros [= <-]; now left|discriminate].
  - intros [= <-]. right. unfold toNumber in E.
    destruct value; try discriminate;
      (destruct (JsValue.toString _) as [s|e1] eqn:E1; cbn [bind] in E; [discriminate|];
       injection E as <-; now rewrite (toString_throws _ _ E1)).
Qed.

Lemma validateSource_throws (value : Value) (i : nat) (e : JsError) :
  validateSource value i = Throw e ->
  Server.statusCode (errorResponse e) = 400 \/ Server.statusCode (errorResponse e) = 500.
Proof.
  unfold validateSource. destruct (negb (isRecord value)); [intros [= <-]; now left|].
  destruct (ensureString (get "featureType" value) _ false) as [t|e0] eqn:E0; cbn [bind];
    [|intros [= <-]; left; exact (ensureString_throws _ _ _ _ E0)].
  destruct (negb (includes FEATURE_TYPES (toUpperCase t))); [intros [= <-]; now left|].
  destruct (ensureString (get "imageRef" value) _ false) as [r|e1] eqn:E1; cbn [bind];
    [|intros [= <-]; left; exact (ensureString_throws _ _ _ _ E1)].
  destruct (ensureWeight (get "weight" value) _) as [w|e2] eqn:E2; cbn [bind];
    [discriminate|].
  intros [= <-]. exact (ensureWeight_throws _ _ _ E2).
Qed.

Lemma mapIndexed_throws (l : list Value) (i : nat) (e : JsError) :
  mapIndexed validateSource i l = Throw e ->
  Server.statusCode (errorResponse e) = 400 \/ Server.statusCode (errorResponse e) = 500.
Proof.
  revert i. induction l as [|v r IH]; intros i; [discriminate|]. cbn [mapIndexed].
  destruct (validateSource v i) as [s|e0] eqn:E0; cbn [bind];
    [|intros [= <-]; exact (validateSource_throws _ _ _ E0)].
  destruct (mapIndexed validateSource (S i) r) as [ss|e1] eqn:E1; cbn [bind];
    [discriminate|].
  intros [= <-]. exact (IH _ E1).
Qed.

(** A rejected contract is answered with 400, or with 500 when a weight
    cannot be converted to a number. *)
Lemma validateGenerationContract_throws (input : Value) (e : JsError) :
  validateGenerationContract input = Throw e ->
  Server.statusCode (errorResponse e) = 400 \/ Server.statusCode (errorResponse e) = 500.
Proof.
  unfold validateGenerationContract.
  destruct (negb (isRecord input)); [intros [= <-]; now left|].
  destruct (ensureString (get "taskId" input) _ false) as [t|e0] eqn:E0; cbn [bind];
    [|intros [= <-]; left; exact (ensureString_throws _ _ _ _ E0)].
  destruct (ensureString (get "prompt" input) _ false) as [p|e1] eqn:E1; cbn [bind];
    [|intros [= <-]; left; exact (ensureString_throws _ _ _ _ E1)].
  destruct (match get "negativePrompt" input with
            | VUndefined => Ok EmptyString
            | v => ensureString v "negativePrompt" true
            end) as [n|e2] eqn:E2; cbn [bind].
  2:{ intros [= <-]. left.
      destruct (get "negativePrompt" input); try discriminate E2;
        exact (ensureString_throws _ _ _ _ E2). }
  destruct (validateReference (get "reference" input)) as [r|e3] eqn:E3; cbn [bind].
  2:{ intros [= <-]. unfold validateReference in E3.
      destruct (negb (isRecord (get "reference" input))); [injection E3 as <-; now left|].
      destruct (ensureString (get "imageRef" (get "reference" input)) _ false)
        as [ir|e4] eqn:E4; cbn [bind] in E3;
        [|injection E3 as <-; left; exact (ensureString_throws _ _ _ _ E4)].
      destruct (ensureWeight (get "weight" (get "reference" input)) _) as [w|e5] eqn:E5;
        cbn [bind] in E3; [discriminate|].
      injection E3 as <-. exact (ensureWeight_throws _ _ _ E5). }
  destruct (get "sources" input) as [| | | | |[|s rest]|]; try (intros [= <-]; now left).
  destruct (mapIndexed validateSource 0 (s :: rest)) as [ss|e6] eqn:E6; cbn [bind];
    [discriminate|].
  intros [= <-]. exact (mapIndexed_throws _ _ _ E6).
Qed.

(** The task id of an accepted contract is a trimmed string that is not
    empty. *)
Lemma validated_taskId_trimmed (body contract : Value) :
  validateGenerationContract body = Ok contract ->
  exists id, get "taskId" contract = VString id /\ trim id = id /\ isEmpty id = false.
Proof.
  unfold validateGenerationContract.
  destruct (negb (isRecord body)); [discriminate|].
  intros H. bind_ok H. bind_ok H. bind_ok H. bind_ok H.
  destruct (get "sources" body) as [| | | | |[|s rest]|]; try discriminate.
  bind_ok H. injection H as <-.
  destruct (ensureString_ok _ _ _ _ E) as (s0 & _ & -> & Hne).
  exists (trim s0). split; [reflexivity|]. split; [apply trim_idempotent|now apply Hne].
Qed.

(** The view of the record created for an accepted contract. *)
Lemma toTaskView_created (contract : Value) (id now : string) :
  get "taskId" contract = VString id -> trim id = id -> isEmpty id = false ->
  toTaskView (createTaskRecord contract now) now
  = Ok (VObject [("taskId", VString id);
                 ("status", VString "QUEUED");
                 ("outputUrl", VNull);
                 ("errorCode", VNull);
                 ("message", VNull);
                 ("warnings", VArray []);
                 ("updatedAt", VString now);
                 ("workflowGraph", VNull);
                 ("progress", VNull)]).
Proof.
  intros Hid Htrim Hne. unfold toTaskView, createStatusResponse, createTaskRecord.
  cbn [isRecord negb get lookup String.eqb Ascii.eqb Bool.eqb].
  rewrite Hid. unfold ensureString at 1. rewrite Htrim, Hne.
  cbn [negb andb bind]. destruct now; reflexivity.
Qed.


(** X16.  The status URL and the stream URL of a 202 answer are
    [/api/tasks/<segment>] and [/api/tasks/<segment>/events], where the
    segment, the encoded task id, has no slash, no question mark and no
    hash; and two accepted requests with the same status URL have the same
    task id. *)
Theorem postTask_urls (body1 body2 : Value) (now1 now2 : string)
    (st1 st2 : ServerState) :
  let r1 := Server.body (fst (postTask body1 now1 st1)) in
  let r2 := Server.body (fst (postTask body2 now2 st2)) in
  Server.statusCode (fst (postTask body1 now1 st1)) = 202 ->
  Server.statusCode (fst (postTask body2 now2 st2)) = 202 ->
  (exists segment,
     get "statusUrl" r1 = VString ("/api/tasks/" +:+ segment)
     /\ get "streamUrl" r1 = VString ("/api/tasks/" +:+ segment +:+ "/events")
     /\ Tokens.allOf (fun c => negb (Uri.isDelimiter c)) segment = true)
  /\ (get "statusUrl" r1 = get "statusUrl" r2 -> get "taskId" r1 = get "taskId" r2).
Proof.
  cbv zeta.
  assert (H : forall body now st,
            Server.statusCode (fst (postTask body now st)) = 202 ->
            exists id,
              get "taskId" (Server.body (fst (postTask body now st))) = VString id
              /\ get "statusUrl" (Server.body (fst (postTask body now st)))
                 = VString ("/api/tasks/" +:+ Engine.encodeURIComponent id)
              /\ get "streamUrl" (Server.body (fst (postTask body now st)))
                 = VString ("/api/tasks/" +:+ Engine.encodeURIComponent id +:+ "/events")).
  { intros body now st. unfold postTask.
    destruct (validateGenerationContract body) as [contract|e] eqn:Hv.
    2:{ cbn [fst]. intros H.
        destruct (validateGenerationContract_throws _ _ Hv) as [H'|H'];
          rewrite H' in H; discriminate H. }
    destruct (validated_taskId_trimmed _ _ Hv) as (id & Hid & Htrim & Hne).
    rewrite Hid. cbn [keyOf].
    destruct (tasks st !! id); [discriminate|].
    rewrite (toTaskView_created contract id now Hid Htrim Hne).
    intros _. exists id. cbn [fst Server.body]. repeat split; reflexivity. }
  intros H1 H2.
  destruct (H _ _ _ H1) as (id1 & Hid1 & Hs1 & Hst1).
  destruct (H _ _ _ H2) as (id2 & Hid2 & Hs2 & _).
  split.
  - exists (Engine.encodeURIComponent id1). split; [exact Hs1|]. split; [exact Hst1|].
    exact (proj2 (encodeURIComponent_alphabet id1)).
  - rewrite Hs1, Hs2, Hid1, Hid2. intros [= E].
    f_equal. apply encodeURIComponent_injective. exact E.
Qed.

Lemma postTask_urls_witness :
  exists segment,
    get "statusUrl" (Server.body (fst (postTask Examples.slashBody "T0" initialState)))
    = VString ("/api/tasks/" +:+ segment)
    /\ Tokens.allOf (fun c => negb (Uri.isDelimiter c)) segment = true.
Proof.
  assert (H : Server.statusCode (fst (postTask Examples.slashBody "T0" initialState)) = 202)
    by (vm_compute; reflexivity).
  destruct (proj1 (postTask_urls Examples.slashBody Examples.slashBody "T0" "T0"
                     initialState initialState H H))
    as (segment & Hs & _ & Hsafe).
  exists segment. split; [exact Hs|exact Hsafe].
Defined.

End PostFacts.

(* --------------------------------------------------------------------- *)
(** ** How a run settles                                                  *)
(* --------------------------------------------------------------------- *)

Section SettleFacts.
Import JsString JsValue Shared Spec Server Lifecycle Invariant Frame.

(** The task of a run after a stretch that applies one patch and ends the
    run. *)
Lemma settle_patch (id : string) (patch : list (string * Value)) (now : string)
    (st : ServerState) (task : Value) (i : nat) :
  tasks st !! id = Some task -> wfTask task -> goodPatch patch ->
  exists st1 v,
    updateTask id patch now st = (st1, Ok v)
    /\ tasks (setPhase i id Finished st1) !! id = Some (nextTask task patch now).
Proof.
  intros Ht Hwf Hp.
  destruct (updateTask_spec id patch now st) as (st1 & v & Hu & _ & Htasks);
    [intros t Ht'; rewrite Ht in Ht'; now injection Ht' as <-|exact Hp|].
  exists st1, v. split; [exact Hu|].
  cbn [tasks setPhase setRuns]. rewrite Htasks, Ht. apply lookup_insert_eq.
Qed.

(** X17.  When the engine rejects, or when the output file cannot be
    written although the engine has resolved, the run ends with the task
    FAILED: its output URL is null, its message is the message of the
    error, and its error code is the code of a validation error and
    UNEXPECTED_ERROR for every other error, whatever code that error
    carries.  The progress, the warnings, the workflow graph and the
    contract of the task are left as they were. *)
Theorem runTaskStep_failure (env : Env) (i : nat) (now : string) (st : ServerState)
    (id : string) (outcome : Result Value) (task : Value) (e : JsError) :
  runs st !! i = Some {| run_taskId := id; run_phase := Reporting [] outcome |} ->
  tasks st !! id = Some task -> wfTask task ->
  (outcome = Throw e
   \/ exists result extension,
        outcome = Ok result
        /\ JsValue.toString (get "outputExtension" result) = Ok extension
        /\ writeFile env (id +:+ "." +:+ extension) (get "outputBuffer" result)
           = Throw e) ->
  exists task',
    tasks (runTaskStep env i now st) !! id = Some task'
    /\ get "status" task' = VString "FAILED"
    /\ get "outputUrl" task' = VNull
    /\ get "errorCode" task'
       = VString match e with
                 | ContractValidationError code _ _ => code
                 | _ => "UNEXPECTED_ERROR"
                 end
    /\ get "message" task'
       = VString match e with
                 | ContractValidationError _ message _ => message
                 | HttpError _ message _ => message
                 | Error _ message _ => message
                 end
    /\ get "updatedAt" task' = VString now
    /\ forall key, In key ["progress"; "warnings"; "workflowGraph"; "contract"; "taskId"] ->
         get key task' = get key task.
Proof.
  intros Hr Ht Hwf Hout.
  destruct (settle_patch id (failedPatch e) now st task i Ht Hwf (goodPatch_failed e))
    as (st1 & v & Hu & Htask).
  assert (Hstep : runTaskStep env i now st = setPhase i id Finished st1).
  { unfold runTaskStep. rewrite Hr. cbn [run_taskId run_phase].
    destruct Hout as [->|(result & extension & -> & -> & ->)];
      unfold failTask; now rewrite Hu. }
  rewrite Hstep. exists (nextTask task (failedPatch e) now).
  split; [exact Htask|].
  split; [rewrite get_nextTask; reflexivity|].
  split; [rewrite get_nextTask; reflexivity|].
  split; [rewrite get_nextTask; destruct e; reflexivity|].
  split; [rewrite get_nextTask; destruct e; reflexivity|].
  split; [rewrite get_nextTask; reflexivity|].
  intros key Hkey. rewrite get_nextTask.
  simpl in Hkey. destruct Hkey as [<-|[<-|[<-|[<-|[<-|[]]]]]]; reflexivity.
Qed.

Lemma runTaskStep_failure_witness :
  exists task',
    tasks (runTaskStep Examples.env 1 "T2"
             (exec Examples.env
                [PostTask Examples.modelBody "T0"; Evict "t1";
                 PostTask Examples.unsupportedBody "T1"; RunStep 1 "T1"; RunStep 1 "T1"]
                initialState)) !! "t1" = Some task'
    /\ get "status" task' = VString "FAILED"
    /\ get "errorCode" task' = VString "UNEXPECTED_ERROR".
Proof.
  set (st := exec Examples.env
               [PostTask Examples.modelBody "T0"; Evict "t1";
                PostTask Examples.unsupportedBody "T1"; RunStep 1 "T1"; RunStep 1 "T1"]
               initialState).
  assert (Hr : exists outcome task e,
            runs st !! 1%nat
            = Some {| run_taskId := "t1"; run_phase := Reporting [] outcome |}
            /\ tasks st !! "t1" = Some task
            /\ outcome = Throw e
            /\ e = Error "Error" "Unsupported imageRef format. Use data URL or http(s) URL."
                         VUndefined
            /\ Shared.isRecord task = true
            /\ get "taskId" task = VString "t1"
            /\ get "status" task = VString "PROCESSING").
  { do 3 eexists. split; [vm_compute; reflexivity|]. split; [vm_compute; reflexivity|].
    split; [reflexivity|]. split; [reflexivity|]. split; [reflexivity|].
    split; reflexivity. }
  destruct Hr as (outcome & task & e & Hr & Ht & Ho & He & Hrec & Hid & Hst).
  assert (Hwf : wfTask task).
  { split; [exact Hrec|]. split.
    - exists "t1". split; [exact Hid|reflexivity].
    - rewrite Hst. simpl. tauto. }
  destruct (runTaskStep_failure Examples.env 1 "T2" st "t1" outcome task e
              Hr Ht Hwf (or_introl Ho)) as (task' & H1 & H2 & _ & H3 & _).
  exists task'. split; [exact H1|]. split; [exact H2|]. rewrite H3, He. reflexivity.
Defined.

(** X18.  When the engine resolves and the output file is written, the run
    ends with the task SUCCESS: its output URL is [/outputs/] followed by
    the task id, a dot and the extension of the result; its error code is
    null; its message is [completed_with_warnings] when the result carries
    a warning and null otherwise; its warnings and its workflow graph are
    those of the result; its progress is DONE at 1; and its contract and
    task id are left as they were. *)
Theorem runTaskStep_success (env : Env) (i : nat) (now : string) (st : ServerState)
    (id : string) (result task : Value) (extension : string) :
  runs st !! i = Some {| run_taskId := id; run_phase := Reporting [] (Ok result) |} ->
  tasks st !! id = Some task -> wfTask task ->
  JsValue.toString (get "outputExtension" result) = Ok extension ->
  writeFile env (id +:+ "." +:+ extension) (get "outputBuffer" result) = Ok tt ->
  exists task',
    tasks (runTaskStep env i now st) !! id = Some task'
    /\ get "status" task' = VString "SUCCESS"
    /\ get "outputUrl" task' = VString ("/outputs/" +:+ id +:+ "." +:+ extension)
    /\ get "errorCode" task' = VNull
    /\ get "message" task'
       = match get "warnings" result with
         | VArray (_ :: _) => VString "completed_with_warnings"
         | _ => VNull
         end
    /\ get "warnings" task' = get "warnings" result
    /\ get "workflowGraph" task' = get "workflowGraph" result
    /\ get "progress" task' = Engine.stage "DONE" (JsNumber.ofZ 1)
    /\ get "updatedAt" task' = VString now
    /\ get "contract" task' = get "contract" task
    /\ get "taskId" task' = get "taskId" task.
Proof.
  intros Hr Ht Hwf Hext Hwrite.
  destruct (settle_patch id (successPatch (id +:+ "." +:+ extension) result) now st task i
              Ht Hwf (goodPatch_success _ result)) as (st1 & v & Hu & Htask).
  assert (Hstep : runTaskStep env i now st = setPhase i id Finished st1).
  { unfold runTaskStep. rewrite Hr. cbn [run_taskId run_phase].
    now rewrite Hext, Hwrite, Hu. }
  rewrite Hstep. eexists. split; [exact Htask|].
  repeat (split; [rewrite get_nextTask; reflexivity|]).
  rewrite get_nextTask; reflexivity.
Qed.

Lemma runTaskStep_success_witness :
  exists task',
    tasks (runTaskStep Examples.env 0 "T2"
             (exec Examples.env Lifecycle.singleRun initialState)) !! "t1" = Some task'
    /\ get "status" task' = VString "SUCCESS"
    /\ get "outputUrl" task' = VString "/outputs/t1.png".
Proof.
  set (st := exec Examples.env Lifecycle.singleRun initialState).
  assert (Hr : exists result task,
            runs st !! 0%nat
            = Some {| run_taskId := "t1"; run_phase := Reporting [] (Ok result) |}
            /\ tasks st !! "t1" = Some task
            /\ JsValue.toString (get "outputExtension" result) = Ok "png"
            /\ writeFile Examples.env ("t1" +:+ "." +:+ "png") (get "outputBuffer" result)
               = Ok tt
            /\ Shared.isRecord task = true
            /\ get "taskId" task = VString "t1"
            /\ get "status" task = VString "PROCESSING").
  { do 2 eexists. split; [vm_compute; reflexivity|]. split; [vm_compute; reflexivity|].
    split; [reflexivity|]. split; [reflexivity|]. split; [reflexivity|].
    split; reflexivity. }
  destruct Hr as (result & task & Hr & Ht & Hext & Hw & Hrec & Hid & Hst).
  assert (Hwf : wfTask task).
  { split; [exact Hrec|]. split.
    - exists "t1". split; [exact Hid|reflexivity].
    - rewrite Hst. simpl. tauto. }
  destruct (runTaskStep_success Examples.env 0 "T2" st "t1" result task "png"
              Hr Ht Hwf Hext Hw) as (task' & H1 & H2 & H3 & _).
  exists task'. split; [exact H1|]. split; [exact H2|exact H3].
Defined.

End SettleFacts.

(* --------------------------------------------------------------------- *)
(** ** Edge cases of the shared validators                                *)
(* --------------------------------------------------------------------- *)

Section EdgeFacts.
Import JsString JsValue Shared Spec.

(** X19.  [extractPromptIndexing] throws exactly when the prompt is not a
    string, and then a validation error INVALID_STRING for the field
    [prompt]; on a prompt that is empty or blank it finds no marker. *)
Theorem extractPromptIndexing_edges (prompt : Value) (sourceCount : nat) :
  (isOk (extractPromptIndexing prompt sourceCount) = true
   <-> exists s, prompt = VString s)
  /\ (forall e, extractPromptIndexing prompt sourceCount = Throw e ->
        e = ContractValidationError "INVALID_STRING" "prompt must be a string"
              (VObject [("field", VString "prompt");
                        ("receivedType", VString (typeof prompt))]))
  /\ (forall s, prompt = VString s -> isEmpty (trim s) = true ->
        extractPromptIndexing prompt sourceCount
        = Ok (VObject [("usesReference", VBool false);
                       ("sourceIndexes", VArray []);
                       ("outOfRange", VArray [])])).
Proof.
  split; [|split].
  - split.
    + destruct prompt; try discriminate. intros _. now exists s.
    + intros [s ->]. reflexivity.
  - intros e. destruct prompt; now intros [= <-].
  - intros s -> Hs. unfold extractPromptIndexing, ensureString.
    cbn [negb andb bind]. rewrite (isEmpty_true _ Hs). reflexivity.
Qed.

Lemma extractPromptIndexing_edges_witness :
  extractPromptIndexing (VString "   ") 2
  = Ok (VObject [("usesReference", VBool false);
                 ("sourceIndexes", VArray []);
                 ("outOfRange", VArray [])]).
Proof.
  apply (proj2 (proj2 (extractPromptIndexing_edges (VString "   ") 2)) "   ");
    reflexivity.
Defined.

(** X20.  The negative prompt of an accepted contract is the empty string
    when the input has no [negativePrompt] (or has it as [undefined]), and
    the trimmed input when the input has a string, which may be blank; an
    input whose [negativePrompt] is anything else, [null] included, is
    never accepted. *)
Theorem validateGenerationContract_negativePrompt (input contract : Value) :
  validateGenerationContract input = Ok contract ->
  (get "negativePrompt" input = VUndefined
   /\ get "negativePrompt" contract = VString "")
  \/ exists s, get "negativePrompt" input = VString s
               /\ get "negativePrompt" contract = VString (trim s).
Proof.
  unfold validateGenerationContract.
  destruct (negb (isRecord input)); [discriminate|].
  intros H. bind_ok H. bind_ok H. bind_ok H. bind_ok H.
  destruct (get "sources" input) as [| | | | |[|s rest]|]; try discriminate.
  bind_ok H. injection H as <-.
  cbn [get lookup String.eqb Ascii.eqb Bool.eqb].
  destruct (get "negativePrompt" input) as [| | | |s0| |] eqn:Hn; try discriminate E1.
  - left. injection E1 as <-. split; reflexivity.
  - right. exists s0. split; [reflexivity|].
    unfold ensureString in E1. cbn [negb andb] in E1. now injection E1 as <-.
Qed.

Lemma validateGenerationContract_negativePrompt_witness :
  exists contract,
    validateGenerationContract Examples.modelBody = Ok contract
    /\ get "negativePrompt" contract = VString "".
Proof.
  assert (H : exists c, validateGenerationContract Examples.modelBody = Ok c)
    by (eexists; vm_compute; reflexivity).
  destruct H as [c H]. exists c. split; [exact H|].
  destruct (validateGenerationContract_negativePrompt _ _ H) as [[_ Hc]|(s & Hs & _)];
    [exact Hc|discriminate Hs].
Defined.

End EdgeFacts.
